(** * cfn-container-image-provider: the Custom::ContainerImage handler

    A shallow embedding of [pkg/resources/container_image/handler.go]
    (the revision with [Platform] support) and the properties of its
    reference resolution and of its create / update / delete lifecycle.

    Layout:
    - [go]        : the Go values the handler manipulates ([error], [interface{}],
                    the [strings] and [encoding/base64] functions it calls);
    - [regexp]    : Go regular expressions with leftmost-first submatches;
    - [Types], [Packages] : the third-party packages behind an interface
                    (docker/distribution reference, go-containerregistry name,
                    v1 and remote, the AWS SDK), and [World], the answers of
                    the outside world to the calls the handler makes;
    - [handler]   : [validate], [create], [getPlatforms], [delete],
                    [getAuthentication] and [Handler];
    - [model]     : an executable instance of [Packages] that follows the
                    packages pinned in go.mod, used to run the handler on the
                    events of the repository's tests;
    - [examples]  : those events, and worlds to run them in;
    - [notions], [shapes] : the vocabulary of the statements;
    - [tokens], [traces], [cases], [arns] : colons of a token, the calls of
                    a run, further events and worlds, repository ARNs;
    - [first_release] : [reportProgress] of the first release of the handler;
    - the facts about the expressions, about [validate] and about the
      handler, and the properties of the resource. *)

From Stdlib Require Import Ascii String DecimalString Lia.
From stdpp Require Import base option list strings gmap relations.

Local Open Scope string_scope.
Local Open Scope list_scope.

(** ** Go values *)

Module go.

(** A Go [error] is its message; [fmt.Errorf] builds the message. *)
Definition error := string.

(** [(T, error)]: [inl] is a non-nil error, [inr] the value. *)
Definition result (A : Type) : Type := error + A.

(** The dynamic values of [map[string]interface{}]: what [encoding/json]
    decodes into, and the [[]string] the handler stores under ["Platforms"]. *)
#[warnings="-register-all"]
Inductive Value : Type :=
| VNil
| VBool (b : bool)
| VNumber (n : Z)
| VString (s : string)
| VStrings (l : list string)
| VArray (l : list Value)
| VObject (l : list (string * Value)).

(** [v.(string)]: the comma-ok type assertion. *)
Definition as_string (v : option Value) : option string :=
  match v with
  | Some (VString s) => Some s
  | _ => None
  end.

Definition chars (s : string) : list ascii := list_ascii_of_string s.
Definition str (l : list ascii) : string := string_of_list_ascii l.

Definition ascii_eqb (a b : ascii) : bool := Ascii.eqb a b.

(** The texts are UTF-8, a character of a [string] is a byte. *)
Definition byte_is (a : ascii) (n : nat) : bool := (nat_of_ascii a =? n)%nat.

(** [unicode.ToLower] of an ASCII letter. *)
Definition lower (a : ascii) : ascii :=
  let n := nat_of_ascii a in
  if (65 <=? n)%nat && (n <=? 90)%nat then ascii_of_nat (n + 32) else a.

(** [strings.ToLower], as far as ASCII can tell: the ASCII capitals, and the
    two other runes whose lower case is an ASCII letter, U+0130 (bytes C4 B0,
    lower case [i]) and the Kelvin sign U+212A (bytes E2 84 AA, lower case
    [k]). The lower case of any other rune is not ASCII, as the rune is not;
    such runes are left as they are. *)
Fixpoint lowerRunes (l : list ascii) : list ascii :=
  match l with
  | [] => []
  | a :: l1 =>
      match l1 with
      | b :: l2 =>
          if byte_is a 196 && byte_is b 176 then "i"%char :: lowerRunes l2
          else
            match l2 with
            | c :: l3 =>
                if byte_is a 226 && byte_is b 132 && byte_is c 170
                then "k"%char :: lowerRunes l3
                else lower a :: lowerRunes l1
            | [] => lower a :: lowerRunes l1
            end
      | [] => [lower a]
      end
  end.

Definition ToLower (s : string) : string := str (lowerRunes (chars s)).

(** The white space of [unicode.IsSpace]. In ASCII: tab, newline, vertical
    tab, form feed, carriage return and space. *)
Definition isSpace (a : ascii) : bool :=
  let n := nat_of_ascii a in
  ((9 <=? n)%nat && (n <=? 13)%nat) || (n =? 32)%nat.

(** In two bytes: U+0085 (C2 85) and U+00A0 (C2 A0). *)
Definition isSpace2 (a b : ascii) : bool :=
  byte_is a 194 && (byte_is b 133 || byte_is b 160).

(** In three bytes: U+1680 (E1 9A 80), U+2000 to U+200A (E2 80 80 to
    E2 80 8A), U+2028, U+2029 and U+202F (E2 80 A8, E2 80 A9, E2 80 AF),
    U+205F (E2 81 9F) and U+3000 (E3 80 80). *)
Definition isSpace3 (a b c : ascii) : bool :=
  let n := nat_of_ascii c in
  (byte_is a 225 && byte_is b 154 && byte_is c 128)
  || (byte_is a 226 && byte_is b 128
      && (((128 <=? n)%nat && (n <=? 138)%nat) || byte_is c 168 || byte_is c 169 || byte_is c 175))
  || (byte_is a 226 && byte_is b 129 && byte_is c 159)
  || (byte_is a 227 && byte_is b 128 && byte_is c 128).

(** The text without the white space at its front; [space2] and [space3]
    tell the runes of two and three bytes. *)
Fixpoint trimLeft (space2 : ascii → ascii → bool) (space3 : ascii → ascii → ascii → bool)
    (l : list ascii) : list ascii :=
  match l with
  | [] => []
  | a :: l1 =>
      if isSpace a then trimLeft space2 space3 l1
      else
        match l1 with
        | b :: l2 =>
            if space2 a b then trimLeft space2 space3 l2
            else
              match l2 with
              | c :: l3 => if space3 a b c then trimLeft space2 space3 l3 else l
              | [] => l
              end
        | [] => l
        end
  end.

(** [strings.TrimSpace]: the front is trimmed, and then the back, where the
    bytes of a rune are met last byte first. *)
Definition TrimSpace (s : string) : string :=
  str (rev (trimLeft (fun b a => isSpace2 a b) (fun c b a => isSpace3 a b c)
              (rev (trimLeft isSpace2 isSpace3 (chars s))))).

(** [strings.Split(s, sep)] for a one-character separator: the pieces
    between the separators, [n + 1] of them for [n] separators. *)
Fixpoint splitOn (sep : ascii) (l : list ascii) : list (list ascii) :=
  match l with
  | [] => [[]]
  | a :: l' =>
      if ascii_eqb a sep then [] :: splitOn sep l'
      else match splitOn sep l' with
           | p :: ps => (a :: p) :: ps
           | [] => [[a]]
           end
  end.

Definition Split (s : string) (sep : ascii) : list string :=
  map str (splitOn sep (chars s)).

(** [strings.Join(parts, sep)] *)
Fixpoint Join (parts : list string) (sep : string) : string :=
  match parts with
  | [] => ""
  | [p] => p
  | p :: ps => p +:+ sep +:+ Join ps sep
  end.

(** [strings.ContainsRune] *)
Definition ContainsRune (s : string) (a : ascii) : bool :=
  existsb (ascii_eqb a) (chars s).

(** [strings.HasPrefix] *)
Definition HasPrefix (s p : string) : bool := String.prefix p s.

End go.

Import go.

(** ** Regular expressions ([regexp], [regexp/syntax]) *)

Module regexp.

(** The operators of [regexp/syntax] that the patterns of this program use.
    A character class is its list of ranges, as in [syntax.Regexp.Rune]. *)
Inductive Regexp : Type :=
| EmptyMatch
| Literal (l : list ascii)
| CharClass (ranges : list (ascii * ascii))
| Concat (r1 r2 : Regexp)
| Alternate (r1 r2 : Regexp)
| Star (r : Regexp)
| Capture (i : nat) (r : Regexp)
| BeginText
| EndText.

(** [x+], [x?] and [x{n,m}] the way [syntax.Regexp.Simplify] rewrites them:
    [x{2,5}] is [xx(x(x(x)?)?)?] and [x{2,}] is [xxx*]; all greedy. *)
Definition Plus (r : Regexp) : Regexp := Concat r (Star r).
Definition Quest (r : Regexp) : Regexp := Alternate r EmptyMatch.

Fixpoint Times (n : nat) (r : Regexp) : Regexp :=
  match n with
  | O => EmptyMatch
  | S n' => Concat r (Times n' r)
  end.

Fixpoint UpTo (n : nat) (r : Regexp) : Regexp :=
  match n with
  | O => EmptyMatch
  | S n' => Quest (Concat r (UpTo n' r))
  end.

Definition Repeat (r : Regexp) (min : nat) (max : option nat) : Regexp :=
  match max with
  | Some m => Concat (Times min r) (UpTo (m - min) r)
  | None => Concat (Times min r) (Star r)
  end.

Fixpoint Seq (rs : list Regexp) : Regexp :=
  match rs with
  | [] => EmptyMatch
  | [r] => r
  | r :: rs' => Concat r (Seq rs')
  end.

Definition lit (s : string) : Regexp := Literal (chars s).

Definition in_range (a : ascii) (rg : ascii * ascii) : bool :=
  (nat_of_ascii rg.1 <=? nat_of_ascii a)%nat && (nat_of_ascii a <=? nat_of_ascii rg.2)%nat.

Definition in_class (ranges : list (ascii * ascii)) (a : ascii) : bool :=
  existsb (in_range a) ranges.

Fixpoint strip_prefix (p s : list ascii) : option (list ascii) :=
  match p, s with
  | [], _ => Some s
  | a :: p', b :: s' => if ascii_eqb a b then strip_prefix p' s' else None
  | _ :: _, [] => None
  end.

(** The text of the submatches, by capture index; index 0 is the whole match.
    An unset submatch reads as the empty string, as in [FindStringSubmatch]. *)
Definition Caps := list (list ascii).

(** The text consumed between the remaining inputs [s] and [s']. *)
Definition consumed (s s' : list ascii) : list ascii := take (length s - length s') s.

(** A backtracking matcher in continuation-passing style: [run r w s c k]
    matches [r] at the front of the remaining input [s] of the whole input
    [w] and hands what is left to [k]; alternatives are tried in priority
    order (left alternative first, one more iteration first), which is the
    leftmost-first match [regexp] promises. An iteration of a star that
    consumes nothing is not repeated. *)
Fixpoint run (r : Regexp) (w s : list ascii) (c : Caps)
    (k : list ascii → Caps → option Caps) {struct r} : option Caps :=
  match r with
  | EmptyMatch => k s c
  | Literal l =>
      match strip_prefix l s with
      | Some s' => k s' c
      | None => None
      end
  | CharClass ranges =>
      match s with
      | a :: s' => if in_class ranges a then k s' c else None
      | [] => None
      end
  | Concat r1 r2 => run r1 w s c (fun s' c' => run r2 w s' c' k)
  | Alternate r1 r2 =>
      match run r1 w s c k with
      | Some res => Some res
      | None => run r2 w s c k
      end
  | Star r1 =>
      (fix loop (n : nat) (s : list ascii) (c : Caps) {struct n} : option Caps :=
         match n with
         | O => k s c
         | S n' =>
             match run r1 w s c
                     (fun s' c' => if (length s' <? length s)%nat then loop n' s' c' else None) with
             | Some res => Some res
             | None => k s c
             end
         end) (length s) s c
  | Capture i r1 => run r1 w s c (fun s' c' => k s' (<[i := consumed s s']> c'))
  | BeginText => if (length s =? length w)%nat then k s c else None
  | EndText => match s with [] => k s c | _ => None end
  end.

(** [Regexp.NumSubexp] *)
Fixpoint NumSubexp (r : Regexp) : nat :=
  match r with
  | Concat r1 r2 | Alternate r1 r2 => NumSubexp r1 `max` NumSubexp r2
  | Star r1 => NumSubexp r1
  | Capture i r1 => i `max` NumSubexp r1
  | _ => 0
  end.

(** The match at the current offset, else the search moves one character on. *)
Fixpoint search (re : Regexp) (w s : list ascii) : option Caps :=
  match run re w s (replicate (S (NumSubexp re)) [])
          (fun s' c => Some (<[0 := consumed s s']> c)) with
  | Some c => Some c
  | None =>
      match s with
      | [] => None
      | _ :: s' => search re w s'
      end
  end.

(** [Regexp.FindStringSubmatch]: nil when there is no match, else the
    whole match followed by the submatches. *)
Definition FindStringSubmatch (re : Regexp) (s : string) : list string :=
  match search re (chars s) (chars s) with
  | Some c => map str c
  | None => []
  end.

(** What a successful run has matched: [Match w r (s, c) (s', c')] relates the
    input and submatches before and after [r]. *)
Fixpoint Match (w : list ascii) (r : Regexp) (x y : list ascii * Caps) : Prop :=
  match r with
  | EmptyMatch => x = y
  | Literal l => x.1 = l ++ y.1 ∧ x.2 = y.2
  | CharClass ranges => ∃ a, x.1 = a :: y.1 ∧ in_class ranges a = true ∧ x.2 = y.2
  | Concat r1 r2 => ∃ z, Match w r1 x z ∧ Match w r2 z y
  | Alternate r1 r2 => Match w r1 x y ∨ Match w r2 x y
  | Star r1 => rtc (Match w r1) x y
  | Capture i r1 => ∃ c, Match w r1 x (y.1, c) ∧ y.2 = <[i := consumed x.1 y.1]> c
  | BeginText => x = y ∧ length x.1 = length w
  | EndText => x = y ∧ x.1 = []
  end.

End regexp.

(** ** The packages the handler imports *)

(** [github.com/google/go-containerregistry/pkg/v1]: the structs whose fields
    the handler reads or writes. *)
Module v1.

Record Platform : Type := {
  Architecture : string;
  OS : string;
  OSVersion : string;
  OSFeatures : list string;
  Variant : string;
  Features : list string
}.

Record Hash : Type := { Algorithm : string; Hex : string }.

(** [Hash.String] *)
Definition Hash_String (h : Hash) : string := Algorithm h +:+ ":" +:+ Hex h.

(** An entry of an index manifest ([v1.Descriptor]); [Platform] is a pointer. *)
Module Descriptor.
Record t : Type := {
  MediaType : string;
  Digest : Hash;
  Platform : option Platform
}.
End Descriptor.

Record IndexManifest : Type := { Manifests : list Descriptor.t }.

End v1.

(** [github.com/google/go-containerregistry/pkg/authn] *)
Module authn.
Record Basic : Type := { Username : string; Password : string }.
End authn.

(** [github.com/aws/aws-sdk-go/service/ecr]; the token is a [*string]. *)
Module ecr.
Record AuthorizationData : Type := { AuthorizationToken : option string }.
Record GetAuthorizationTokenOutput : Type := { AuthorizationData_ : list AuthorizationData }.
End ecr.

(** [github.com/aws/aws-lambda-go/cfn]: the fields of [cfn.Event] the handler
    reads, and the request types. *)
Module cfn.

Definition RequestCreate : string := "Create".
Definition RequestUpdate : string := "Update".
Definition RequestDelete : string := "Delete".

Record Event : Type := {
  RequestType : string;
  ResourceType : string;
  PhysicalResourceID : string;
  ResourceProperties : gmap string Value
}.

End cfn.

(** The types of the imported packages that the handler passes around
    without looking inside. *)
Class Types : Type := {
  (** [reference.Reference] of [github.com/docker/distribution/reference] *)
  reference_Reference : Type;
  (** [name.Reference] of [github.com/google/go-containerregistry/pkg/name] *)
  name_Reference : Type;
  (** [v1.Image] and [v1.ImageIndex] of [go-containerregistry/pkg/v1] *)
  v1_Image : Type;
  v1_ImageIndex : Type;
  (** [remote.Descriptor] of [go-containerregistry/pkg/v1/remote] *)
  remote_Descriptor : Type
}.

(** The functions of the imported packages, as an interface: the handler is
    written against it, and what is proved of the handler for every instance
    holds for the packages the program links. *)
Class Packages `{Types} : Type := {
  (** [github.com/docker/distribution/reference] *)
  reference_Parse : string → result reference_Reference;
  reference_String : reference_Reference → string;
  reference_FamiliarString : reference_Reference → string;
  reference_ReferenceRegexp : regexp.Regexp;
  (** [github.com/google/go-containerregistry/pkg/name] *)
  name_ParseReference : string → result name_Reference;
  name_String : name_Reference → string;
  (** [github.com/google/go-containerregistry/pkg/v1]; the digest of a
      fetched image is known. *)
  v1_ParsePlatform : string → result v1.Platform;
  v1_Platform_String : v1.Platform → string;
  v1_Image_Digest : v1_Image → v1.Hash;
  v1_IndexManifest : v1_ImageIndex → result v1.IndexManifest;
  (** [github.com/google/go-containerregistry/pkg/v1/remote] *)
  remote_Descriptor_Digest : remote_Descriptor → v1.Hash;
  remote_Descriptor_ImageIndex : remote_Descriptor → result v1_ImageIndex;
  (** [strings]: [ToLower] and [TrimSpace] work on Unicode text *)
  strings_ToLower : string → string;
  strings_TrimSpace : string → string;
  (** [encoding/base64]: [StdEncoding.DecodeString] *)
  base64_DecodeString : string → result string
}.

(** What is pushed: [pusher.Push] takes the fetched descriptor or an image. *)
Inductive Taggable `{Types} : Type :=
| TDescriptor (d : remote_Descriptor)
| TImage (i : v1_Image).

(** The digest of what is pushed. *)
Definition Taggable_Digest `{Packages} (t : Taggable) : v1.Hash :=
  match t with
  | TDescriptor d => remote_Descriptor_Digest d
  | TImage i => v1_Image_Digest i
  end.

(** The calls that leave the process: to the ECR API and to the registries. *)
Inductive Call `{Types} : Type :=
| GetAuthorizationToken
| PullerGet (platform : option v1.Platform) (ref : name_Reference)
| DescriptorImage (d : remote_Descriptor)
| PusherPush (target : name_Reference) (t : Taggable) (auth : authn.Basic)
| RemoteDelete (ref : name_Reference) (auth : authn.Basic).

(** What an invocation does besides returning: its calls and its log lines,
    in order. *)
Inductive Effect `{Types} : Type :=
| Net (c : Call)
| Log (msg : string).

(** The answers of the outside world within one invocation. Each call is made
    at most once per invocation, so an answer per call and argument is as
    general as a stateful registry. [None] is a nil error.
    [remote.NewPuller], [remote.NewPusher] and the session are built locally
    and can fail too. *)
Record World `{Types} : Type := {
  session_NewSessionWithOptions : option error;
  ecr_GetAuthorizationToken : result ecr.GetAuthorizationTokenOutput;
  remote_NewPuller : option error;
  remote_NewPusher : option error;
  puller_Get : option v1.Platform → name_Reference → result remote_Descriptor;
  descriptor_Image : remote_Descriptor → result v1_Image;
  pusher_Push : name_Reference → Taggable → authn.Basic → option error;
  remote_Delete : name_Reference → authn.Basic → option error
}.

(** ** Computations with effects *)

(** A value and the effects that led to it. *)
Definition M `{Types} (A : Type) : Type := A * list Effect.

Definition ret `{Types} {A} (a : A) : M A := (a, []).
Definition bind `{Types} {A B} (m : M A) (f : A → M B) : M B :=
  let (b, t) := f m.1 in (b, m.2 ++ t).
Definition effect `{Types} (e : Effect) : M unit := (tt, [e]).

(** The same with an error that ends the computation. *)
Definition bindE `{Types} {A B} (m : M (result A)) (f : A → M (result B)) : M (result B) :=
  bind m (fun r => match r with inl err => ret (inl err) | inr a => f a end).

Notation "x <- m ;; k" := (bind m (fun x => k))
  (at level 100, m at next level, right associativity).
Notation "x <-? m ;; k" := (bindE m (fun x => k))
  (at level 100, m at next level, right associativity).

(** [if err != nil { return ..., wrap(err) }] around a local call. *)
Definition check `{Types} (o : option error) (wrap : error → error) : M (result unit) :=
  ret (match o with Some err => inl (wrap err) | None => inr tt end).
Definition wrapErr {A} (r : result A) (wrap : error → error) : result A :=
  match r with inl err => inl (wrap err) | inr a => inr a end.

(** The same for a pure [(T, error)]. *)
Definition bindR {A B} (r : result A) (f : A → result B) : result B :=
  match r with inl err => inl err | inr a => f a end.

Notation "x <~ r ;; k" := (bindR r (fun x => k))
  (at level 100, r at next level, right associativity).

(** [parts[i]] under the guard [len(parts) > i]; the zero value otherwise. *)
Definition at_index (parts : list string) (i : nat) : string := default "" (parts !! i).

(** [strconv.Itoa] for a length. *)
Definition Itoa (n : nat) : string := NilEmpty.string_of_uint (Nat.to_uint n).

(** ** The handler ([pkg/resources/container_image/handler.go]) *)

Module handler.
Import regexp.

(** [[a-z]], [\d] and a single character, as class ranges. *)
Definition az : ascii * ascii := ("a"%char, "z"%char).
Definition digit : ascii * ascii := ("0"%char, "9"%char).
Definition chr (a : ascii) : ascii * ascii := (a, a).

(** "^arn:aws:ecr:([a-z\d-]+):(\d+):repository/([a-z][a-z\d-_/.]+)$"

    Under the Perl flags of [regexp.MustCompile], a [-] after [\d] is a
    literal, so the last class is [a-z], digits, [-], [_], [/] and [.]. *)
Definition ecrRepositoryArnPattern : Regexp :=
  Seq [ BeginText;
        lit "arn:aws:ecr:";
        Capture 1 (Plus (CharClass [az; digit; chr "-"]));
        lit ":";
        Capture 2 (Plus (CharClass [digit]));
        lit ":repository/";
        Capture 3 (Concat (CharClass [az])
                     (Plus (CharClass [az; digit; chr "-"; chr "_"; chr "/"; chr "."])));
        EndText ].

Section handler.
Context {T : Types} {P : Packages}.

Record resourceProperties : Type := {
  Source : name_Reference;
  SourceTag : string;
  SourceDigest : string;
  SourceName : string;
  Platform : option v1.Platform;
  Target : name_Reference;
  Region : string;
  AccountID : string;
  RepositoryName : string
}.

(** The three results of the Go functions:
    [(physicalResourceID string, data map[string]interface{}, err error)]. *)
Record Response : Type := {
  physicalResourceID : string;
  data : option (gmap string Value);
  err : option error
}.

(** [return "", nil, err] *)
Definition failed (e : error) : Response :=
  {| physicalResourceID := ""; data := None; err := Some e |}.

(** The reference the image is pushed to: the tag names it when there is one,
    the digest otherwise (the two [fmt.Sprintf] of [validate]). *)
Definition targetReference (accountID region repositoryName sourceTag sourceDigest : string) : string :=
  if decide (sourceTag ≠ "") then
    accountID +:+ ".dkr.ecr." +:+ region +:+ ".amazonaws.com/" +:+ repositoryName +:+ ":" +:+ sourceTag
  else
    accountID +:+ ".dkr.ecr." +:+ region +:+ ".amazonaws.com/" +:+ repositoryName +:+ "@" +:+ sourceDigest.

Definition validate (event : cfn.Event) : result resourceProperties :=
  ref <~ match as_string (cfn.ResourceProperties event !! "ImageReference") with
         | Some ref => inr ref
         | None => inl "ImageReference is missing or not a string"
         end ;;
  imageReference <~ wrapErr (reference_Parse ref) (fun err => ref +:+ ": " +:+ err) ;;
  source <~ name_ParseReference (reference_FamiliarString imageReference) ;;
  let parts := FindStringSubmatch reference_ReferenceRegexp (reference_String imageReference) in
  if decide (length parts = 0) then
    inl ("reference.ReferenceRegexp failed to match " +:+ reference_String imageReference)
  else
  let sourceDigest := at_index parts 3 in
  let sourceTag := at_index parts 2 in
  let sourceName := at_index parts 1 in
  let sourceTag := if decide (sourceDigest = "" ∧ sourceTag = "") then "latest" else sourceTag in
  source <~ (if decide (sourceDigest ≠ "") then
               digestReference <~ wrapErr (reference_Parse (sourceName +:+ "@" +:+ sourceDigest))
                 (fun err => "failed to turn source reference into a digest reference "
                             +:+ sourceName +:+ "@" +:+ sourceDigest +:+ ", " +:+ err) ;;
               wrapErr (name_ParseReference (reference_FamiliarString digestReference))
                 (fun err => "failed to turn source reference into a digest reference "
                             +:+ reference_String digestReference +:+ ", " +:+ err)
             else inr source) ;;
  arn <~ match as_string (cfn.ResourceProperties event !! "RepositoryArn") with
         | Some arn => inr arn
         | None => inl "RepositoryArn is missing or not a string"
         end ;;
  let matches := FindStringSubmatch ecrRepositoryArnPattern arn in
  if decide (length matches ≠ 4) then inl ("Invalid AWS ECR repository ARN: " +:+ arn) else
  let region := at_index matches 1 in
  let accountID := at_index matches 2 in
  let repositoryName := at_index matches 3 in
  target <~ name_ParseReference (targetReference accountID region repositoryName sourceTag sourceDigest) ;;
  platform <~ match as_string (cfn.ResourceProperties event !! "Platform") with
              | Some platform =>
                  if decide (strings_TrimSpace (strings_ToLower platform) = "all") then inr None
                  else p <~ wrapErr (v1_ParsePlatform platform)
                              (fun err => "invalid Platform format, " +:+ err) ;;
                       inr (Some p)
              | None =>
                  (* backwards compatible with first release *)
                  inr (Some {| v1.Architecture := "amd64"; v1.OS := "linux"; v1.OSVersion := "";
                               v1.OSFeatures := []; v1.Variant := ""; v1.Features := [] |})
              end ;;
  inr {| Source := source; SourceTag := sourceTag; SourceDigest := sourceDigest;
         SourceName := sourceName; Platform := platform; Target := target;
         Region := region; AccountID := accountID; RepositoryName := repositoryName |}.

(** The platforms of a manifest index, in manifest order; entries without a
    platform are skipped, and anything that is not a readable index has none. *)
Definition getPlatforms (descriptor : remote_Descriptor) : list string :=
  match remote_Descriptor_ImageIndex descriptor with
  | inr index =>
      match v1_IndexManifest index with
      | inr indexManifest =>
          omap (fun manifest => v1_Platform_String <$> v1.Descriptor.Platform manifest)
               (v1.Manifests indexManifest)
      | inl _ => []
      end
  | inl _ => []
  end.

Context (W : World).

(** Every error of [create] is returned as [return "", nil, err]: the steps
    run until the first error, and the three results are built at the end. *)
Definition create (event : cfn.Event) (authenticator : authn.Basic) : M Response :=
  r <- (
  properties <-? ret (validate event) ;;
  _ <-? check (remote_NewPuller W)
          (fun err => "failed to create puller for repository: " +:+ err) ;;
  _ <-? check (remote_NewPusher W)
          (fun err => "failed to create pusher for repository: " +:+ err) ;;
  descriptor <-? (_ <- effect (Net (PullerGet (Platform properties) (Source properties))) ;;
                  ret (wrapErr (puller_Get W (Platform properties) (Source properties))
                         (fun err => "failed to get descriptor for repository: " +:+ err))) ;;
  _ <-? match Platform properties with
        | None =>
            _ <- effect (Net (PusherPush (Target properties) (TDescriptor descriptor) authenticator)) ;;
            check (pusher_Push W (Target properties) (TDescriptor descriptor) authenticator)
              (fun err => "failed to push descriptor: " +:+ err)
        | Some _ =>
            image <-? (_ <- effect (Net (DescriptorImage descriptor)) ;;
                       ret (wrapErr (descriptor_Image W descriptor)
                              (fun err => "failed to get the platform specific image from descriptor: "
                                          +:+ err))) ;;
            _ <- effect (Net (PusherPush (Target properties) (TImage image) authenticator)) ;;
            check (pusher_Push W (Target properties) (TImage image) authenticator)
              (fun err => "failed to push image: " +:+ err)
        end ;;
  let platforms :=
    match Platform properties with
    | Some platform => [v1_Platform_String platform]
    | None => getPlatforms descriptor
    end in
  let data : gmap string Value :=
    <["Digest" := VString (v1.Hash_String (remote_Descriptor_Digest descriptor))]>
    (<["ImageReference" := VString (name_String (Target properties))]>
    (<["Platforms" := VStrings platforms]> ∅)) in
  ret (inr (name_String (Target properties), data))) ;;
  ret match r with
      | inl e => failed e
      | inr (id, d) => {| physicalResourceID := id; data := Some d; err := None |}
      end.

(** [physicalResourceID] is a named result that is never assigned: [delete]
    returns the empty string, no data and a nil error on every path. *)
Definition delete (event : cfn.Event) (authenticator : authn.Basic) : M Response :=
  _ <- match name_ParseReference (cfn.PhysicalResourceID event) with
       | inr imageReference =>
           _ <- effect (Net (RemoteDelete imageReference authenticator)) ;;
           match remote_Delete W imageReference authenticator with
           | Some e =>
               effect (Log ("ignoring failed delete of image " +:+ cfn.PhysicalResourceID event
                            +:+ ", " +:+ e))
           | None => ret tt
           end
       | inl _ =>
           effect (Log ("ignoring invalid physical resource id " +:+ cfn.PhysicalResourceID event))
       end ;;
  ret {| physicalResourceID := ""; data := None; err := None |}.

Definition getAuthentication : M (result authn.Basic) :=
  response <-? (_ <- effect (Net GetAuthorizationToken) ;; ret (ecr_GetAuthorizationToken W)) ;;
  match ecr.AuthorizationData_ response with
  | [] => ret (inl "no authorization data was returned")
  | first :: _ =>
      match ecr.AuthorizationToken first with
      | None => ret (inl "no authorization data was returned")
      | Some authorizationToken =>
          token <-? ret (base64_DecodeString authorizationToken) ;;
          let parts := Split token ":" in
          if decide (length parts ≠ 2) then
            ret (inl ("token seperated by : contains " +:+ Itoa (length parts)
                      +:+ " elements, not 2"))
          else
            ret (inr {| authn.Username := at_index parts 0; authn.Password := at_index parts 1 |})
      end
  end.

(** [logs.Warn.SetOutput] and [logs.Progress.SetOutput] only redirect the
    output of the registry library and are left out. *)
Definition Handler (event : cfn.Event) : M Response :=
  match session_NewSessionWithOptions W with
  | Some e => ret (failed e)
  | None =>
      auth <- getAuthentication ;;
      match auth with
      | inl e => ret (failed e)
      | inr basicAuthentication =>
          if decide (cfn.ResourceType event = "Custom::ContainerImage") then
            if decide (cfn.RequestType event = cfn.RequestCreate) then
              r <- create event basicAuthentication ;;
              ret (if decide (physicalResourceID r = "")
                   then {| physicalResourceID := "create-failed"; data := data r; err := err r |}
                   else r)
            else if decide (cfn.RequestType event = cfn.RequestUpdate) then
              create event basicAuthentication
            else if decide (cfn.RequestType event = cfn.RequestDelete) then
              delete event basicAuthentication
            else
              ret (failed ("unsupported request type: " +:+ cfn.RequestType event))
          else
            ret (failed ("unsupported resource type: " +:+ cfn.ResourceType event))
      end
  end.

End handler.
End handler.

(** ** An executable instance of the packages

    The functions behind [Packages], written after the packages that go.mod
    pins (docker/distribution v2.8.2, go-containerregistry v0.15.2,
    go-digest v1.0.0), far enough to run the handler on the references,
    ARNs and platforms of the repository's tests and documentation. *)

Module model.
Import regexp.

Definition AZ : ascii * ascii := ("A"%char, "Z"%char).
Definition az : ascii * ascii := ("a"%char, "z"%char).
Definition d09 : ascii * ascii := ("0"%char, "9"%char).
Definition af : ascii * ascii := ("a"%char, "f"%char).
Definition AF : ascii * ascii := ("A"%char, "F"%char).
Definition chr (a : ascii) : ascii * ascii := (a, a).

(** *** [reference/regexp.go] *)
Module reference.

(** "[a-z0-9]+" *)
Definition alphaNumericRegexp : Regexp := Plus (CharClass [az; d09]).

(** A non-capturing group of the alternatives "[._]", "__" and "[-]*". *)
Definition separatorRegexp : Regexp :=
  Alternate (CharClass [chr "."; chr "_"]) (Alternate (lit "__") (Star (CharClass [chr "-"]))).

(** [optional] and [repeated] wrap their arguments in a group followed by
    [?] and [+]. *)
Definition optional (rs : list Regexp) : Regexp := Quest (Seq rs).
Definition repeated (rs : list Regexp) : Regexp := Plus (Seq rs).

Definition nameComponentRegexp : Regexp :=
  Seq [alphaNumericRegexp; optional [repeated [separatorRegexp; alphaNumericRegexp]]].

(** A non-capturing group of the alternatives "[a-zA-Z0-9]" and
    "[a-zA-Z0-9][a-zA-Z0-9-]*[a-zA-Z0-9]". *)
Definition domainComponentRegexp : Regexp :=
  Alternate (CharClass [az; AZ; d09])
    (Seq [CharClass [az; AZ; d09]; Star (CharClass [az; AZ; d09; chr "-"]); CharClass [az; AZ; d09]]).

Definition DomainRegexp : Regexp :=
  Seq [domainComponentRegexp;
       optional [repeated [lit "."; domainComponentRegexp]];
       optional [lit ":"; Plus (CharClass [d09])]].

(** "[\w][\w.-]{0,127}" *)
Definition TagRegexp : Regexp :=
  Concat (CharClass [d09; AZ; az; chr "_"])
    (Repeat (CharClass [d09; AZ; az; chr "_"; chr "."; chr "-"]) 0 (Some 127)).

(** "[A-Za-z][A-Za-z0-9]*", then any number of "[-_+.][A-Za-z][A-Za-z0-9]*",
    then "[:][[:xdigit:]]{32,}". *)
Definition DigestRegexp : Regexp :=
  Seq [CharClass [AZ; az]; Star (CharClass [AZ; az; d09]);
       Star (Seq [CharClass [chr "-"; chr "_"; chr "+"; chr "."];
                  CharClass [AZ; az]; Star (CharClass [AZ; az; d09])]);
       CharClass [chr ":"];
       Repeat (CharClass [d09; AF; af]) 32 None].

Definition NameRegexp : Regexp :=
  Seq [optional [DomainRegexp; lit "/"];
       nameComponentRegexp;
       optional [repeated [lit "/"; nameComponentRegexp]]].

Definition anchoredNameRegexp : Regexp :=
  Seq [BeginText;
       optional [Capture 1 DomainRegexp; lit "/"];
       Capture 2 (Seq [nameComponentRegexp; optional [repeated [lit "/"; nameComponentRegexp]]]);
       EndText].

(** The reference grammar, with submatches for name, tag and digest. *)
Definition ReferenceRegexp : Regexp :=
  Seq [BeginText;
       Capture 1 NameRegexp;
       optional [lit ":"; Capture 2 TagRegexp];
       optional [lit "@"; Capture 3 DigestRegexp];
       EndText].

(** *** go-digest: [Digest.Validate] *)

(** "^[a-z0-9]+", then any number of "[.+_-][a-z0-9]+", then
    ":[a-zA-Z0-9=_-]+$". *)
Definition DigestRegexpAnchored : Regexp :=
  Seq [BeginText; Plus (CharClass [az; d09]);
       Star (Seq [CharClass [chr "."; chr "+"; chr "_"; chr "-"]; Plus (CharClass [az; d09])]);
       lit ":"; Plus (CharClass [az; AZ; d09; chr "="; chr "_"; chr "-"]); EndText].

(** The hex length of the registered algorithms. *)
Definition algorithmSize (algorithm : string) : option nat :=
  if decide (algorithm = "sha256") then Some 64
  else if decide (algorithm = "sha384") then Some 96
  else if decide (algorithm = "sha512") then Some 128
  else None.

Definition digest_Validate (s : string) : option error :=
  match splitOn ":" (chars s) with
  | algorithm :: encoded :: rest =>
      let encoded := str encoded +:+ String.concat "" (map (fun p => ":" +:+ str p) rest) in
      if decide (algorithm = [] ∨ encoded = "") then Some "invalid checksum digest format"
      else match algorithmSize (str algorithm) with
           | None =>
               if decide (FindStringSubmatch DigestRegexpAnchored s = [])
               then Some "invalid checksum digest format"
               else Some "unsupported digest algorithm"
           | Some size =>
               if decide (size ≠ String.length encoded) then Some "invalid checksum digest length"
               else if forallb (in_class [af; d09]) (chars encoded) then None
               else Some "invalid checksum digest format"
           end
  | _ => Some "invalid checksum digest format"
  end.

(** *** [reference/reference.go], [reference/normalize.go] *)

(** The four kinds of named reference carry the same fields; an empty tag or
    digest is an absent one. *)
Record Reference : Type := { domain : string; path : string; tag : string; digest : string }.

Definition Name (r : Reference) : string :=
  if decide (domain r = "") then path r else domain r +:+ "/" +:+ path r.

Definition String_ (r : Reference) : string :=
  Name r +:+ (if decide (tag r = "") then "" else ":" +:+ tag r)
         +:+ (if decide (digest r = "") then "" else "@" +:+ digest r).

Definition NameTotalLengthMax : nat := 255.

Definition Parse (s : string) : result Reference :=
  let matches := FindStringSubmatch ReferenceRegexp s in
  if decide (matches = []) then
    if decide (s = "") then inl "repository name must have at least one component"
    else if decide (FindStringSubmatch ReferenceRegexp (ToLower s) ≠ [])
    then inl "repository name must be lowercase"
    else inl "invalid reference format"
  else if decide (NameTotalLengthMax < String.length (at_index matches 1)) then
    inl "repository name must not be more than 255 characters"
  else
    let nameMatch := FindStringSubmatch anchoredNameRegexp (at_index matches 1) in
    let (domain, path) :=
      if decide (length nameMatch = 3) then (at_index nameMatch 1, at_index nameMatch 2)
      else ("", at_index matches 1) in
    match (if decide (at_index matches 3 ≠ "") then digest_Validate (at_index matches 3) else None) with
    | Some err => inl err
    | None =>
        inr {| domain := domain; path := path; tag := at_index matches 2;
               digest := at_index matches 3 |}
    end.

(** [familiarizeName]: the default domain and the [library/] of official
    images are left out. *)
Definition familiarizeName (r : Reference) : Reference :=
  if decide (domain r = "docker.io") then
    match Split (path r) "/" with
    | [first; second] =>
        if decide (first = "library")
        then {| domain := ""; path := second; tag := tag r; digest := digest r |}
        else {| domain := ""; path := path r; tag := tag r; digest := digest r |}
    | _ => {| domain := ""; path := path r; tag := tag r; digest := digest r |}
    end
  else r.

Definition FamiliarString (r : Reference) : string := String_ (familiarizeName r).

End reference.

(** *** [pkg/name] *)
Module name.

Definition DefaultRegistry : string := "index.docker.io".
Definition defaultRegistryAlias : string := "docker.io".
Definition defaultNamespace : string := "library".
Definition defaultTag : string := "latest".
Definition repositoryChars : string := "abcdefghijklmnopqrstuvwxyz0123456789_-./".
Definition tagChars : string :=
  "abcdefghijklmnopqrstuvwxyzABCDEFGHIJKLMNOPQRSTUVWXYZ0123456789_-.".

(** [checkElement] *)
Definition checkElement (name element allowedRunes : string) (minRunes maxRunes : nat)
    : option error :=
  let numRunes := String.length element in
  if decide (numRunes < minRunes ∨ maxRunes < numRunes) then
    Some (name +:+ " must be between " +:+ Itoa minRunes +:+ " and " +:+ Itoa maxRunes
          +:+ " characters in length: " +:+ element)
  else if forallb (ContainsRune allowedRunes) (chars element) then None
  else Some (name +:+ " can only contain the characters `" +:+ allowedRunes +:+ "`: " +:+ element).

Definition checkTag (name : string) : option error := checkElement "tag" name tagChars 1 128.
Definition checkRepository (repository : string) : option error :=
  checkElement "repository" repository repositoryChars 2 255.

(** [checkRegistry] asks [net/url] whether the name is an RFC 3986 authority.
    Here: a host of letters, digits, [.], [-] and [_] with an optional
    numeric port, which covers the registries of this program. *)
Definition checkRegistry (name : string) : option error :=
  let ok :=
    match splitOn ":" (chars name) with
    | [host] => forallb (in_class [az; AZ; d09; chr "."; chr "-"; chr "_"]) host
    | [host; port] =>
        forallb (in_class [az; AZ; d09; chr "."; chr "-"; chr "_"]) host
        && forallb (in_class [d09]) port
    | _ => false
    end in
  if ok then None
  else Some ("registries must be valid RFC 3986 URI authorities: " +:+ name).

Record Repository : Type := { registry : string; repository : string }.

(** [NewRegistry], without the strict option. *)
Definition NewRegistry (name : string) : result string :=
  match checkRegistry name with
  | Some err => inl err
  | None =>
      let name := if decide (name = "") then DefaultRegistry else name in
      let name := if decide (name = defaultRegistryAlias) then DefaultRegistry else name in
      inr name
  end.

(** [strings.SplitN(name, "/", 2)] *)
Fixpoint splitFirst (sep : ascii) (l : list ascii) : option (list ascii * list ascii) :=
  match l with
  | [] => None
  | a :: l' =>
      if ascii_eqb a sep then Some ([], l')
      else match splitFirst sep l' with
           | Some (x, y) => Some (a :: x, y)
           | None => None
           end
  end.

Definition NewRepository (name : string) : result Repository :=
  if decide (String.length name = 0) then inl "a repository name must be specified" else
  let (registry, repo) :=
    match splitFirst "/" (chars name) with
    | Some (first, rest) =>
        if ContainsRune (str first) "." || ContainsRune (str first) ":"
        then (str first, str rest) else ("", name)
    | None => ("", name)
    end in
  match checkRepository repo with
  | Some err => inl err
  | None =>
      reg <~ NewRegistry registry ;;
      inr {| registry := reg; repository := repo |}
  end.

Definition hasImplicitNamespace (repo reg : string) : bool :=
  negb (ContainsRune repo "/") && bool_decide (reg = DefaultRegistry).

(** [path.Join(defaultNamespace, repository)] for a repository without
    slash. *)
Definition RepositoryStr (r : Repository) : string :=
  if hasImplicitNamespace (repository r) (registry r)
  then defaultNamespace +:+ "/" +:+ repository r
  else repository r.

Definition Repository_Name (r : Repository) : string :=
  if decide (registry r ≠ "") then registry r +:+ "/" +:+ RepositoryStr r else RepositoryStr r.

(** [name.Reference] is a [Tag] or a [Digest]; both keep the string they
    were parsed from. *)
Inductive Reference : Type :=
| Tag (repo : Repository) (tag : string) (original : string)
| Digest (repo : Repository) (digest : string) (original : string).

Definition NewTag (name : string) : result Reference :=
  let parts := Split name ":" in
  let (base, tag) :=
    match parts with
    | _ :: _ :: _ =>
        if negb (ContainsRune (List.last parts "") "/")
        then (Join (removelast parts) ":", List.last parts "")
        else (name, "")
    | _ => (name, "")
    end in
  match (if decide (tag ≠ "") then checkTag tag else None) with
  | Some err => inl err
  | None =>
      let tag := if decide (tag = "") then defaultTag else tag in
      repo <~ NewRepository base ;;
      inr (Tag repo tag name)
  end.

Definition NewDigest (name : string) : result Reference :=
  match Split name "@" with
  | [base; dig] =>
      if negb (HasPrefix dig "sha256:") then inl ("unsupported digest algorithm: " +:+ dig) else
      let hex := String.substring 7 (String.length dig - 7) dig in
      if decide (String.length hex ≠ 64) then inl "invalid checksum digest length" else
      if negb (forallb (in_class [af; d09]) (chars hex)) then inl "invalid checksum digest format" else
      let base := match NewTag base with
                  | inr (Tag repo _ _) => Repository_Name repo
                  | _ => base
                  end in
      repo <~ NewRepository base ;;
      inr (Digest repo dig name)
  | _ =>
      inl ("a digest must contain exactly one '@' separator (e.g. registry/repository@digest) saw: "
           +:+ name)
  end.

Definition ParseReference (s : string) : result Reference :=
  match NewTag s with
  | inr t => inr t
  | inl _ =>
      match NewDigest s with
      | inr d => inr d
      | inl _ => inl ("could not parse reference: " +:+ s)
      end
  end.

(** [Tag.String] and [Digest.String] *)
Definition String_ (r : Reference) : string :=
  match r with
  | Tag repo tag _ => Repository_Name repo +:+ ":" +:+ tag
  | Digest repo digest _ => Repository_Name repo +:+ "@" +:+ digest
  end.

End name.

(** *** [pkg/v1/platform.go] *)
Module platform.

Definition String_ (p : v1.Platform) : string :=
  if decide (v1.OS p = "") then "" else
  v1.OS p
  +:+ (if decide (v1.Architecture p ≠ "") then "/" +:+ v1.Architecture p else "")
  +:+ (if decide (v1.Variant p ≠ "") then "/" +:+ v1.Variant p else "")
  +:+ (if decide (v1.OSVersion p ≠ "") then ":" +:+ v1.OSVersion p else "").

Definition ParsePlatform (s : string) : result v1.Platform :=
  let parts := Split (TrimSpace s) ":" in
  let osVersion := if decide (length parts = 2) then at_index parts 1 else "" in
  let parts := Split (at_index parts 0) "/" in
  if decide (3 < length parts) then inl ("too many slashes in platform spec: " +:+ s) else
  inr {| v1.Architecture := at_index parts 1; v1.OS := at_index parts 0;
         v1.OSVersion := osVersion; v1.OSFeatures := [];
         v1.Variant := at_index parts 2; v1.Features := [] |}.

End platform.

(** *** [pkg/v1/remote/descriptor.go] *)
Module remote.

(** A fetched manifest: its media type, its digest and, read as an index
    manifest, its entries or the error of parsing it. *)
Record Descriptor : Type := {
  MediaType : string;
  Digest : v1.Hash;
  Manifest : result v1.IndexManifest
}.

Record Image : Type := { Image_Digest : v1.Hash }.

Definition DockerManifestSchema1 : string := "application/vnd.docker.distribution.manifest.v1+json".
Definition DockerManifestSchema1Signed : string :=
  "application/vnd.docker.distribution.manifest.v1+prettyjws".
Definition OCIManifestSchema1 : string := "application/vnd.oci.image.manifest.v1+json".
Definition DockerManifestSchema2 : string := "application/vnd.docker.distribution.manifest.v2+json".
Definition OCIImageIndex : string := "application/vnd.oci.image.index.v1+json".
Definition DockerManifestList : string :=
  "application/vnd.docker.distribution.manifest.list.v2+json".

(** [Descriptor.ImageIndex]: schema 1 and image manifests are refused, any
    other media type is taken for an index. The index is the descriptor. *)
Definition ImageIndex (d : Descriptor) : result Descriptor :=
  if decide (MediaType d = DockerManifestSchema1 ∨ MediaType d = DockerManifestSchema1Signed) then
    inl ("unsupported MediaType: " +:+ MediaType d)
  else if decide (MediaType d = OCIManifestSchema1 ∨ MediaType d = DockerManifestSchema2) then
    inl ("unexpected media type for ImageIndex(): " +:+ MediaType d +:+ "; call Image() instead")
  else inr d.

End remote.

(** *** [encoding/base64] *)
Module base64.

Definition sextet (a : ascii) : option nat :=
  let n := nat_of_ascii a in
  if in_range a AZ then Some (n - 65)
  else if in_range a az then Some (n - 97 + 26)
  else if in_range a d09 then Some (n - 48 + 52)
  else if ascii_eqb a "+" then Some 62
  else if ascii_eqb a "/" then Some 63
  else None.

Definition byte (n : nat) : ascii := ascii_of_nat (n `mod` 256).

(** Four characters give three bytes; the last group may end in one or two
    padding characters. *)
Fixpoint decode (l : list ascii) : option (list ascii) :=
  match l with
  | [] => Some []
  | a :: b :: c :: d :: rest =>
      x ← sextet a; y ← sextet b;
      if ascii_eqb c "=" then
        if ascii_eqb d "=" then
          match rest with [] => Some [byte (x * 4 + y `div` 16)] | _ => None end
        else None
      else
        z ← sextet c;
        if ascii_eqb d "=" then
          match rest with
          | [] => Some [byte (x * 4 + y `div` 16); byte (y * 16 + z `div` 4)]
          | _ => None
          end
        else
          u ← sextet d; tl ← decode rest;
          Some (byte (x * 4 + y `div` 16) :: byte (y * 16 + z `div` 4) :: byte (z * 64 + u) :: tl)
  | _ => None
  end.

(** [StdEncoding.DecodeString]; carriage returns and newlines are skipped. *)
Definition DecodeString (s : string) : result string :=
  match decode (filter (fun a => a ≠ "013"%char ∧ a ≠ "010"%char) (chars s)) with
  | Some l => inr (str l)
  | None => inl "illegal base64 data"
  end.

End base64.

#[export] Instance types : Types := {|
  reference_Reference := reference.Reference;
  name_Reference := name.Reference;
  v1_Image := remote.Image;
  v1_ImageIndex := remote.Descriptor;
  remote_Descriptor := remote.Descriptor
|}.

#[export] Instance packages : Packages := {|
  reference_Parse := reference.Parse;
  reference_String := reference.String_;
  reference_FamiliarString := reference.FamiliarString;
  reference_ReferenceRegexp := reference.ReferenceRegexp;
  name_ParseReference := name.ParseReference;
  name_String := name.String_;
  v1_ParsePlatform := platform.ParsePlatform;
  v1_Platform_String := platform.String_;
  v1_Image_Digest := remote.Image_Digest;
  v1_IndexManifest := remote.Manifest;
  remote_Descriptor_Digest := remote.Digest;
  remote_Descriptor_ImageIndex := remote.ImageIndex;
  strings_ToLower := ToLower;
  strings_TrimSpace := TrimSpace;
  base64_DecodeString := base64.DecodeString
|}.

End model.

(** ** Events and worlds of the repository's tests and documentation *)

Module examples.
Import handler.
Export model.

Definition event (requestType physicalResourceID : string) (properties : list (string * Value))
    : cfn.Event :=
  {| cfn.RequestType := requestType;
     cfn.ResourceType := "Custom::ContainerImage";
     cfn.PhysicalResourceID := physicalResourceID;
     cfn.ResourceProperties := list_to_map properties |}.

Definition python39Digest : string :=
  "sha256:3d35a404db586d00a4ee5a65fd1496fe019ed4bdc068d436a67ce5b64b8b9659".

Definition demoArn : string :=
  "arn:aws:ecr:eu-central-1:444093529715:repository/cfn-container-image-provider-demo".

(** The [withTagAndDigest] case of [Test_handler], with the short name of the
    documentation. *)
Definition withTagAndDigest (requestType : string) : cfn.Event :=
  event requestType ""
    [("ImageReference", VString ("python:3.9@" +:+ python39Digest));
     ("RepositoryArn", VString demoArn)].

(** A request for one image reference into the demo repository. *)
Definition pull (imageReference : string) : cfn.Event :=
  event cfn.RequestCreate ""
    [("ImageReference", VString imageReference); ("RepositoryArn", VString demoArn)].

(** The same image with every platform, as in the README. *)
Definition allPlatforms : cfn.Event :=
  event cfn.RequestCreate ""
    [("ImageReference", VString "python:3.9"); ("Platform", VString "all");
     ("RepositoryArn", VString demoArn)].

(** The [IncorrectARN] case of [Test_validate]. *)
Definition incorrectArn (requestType : string) : cfn.Event :=
  event requestType ""
    [("ImageReference", VString "docker.io/library/python:3.9");
     ("RepositoryArn", VString "arn:a:ws:ecr:eu-ce:ntral-1:444093529715:repository/python")].

(** A repository name of one character. *)
Definition shortArn : cfn.Event :=
  event cfn.RequestCreate ""
    [("ImageReference", VString "python:3.9");
     ("RepositoryArn", VString "arn:aws:ecr:eu-central-1:444093529715:repository/a")].

(** A [Platform] that is a number. *)
Definition numericPlatform : cfn.Event :=
  event cfn.RequestCreate ""
    [("ImageReference", VString "python:3.9"); ("Platform", VNumber 64);
     ("RepositoryArn", VString demoArn)].

(** A [Platform] that is a list. *)
Definition listPlatform : cfn.Event :=
  event cfn.RequestUpdate ""
    [("ImageReference", VString "python:3.9");
     ("Platform", VArray [VString "linux/amd64"; VString "linux/arm64"]);
     ("RepositoryArn", VString demoArn)].

(** The deletion of what [withTagAndDigest] created. *)
Definition deleteDemo : cfn.Event :=
  event cfn.RequestDelete
    "444093529715.dkr.ecr.eu-central-1.amazonaws.com/cfn-container-image-provider-demo:3.9" [].

Definition sha256 (hex : string) : v1.Hash := {| v1.Algorithm := "sha256"; v1.Hex := hex |}.

Definition platform (os arch variant : string) : v1.Platform :=
  {| v1.Architecture := arch; v1.OS := os; v1.OSVersion := ""; v1.OSFeatures := [];
     v1.Variant := variant; v1.Features := [] |}.

Definition amd64Digest : v1.Hash :=
  sha256 "2e94e493d6d5010d739ea473e44ea40f7c6e168bcb78e0c5a48c64f06aafbf5f".
Definition armDigest : v1.Hash :=
  sha256 "5f1a3dd7a2d4e9b6f0c8a1b3c5d7e9f00112233445566778899aabbccddeeff0".
Definition arm64Digest : v1.Hash :=
  sha256 "9a0b1c2d3e4f5061728394a5b6c7d8e9f0a1b2c3d4e5f60718293a4b5c6d7e8f".
Definition attestationDigest : v1.Hash :=
  sha256 "0f1e2d3c4b5a69788796a5b4c3d2e1f00f1e2d3c4b5a69788796a5b4c3d2e1f0".

Definition entry (digest : v1.Hash) (platform : option v1.Platform) : v1.Descriptor.t :=
  {| v1.Descriptor.MediaType := remote.OCIManifestSchema1;
     v1.Descriptor.Digest := digest;
     v1.Descriptor.Platform := platform |}.

(** A multi-architecture image: an index of three platforms and one entry
    without platform. *)
Definition python39Index : remote.Descriptor :=
  {| remote.MediaType := remote.OCIImageIndex;
     remote.Digest := sha256 "3d35a404db586d00a4ee5a65fd1496fe019ed4bdc068d436a67ce5b64b8b9659";
     remote.Manifest :=
       inr {| v1.Manifests :=
                [entry amd64Digest (Some (platform "linux" "amd64" ""));
                 entry armDigest (Some (platform "linux" "arm" "v7"));
                 entry attestationDigest None;
                 entry arm64Digest (Some (platform "linux" "arm64" "v8"))] |} |}.

(** An index with an image for Windows, which names the version of the
    operating system. *)
Definition windowsDigest : v1.Hash :=
  sha256 "7c1e2a9d0b3f4c5e6a7b8c9d0e1f2a3b4c5d6e7f8091a2b3c4d5e6f708192a3b".

Definition windowsPlatform : v1.Platform :=
  {| v1.Architecture := "amd64"; v1.OS := "windows"; v1.OSVersion := "10.0.20348.2340";
     v1.OSFeatures := []; v1.Variant := ""; v1.Features := [] |}.

Definition servercoreIndex : remote.Descriptor :=
  {| remote.MediaType := remote.DockerManifestList;
     remote.Digest := sha256 "b4c5d6e7f8091a2b3c4d5e6f708192a3b7c1e2a9d0b3f4c5e6a7b8c9d0e1f2a3";
     remote.Manifest :=
       inr {| v1.Manifests :=
                [entry amd64Digest (Some (platform "linux" "amd64" ""));
                 entry windowsDigest (Some windowsPlatform)] |} |}.

(** The token is the base64 of [AWS:password]. *)
Definition tokenOutput (token : string) : ecr.GetAuthorizationTokenOutput :=
  {| ecr.AuthorizationData_ := [ {| ecr.AuthorizationToken := Some token |} ] |}.

(** The registries answer: the source is [python39Index], whose linux/amd64
    image is [amd64Digest]; pushes and deletions succeed. *)
Definition registriesUp (token : string) : World :=
  {| session_NewSessionWithOptions := None;
     ecr_GetAuthorizationToken := inr (tokenOutput token);
     remote_NewPuller := None;
     remote_NewPusher := None;
     puller_Get := fun _ _ => inr python39Index;
     descriptor_Image := fun _ => inr {| remote.Image_Digest := amd64Digest |};
     pusher_Push := fun _ _ _ => None;
     remote_Delete := fun _ _ => None |}.

(** The same registries with [servercoreIndex] for a source. *)
Definition servercoreUp : World :=
  {| session_NewSessionWithOptions := None;
     ecr_GetAuthorizationToken := inr (tokenOutput "QVdTOnBhc3N3b3Jk");
     remote_NewPuller := None;
     remote_NewPusher := None;
     puller_Get := fun _ _ => inr servercoreIndex;
     descriptor_Image := fun _ => inr {| remote.Image_Digest := amd64Digest |};
     pusher_Push := fun _ _ _ => None;
     remote_Delete := fun _ _ => None |}.

(** No session: the configuration of the SDK cannot be loaded. *)
Definition noSession : World :=
  {| session_NewSessionWithOptions := Some "failed to load shared config";
     ecr_GetAuthorizationToken := inr (tokenOutput "QVdTOnBhc3N3b3Jk");
     remote_NewPuller := None;
     remote_NewPusher := None;
     puller_Get := fun _ _ => inr python39Index;
     descriptor_Image := fun _ => inr {| remote.Image_Digest := amd64Digest |};
     pusher_Push := fun _ _ _ => None;
     remote_Delete := fun _ _ => None |}.

(** An image of one platform, not an index. *)
Definition python37Image : remote.Descriptor :=
  {| remote.MediaType := remote.DockerManifestSchema2;
     remote.Digest := amd64Digest;
     remote.Manifest := inl "unexpected media type" |}.

(** The source is [python37Image]; pushes and deletions succeed. *)
Definition singleImage : World :=
  {| session_NewSessionWithOptions := None;
     ecr_GetAuthorizationToken := inr (tokenOutput "QVdTOnBhc3N3b3Jk");
     remote_NewPuller := None;
     remote_NewPusher := None;
     puller_Get := fun _ _ => inr python37Image;
     descriptor_Image := fun _ => inr {| remote.Image_Digest := amd64Digest |};
     pusher_Push := fun _ _ _ => None;
     remote_Delete := fun _ _ => None |}.

(** The ECR API does not answer, and neither do the registries. *)
Definition offline : World :=
  {| session_NewSessionWithOptions := None;
     ecr_GetAuthorizationToken := inl "RequestError: send request failed";
     remote_NewPuller := None;
     remote_NewPusher := None;
     puller_Get := fun _ _ => inl "dial tcp: i/o timeout";
     descriptor_Image := fun _ => inl "dial tcp: i/o timeout";
     pusher_Push := fun _ _ _ => Some "dial tcp: i/o timeout";
     remote_Delete := fun _ _ => Some "dial tcp: i/o timeout" |}.

(** Credentials are issued, the source answers, the push is refused and so is
    the deletion. *)
Definition pushDenied : World :=
  {| session_NewSessionWithOptions := None;
     ecr_GetAuthorizationToken := inr (tokenOutput "QVdTOnBhc3N3b3Jk");
     remote_NewPuller := None;
     remote_NewPusher := None;
     puller_Get := fun _ _ => inr python39Index;
     descriptor_Image := fun _ => inr {| remote.Image_Digest := amd64Digest |};
     pusher_Push := fun _ _ _ => Some "DENIED: access denied";
     remote_Delete := fun _ _ => Some "DENIED: access denied" |}.

(** A case of [Test_validate]: the properties of the event, and what the
    table lists of the result, [Source] and [Target] as [mustParse] gives
    them. *)
Definition validated (properties : list (string * Value))
    : result (result name.Reference * result name.Reference * list string) :=
  match validate (event "" "" properties) with
  | inl e => inl e
  | inr p =>
      inr (inr (Source p), inr (Target p),
           [Region p; AccountID p; RepositoryName p; SourceTag p; SourceDigest p; SourceName p])
  end.

Definition pythonArn : string := "arn:aws:ecr:eu-central-1:444093529715:repository/python".

End examples.

(** ** Notions used to state the properties *)

Module notions.
Import handler.

(** The event with one property set, and with one property removed. *)
Definition withProperty (event : cfn.Event) (key : string) (v : Value) : cfn.Event :=
  {| cfn.RequestType := cfn.RequestType event;
     cfn.ResourceType := cfn.ResourceType event;
     cfn.PhysicalResourceID := cfn.PhysicalResourceID event;
     cfn.ResourceProperties := <[key := v]> (cfn.ResourceProperties event) |}.

Definition withoutProperty (event : cfn.Event) (key : string) : cfn.Event :=
  {| cfn.RequestType := cfn.RequestType event;
     cfn.ResourceType := cfn.ResourceType event;
     cfn.PhysicalResourceID := cfn.PhysicalResourceID event;
     cfn.ResourceProperties := base.delete key (cfn.ResourceProperties event) |}.

(** The platform of the first release. *)
Definition linuxAmd64 : v1.Platform :=
  {| v1.Architecture := "amd64"; v1.OS := "linux"; v1.OSVersion := "";
     v1.OSFeatures := []; v1.Variant := ""; v1.Features := [] |}.

(** The platform string in the words of the specification: os/arch, and
    /variant when there is a variant. *)
Definition osArchVariant (platform : v1.Platform) : string :=
  v1.OS platform +:+ "/" +:+ v1.Architecture platform
  +:+ (if decide (v1.Variant platform = "") then "" else "/" +:+ v1.Variant platform).

Section notions.
Context {T : Types} {P : Packages}.

(** The platform [validate] selects; [None] copies every platform. *)
Definition selectedPlatform (event : cfn.Event) : result (option v1.Platform) :=
  match as_string (cfn.ResourceProperties event !! "Platform") with
  | Some platform =>
      if decide (strings_TrimSpace (strings_ToLower platform) = "all") then inr None
      else match v1_ParsePlatform platform with
           | inl e => inl ("invalid Platform format, " +:+ e)
           | inr p => inr (Some p)
           end
  | None => inr (Some linuxAmd64)
  end.

(** [validate] in two halves: the source, from [ImageReference] alone, and
    then the target and the platform. [validate_halves] below shows that
    [validate] is the one followed by the other. *)
Definition resolveSource (event : cfn.Event) : result (name_Reference * string * string * string) :=
  ref <~ match as_string (cfn.ResourceProperties event !! "ImageReference") with
         | Some ref => inr ref
         | None => inl "ImageReference is missing or not a string"
         end ;;
  imageReference <~ wrapErr (reference_Parse ref) (fun err => ref +:+ ": " +:+ err) ;;
  source <~ name_ParseReference (reference_FamiliarString imageReference) ;;
  let parts := regexp.FindStringSubmatch reference_ReferenceRegexp (reference_String imageReference) in
  if decide (length parts = 0) then
    inl ("reference.ReferenceRegexp failed to match " +:+ reference_String imageReference)
  else
  let sourceDigest := at_index parts 3 in
  let sourceTag := at_index parts 2 in
  let sourceName := at_index parts 1 in
  let sourceTag := if decide (sourceDigest = "" ∧ sourceTag = "") then "latest" else sourceTag in
  source <~ (if decide (sourceDigest ≠ "") then
               digestReference <~ wrapErr (reference_Parse (sourceName +:+ "@" +:+ sourceDigest))
                 (fun err => "failed to turn source reference into a digest reference "
                             +:+ sourceName +:+ "@" +:+ sourceDigest +:+ ", " +:+ err) ;;
               wrapErr (name_ParseReference (reference_FamiliarString digestReference))
                 (fun err => "failed to turn source reference into a digest reference "
                             +:+ reference_String digestReference +:+ ", " +:+ err)
             else inr source) ;;
  inr (source, sourceTag, sourceDigest, sourceName).

Definition resolveTarget (event : cfn.Event) (src : name_Reference * string * string * string)
    : result resourceProperties :=
  let '(source, sourceTag, sourceDigest, sourceName) := src in
  arn <~ match as_string (cfn.ResourceProperties event !! "RepositoryArn") with
         | Some arn => inr arn
         | None => inl "RepositoryArn is missing or not a string"
         end ;;
  let matches := regexp.FindStringSubmatch ecrRepositoryArnPattern arn in
  if decide (length matches ≠ 4) then inl ("Invalid AWS ECR repository ARN: " +:+ arn) else
  let region := at_index matches 1 in
  let accountID := at_index matches 2 in
  let repositoryName := at_index matches 3 in
  target <~ name_ParseReference (targetReference accountID region repositoryName sourceTag sourceDigest) ;;
  platform <~ match as_string (cfn.ResourceProperties event !! "Platform") with
              | Some platform =>
                  if decide (strings_TrimSpace (strings_ToLower platform) = "all") then inr None
                  else p <~ wrapErr (v1_ParsePlatform platform)
                              (fun err => "invalid Platform format, " +:+ err) ;;
                       inr (Some p)
              | None => inr (Some linuxAmd64)
              end ;;
  inr {| Source := source; SourceTag := sourceTag; SourceDigest := sourceDigest;
         SourceName := sourceName; Platform := platform; Target := target;
         Region := region; AccountID := accountID; RepositoryName := repositoryName |}.

(** The properties with another platform. *)
Definition withPlatform (properties : resourceProperties) (platform : option v1.Platform)
    : resourceProperties :=
  {| Source := Source properties; SourceTag := SourceTag properties;
     SourceDigest := SourceDigest properties; SourceName := SourceName properties;
     Platform := platform; Target := Target properties;
     Region := Region properties; AccountID := AccountID properties;
     RepositoryName := RepositoryName properties |}.

(** The attributes [create] returns for the validated properties and the
    fetched descriptor. *)
Definition createData (properties : resourceProperties) (descriptor : remote_Descriptor)
    : gmap string Value :=
  <["Digest" := VString (v1.Hash_String (remote_Descriptor_Digest descriptor))]>
  (<["ImageReference" := VString (name_String (Target properties))]>
  (<["Platforms" := VStrings match Platform properties with
                             | Some platform => [v1_Platform_String platform]
                             | None => getPlatforms descriptor
                             end]> ∅)).

(** What [create] pushes for a platform selection: the fetched descriptor, or
    the image the descriptor resolves to. *)
Definition pushedAs (W : World) (platform : option v1.Platform) (descriptor : remote_Descriptor)
    (pushed : Taggable) : Prop :=
  match platform with
  | None => pushed = TDescriptor descriptor
  | Some _ => ∃ image, descriptor_Image W descriptor = inr image ∧ pushed = TImage image
  end.

End notions.
End notions.

(** ** Shapes of regular expressions *)

Module shapes.
Import regexp.

(** [r] has no capture group. *)
Fixpoint captureless (r : Regexp) : bool :=
  match r with
  | Concat r1 r2 | Alternate r1 r2 => captureless r1 && captureless r2
  | Star r1 => captureless r1
  | Capture _ _ => false
  | _ => true
  end.

(** [r] matches no empty text. *)
Fixpoint nonempty (r : Regexp) : bool :=
  match r with
  | Literal l => match l with [] => false | _ => true end
  | CharClass _ => true
  | Concat r1 r2 => nonempty r1 || nonempty r2
  | Alternate r1 r2 => nonempty r1 && nonempty r2
  | Capture _ r1 => nonempty r1
  | _ => false
  end.

(** [r] matches only texts of characters that satisfy [ok]; a class is
    checked on all 256 characters. *)
Fixpoint within (ok : ascii → bool) (r : Regexp) : bool :=
  match r with
  | Literal l => forallb ok l
  | CharClass ranges =>
      forallb (fun n => implb (in_class ranges (ascii_of_nat n)) (ok (ascii_of_nat n)))
              (seq 0 256)
  | Concat r1 r2 | Alternate r1 r2 => within ok r1 && within ok r2
  | Star r1 | Capture _ r1 => within ok r1
  | _ => true
  end.

(** The characters of a tag: letters, digits, underscore, period, hyphen. *)
Definition tagChar (a : ascii) : bool :=
  in_class [model.d09; model.AZ; model.az; model.chr "_"; model.chr "."; model.chr "-"] a.

(** The characters of the three groups of the repository ARN pattern. *)
Definition regionChar (a : ascii) : bool :=
  in_class [handler.az; handler.digit; handler.chr "-"] a.
Definition digitChar (a : ascii) : bool := in_class [handler.digit] a.
Definition repositoryChar (a : ascii) : bool :=
  in_class [handler.az; handler.digit; handler.chr "-"; handler.chr "_"; handler.chr "/";
            handler.chr "."] a.

End shapes.

(** ** Notions of the further properties *)

Module tokens.

(** The number of colons of a text. *)
Definition colons (s : string) : nat := count_occ Ascii.ascii_dec (chars s) ":"%char.

End tokens.

(** The calls among the effects of an invocation, and their kinds. *)
Module traces.
Section traces.
Context {T : Types}.

Definition calls (t : list Effect) : list Call :=
  omap (fun e => match e with Net c => Some c | Log _ => None end) t.

Definition isToken (c : Call) : bool :=
  match c with GetAuthorizationToken => true | _ => false end.
Definition isFetch (c : Call) : bool :=
  match c with PullerGet _ _ => true | _ => false end.
Definition isPush (c : Call) : bool :=
  match c with PusherPush _ _ _ => true | _ => false end.
Definition isDelete (c : Call) : bool :=
  match c with RemoteDelete _ _ => true | _ => false end.

(** The call is a push that the registry has accepted. *)
Definition accepted (W : World) (c : Call) : Prop :=
  match c with
  | PusherPush target t auth => pusher_Push W target t auth = None
  | _ => False
  end.

End traces.
End traces.

(** Further events and worlds. *)
Module cases.
Import handler examples.

(** The event with another request type. *)
Definition withRequestType (event : cfn.Event) (requestType : string) : cfn.Event :=
  {| cfn.RequestType := requestType;
     cfn.ResourceType := cfn.ResourceType event;
     cfn.PhysicalResourceID := cfn.PhysicalResourceID event;
     cfn.ResourceProperties := cfn.ResourceProperties event |}.

(** The Delete request for the resource of [event] under a physical
    resource id. *)
Definition deletionOf (event : cfn.Event) (physicalResourceID : string) : cfn.Event :=
  {| cfn.RequestType := cfn.RequestDelete;
     cfn.ResourceType := cfn.ResourceType event;
     cfn.PhysicalResourceID := physicalResourceID;
     cfn.ResourceProperties := cfn.ResourceProperties event |}.

(** A resource of another provider. *)
Definition otherResource : cfn.Event :=
  {| cfn.RequestType := cfn.RequestCreate;
     cfn.ResourceType := "Custom::Secret";
     cfn.PhysicalResourceID := "";
     cfn.ResourceProperties := ∅ |}.

(** Credentials are issued, and the source registry does not answer. *)
Definition sourceDown : World :=
  {| session_NewSessionWithOptions := None;
     ecr_GetAuthorizationToken := inr (tokenOutput "QVdTOnBhc3N3b3Jk");
     remote_NewPuller := None;
     remote_NewPusher := None;
     puller_Get := fun _ _ => inl "MANIFEST_UNKNOWN: manifest unknown";
     descriptor_Image := fun _ => inr {| remote.Image_Digest := amd64Digest |};
     pusher_Push := fun _ _ _ => None;
     remote_Delete := fun _ _ => None |}.

(** The credentials of the token of these worlds. *)
Definition awsPassword : authn.Basic := {| authn.Username := "AWS"; authn.Password := "password" |}.

End cases.

(** Expressions whose stars make progress, and the ARN of a repository. *)
Module arns.
Import regexp shapes.

(** Every star of [r] iterates an expression that matches no empty text. *)
Fixpoint progressive (r : Regexp) : bool :=
  match r with
  | Concat r1 r2 | Alternate r1 r2 => progressive r1 && progressive r2
  | Star r1 => nonempty r1 && progressive r1
  | Capture _ r1 => progressive r1
  | _ => true
  end.

(** The ARN of the repository [repositoryName] of an account in a region. *)
Definition repositoryArn (region accountID repositoryName : string) : string :=
  "arn:aws:ecr:" +:+ region +:+ ":" +:+ accountID +:+ ":repository/" +:+ repositoryName.

(** [[a-z]] *)
Definition lowerChar (a : ascii) : bool := in_class [handler.az] a.

(** The three parts as the pattern wants them: a region of lowercase
    letters, digits and hyphens, an account of digits, both non-empty, and a
    repository name of a lowercase letter and at least one more character
    among lowercase letters, digits, hyphens, underscores, slashes and
    periods. *)
Definition partsOk (t1 t2 : list ascii) (a : ascii) (t3 : list ascii) : Prop :=
  t1 ≠ [] ∧ Forall (fun a => regionChar a = true) t1 ∧
  t2 ≠ [] ∧ Forall (fun a => digitChar a = true) t2 ∧
  lowerChar a = true ∧
  t3 ≠ [] ∧ Forall (fun a => repositoryChar a = true) t3.

Definition wellFormed (region accountID repositoryName : string) : bool :=
  negb (String.eqb region "") && forallb regionChar (chars region) &&
  negb (String.eqb accountID "") && forallb digitChar (chars accountID) &&
  match chars repositoryName with
  | a :: b :: rest => lowerChar a && forallb repositoryChar (b :: rest)
  | _ => false
  end.

End arns.

(** ** The first release of the handler

    [handler.go] before [Platform] was supported reported the progress of
    the pull and of the push. *)

Module first_release.

(** [int64]: the integers from [-2^63] to [2^63 - 1]; arithmetic wraps
    around, and division truncates towards zero. *)
Definition int64 (z : Z) : Z := ((z + 2 ^ 63) `mod` 2 ^ 64 - 2 ^ 63)%Z.
Definition mul64 (x y : Z) : Z := int64 (x * y).
Definition div64 (x y : Z) : Z := int64 (x `quot` y).

(** [v1.Update] of [github.com/google/go-containerregistry/pkg/v1] *)
Record Update : Type := {
  Total : Z;
  Complete : Z;
  Error : option error
}.

(** [%d] of an [int64] *)
Definition FormatInt (z : Z) : string := NilZero.string_of_int (Z.to_int z).

(** The line feed that ends the format of the percentage line. *)
Definition newline : string := String (ascii_of_nat 10) "".

(** The two lines [reportProgress] hands to [log.Printf]. *)
Definition percentageLine (action : string) (percentage : Z) : string :=
  action +:+ ": " +:+ FormatInt percentage +:+ "%" +:+ newline.
Definition failedLine (action : string) (e : error) : string :=
  action +:+ " failed: " +:+ e.

(** [percentage] after the [if p.Total != 0]: zero when nothing is known of
    the total. *)
Definition percentageOf (p : Update) : Z :=
  if decide (Total p ≠ 0%Z) then div64 (mul64 (Complete p) 100) (Total p) else 0%Z.

(** The body of the loop over the channel: the lines logged for the updates
    received until the channel is closed, from [previousPercentage] on. *)
Fixpoint progressLoop (action : string) (previousPercentage : Z) (progress : list Update)
    : list string :=
  match progress with
  | [] => []
  | p :: progress' =>
      let percentage := percentageOf p in
      (if decide (previousPercentage ≠ percentage) then [percentageLine action percentage] else [])
      ++ match Error p with
         | Some e => [failedLine action e]
         | None => []
         end
      ++ progressLoop action
           (if decide (previousPercentage ≠ percentage) then percentage else previousPercentage)
           progress'
  end.

(** [reportProgress(action)(progress)]: [previousPercentage] starts at zero. *)
Definition reportProgress (action : string) (progress : list Update) : list string :=
  progressLoop action 0 progress.

(** The percentages of the percentage lines, in order. *)
Fixpoint percentages (previousPercentage : Z) (progress : list Update) : list Z :=
  match progress with
  | [] => []
  | p :: progress' =>
      if decide (previousPercentage ≠ percentageOf p)
      then percentageOf p :: percentages (percentageOf p) progress'
      else percentages previousPercentage progress'
  end.

(** Integers in increasing order, and in an order that never decreases. *)
Fixpoint increasing (l : list Z) : Prop :=
  match l with
  | [] => True
  | x :: l' => Forall (fun y => (x < y)%Z) l' ∧ increasing l'
  end.

Fixpoint nondecreasing (l : list Z) : Prop :=
  match l with
  | [] => True
  | x :: l' => Forall (fun y => (x <= y)%Z) l' ∧ nondecreasing l'
  end.

(** A transfer of [total] bytes that goes forward and reports no error. *)
Definition steady (total : Z) (progress : list Update) : Prop :=
  Forall (fun p => Total p = total ∧ (0 <= Complete p <= total)%Z ∧ Error p = None) progress ∧
  nondecreasing (map Complete progress).

(** A transfer of 200 bytes in four updates. *)
Definition transfer : list Update :=
  [ {| Total := 200; Complete := 0; Error := None |};
    {| Total := 200; Complete := 50; Error := None |};
    {| Total := 200; Complete := 51; Error := None |};
    {| Total := 200; Complete := 200; Error := None |} ].

End first_release.

(** ** Strings *)

Module go_facts.

Lemma chars_app s1 s2 : chars (s1 +:+ s2) = chars s1 ++ chars s2.
Proof. induction s1 as [|a s1 IH]; simpl; [done|]. by rewrite <- IH. Qed.

Lemma append_empty_r s : s +:+ "" = s.
Proof.
  induction s as [|a s IH]; [done|].
  change (String a (s +:+ "") = String a s). by rewrite IH.
Qed.

Lemma append_assoc s1 s2 s3 : (s1 +:+ s2) +:+ s3 = s1 +:+ (s2 +:+ s3).
Proof.
  induction s1 as [|a s1 IH]; [done|].
  change (String a ((s1 +:+ s2) +:+ s3) = String a (s1 +:+ (s2 +:+ s3))). by rewrite IH.
Qed.

End go_facts.

(** ** The matcher is sound *)

Module regexp_facts.
Import regexp go_facts.

Lemma strip_prefix_Some p : ∀ s s', strip_prefix p s = Some s' → s = p ++ s'.
Proof.
  induction p as [|a p IH]; intros s s' H; simpl in H.
  - by inversion H.
  - destruct s as [|b s]; [done|].
    unfold ascii_eqb in H. destruct (Ascii.eqb_spec a b) as [->|]; [|done].
    simpl. f_equal. by apply IH.
Qed.

(** A successful run has matched [r] and then satisfied its continuation. *)
Lemma run_sound r : ∀ w s c k res,
  run r w s c k = Some res →
  ∃ s' c', Match w r (s, c) (s', c') ∧ k s' c' = Some res.
Proof.
  induction r as [| l | ranges | r1 IH1 r2 IH2 | r1 IH1 r2 IH2 | r1 IH1 | i r1 IH1 | |];
    intros w s c k res H; simpl in H.
  - by exists s, c.
  - destruct (strip_prefix l s) as [s'|] eqn:E; [|done].
    exists s', c. split; [|done]. split; [|done]. by apply strip_prefix_Some.
  - destruct s as [|a s']; [done|].
    destruct (in_class ranges a) eqn:E; [|done].
    exists s', c. split; [|done]. by exists a.
  - apply IH1 in H as (s1 & c1 & M1 & H).
    apply IH2 in H as (s2 & c2 & M2 & H).
    exists s2, c2. split; [|done]. by exists (s1, c1).
  - destruct (run r1 w s c k) as [res'|] eqn:E.
    + inversion H; subst res'. apply IH1 in E as (s' & c' & M & K).
      exists s', c'. split; [by left|done].
    + apply IH2 in H as (s' & c' & M & K).
      exists s', c'. split; [by right|done].
  - remember (length s) as n eqn:Hn. clear Hn.
    revert s c H. induction n as [|n IHn]; intros s c H.
    + exists s, c. split; [apply rtc_refl|done].
    + match type of H with
      | match ?x with _ => _ end = _ => destruct x as [res'|] eqn:E
      end.
      * inversion H; subst res'.
        apply IH1 in E as (s1 & c1 & M1 & K).
        destruct (length s1 <? length s)%nat; [|done].
        apply IHn in K as (s2 & c2 & M2 & K).
        exists s2, c2. split; [|done].
        simpl. by eapply rtc_l.
      * exists s, c. split; [apply rtc_refl|done].
  - apply IH1 in H as (s' & c' & M & K).
    exists s', (<[i := consumed s s']> c'). split; [|done].
    by exists c'.
  - destruct (length s =? length w)%nat eqn:E; [|done].
    exists s, c. split; [|done]. split; [done|]. by apply Nat.eqb_eq.
  - destruct s; [|done]. by exists [], c.
Qed.

(** A match found by the search starts at some offset of the input. *)
Lemma search_Some re w : ∀ s c,
  search re w s = Some c →
  ∃ p s0 y, s = p ++ s0 ∧ Match w re (s0, replicate (S (NumSubexp re)) []) y.
Proof.
  induction s as [|a s IH]; intros c H; simpl in H.
  - destruct (run re w [] _ _) eqn:E; [|done].
    apply run_sound in E as (s' & c' & M & _). by exists [], [], (s', c').
  - destruct (run re w (a :: s) _ _) eqn:E.
    + apply run_sound in E as (s' & c' & M & _). by exists [], (a :: s), (s', c').
    + apply IH in H as (p & s0 & y & -> & M). by exists (a :: p), s0, y.
Qed.

(** The submatches [FindStringSubmatch] returns are those of a match of the
    whole expression at some offset, with the matched text in front. *)
Lemma search_submatches re w : ∀ s c,
  search re w s = Some c →
  ∃ p s0 s' c', s = p ++ s0 ∧
    Match w re (s0, replicate (S (NumSubexp re)) []) (s', c') ∧
    c = <[0 := consumed s0 s']> c'.
Proof.
  induction s as [|a s IH]; intros c H; simpl in H.
  - destruct (run re w [] _ _) eqn:E; [|done].
    apply run_sound in E as (s' & c' & M & K). exists [], [], s', c'. by simplify_eq.
  - destruct (run re w (a :: s) _ _) eqn:E.
    + apply run_sound in E as (s' & c' & M & K). exists [], (a :: s), s', c'. by simplify_eq.
    + apply IH in H as (p & s0 & s' & c' & -> & M & ->). by exists (a :: p), s0, s', c'.
Qed.

(** Without a match at any offset, [FindStringSubmatch] returns nil. *)
Lemma FindStringSubmatch_nil re s :
  (∀ p s0 y, chars s = p ++ s0 → ¬ Match (chars s) re (s0, replicate (S (NumSubexp re)) []) y) →
  FindStringSubmatch re s = [].
Proof.
  intros H. unfold FindStringSubmatch.
  destruct (search re (chars s) (chars s)) eqn:E; [|done].
  apply search_Some in E as (p & s0 & y & Hs & M). by destruct (H p s0 y).
Qed.

(** What [x+] over a character class consumes. *)
Lemma Match_Star_CharClass w ranges x y :
  rtc (Match w (CharClass ranges)) x y →
  ∃ t, x.1 = t ++ y.1 ∧ Forall (fun a => in_class ranges a = true) t ∧ x.2 = y.2.
Proof.
  induction 1 as [x|x z y (a & Hx & Ha & Hc) _ (t & Ht & Hall & Hc')].
  - by exists [].
  - exists (a :: t). rewrite Hx, Ht, Hc. by repeat constructor.
Qed.

Lemma Match_Plus_CharClass w ranges x y :
  Match w (Plus (CharClass ranges)) x y →
  ∃ a t, x.1 = a :: t ++ y.1 ∧ Forall (fun a => in_class ranges a = true) (a :: t) ∧ x.2 = y.2.
Proof.
  intros (z & (a & Hx & Ha & Hc) & Hstar).
  apply Match_Star_CharClass in Hstar as (t & Ht & Hall & Hc').
  exists a, t. rewrite Hx, Ht, Hc. by repeat constructor.
Qed.

End regexp_facts.

(** The matcher is not unfolded by simplification from here on. *)
#[local] Arguments regexp.run : simpl never.
#[local] Arguments regexp.search : simpl never.
#[local] Arguments regexp.FindStringSubmatch : simpl never.

(** ** The repository ARN pattern *)

Module arn_facts.
Import regexp go_facts regexp_facts handler.

(** A text without colon that is followed by a slash cannot lie over a text
    without slash that is followed by a colon. *)
Lemma no_overlap (t : list ascii) : ∀ g r1 r2,
  g ++ "/"%char :: r1 = t ++ ":"%char :: r2 →
  Forall (fun a => a ≠ ":"%char) g → Forall (fun a => a ≠ "/"%char) t → False.
Proof.
  induction t as [|b t IH]; intros g r1 r2 E Hg Ht; destruct g as [|a g]; simplify_eq/=.
  - by inversion Hg.
  - by inversion Ht.
  - inversion Hg; inversion Ht; subst. by eapply IH.
Qed.

(** What a match of the pattern says about the input: the repository name
    has at least two characters, none of them a colon, and follows
    [:repository/]. *)
Lemma ecrRepositoryArnPattern_Match w s c y :
  Match w ecrRepositoryArnPattern (s, c) y →
  ∃ x g0 g1 g,
    s = x ++ chars ":repository/" ++ g0 :: g1 :: g ∧
    Forall (fun a => a ≠ ":"%char) (g0 :: g1 :: g).
Proof.
  unfold ecrRepositoryArnPattern. cbn [Seq Match].
  intros (z1 & [E1 _] & z2 & [Hl1 _] & z3 & (c3 & M3 & _) & z4 & [Hl4 _] & z5 & (c5 & M5 & _)
          & z6 & [Hl6 _] & z7 & (c7 & (z8 & (g0 & Hg0 & Hin0 & _) & M8) & _) & [E9 Hend]).
  apply Match_Plus_CharClass in M3 as (a3 & t3 & Ht3 & _ & _).
  apply Match_Plus_CharClass in M5 as (a5 & t5 & Ht5 & _ & _).
  apply Match_Plus_CharClass in M8 as (g1 & g & Hg & Hall & _).
  subst z1. simpl in *.
  exists (chars "arn:aws:ecr:" ++ a3 :: t3 ++ chars ":" ++ a5 :: t5), g0, g1, g.
  split.
  - rewrite Hl1, Ht3, Hl4, Ht5, Hl6, Hg0, Hg, Hend. simpl. by rewrite <- !app_assoc, app_nil_r.
  - constructor.
    + intros ->. by vm_compute in Hin0.
    + eapply Forall_impl; [exact Hall|]. intros a Ha ->. by vm_compute in Ha.
Qed.

(** No ARN whose repository name is one character matches the pattern. *)
Lemma ecrRepositoryArnPattern_single pre (c : ascii) :
  FindStringSubmatch ecrRepositoryArnPattern (pre +:+ ":repository/" +:+ String c "") = [].
Proof.
  apply FindStringSubmatch_nil. intros p s0 y Hs M.
  apply ecrRepositoryArnPattern_Match in M as (x & g0 & g1 & g & -> & Hall).
  rewrite !chars_app in Hs. cbn [chars list_ascii_of_string] in Hs.
  apply (f_equal (@rev ascii)) in Hs.
  rewrite !rev_app_distr in Hs. cbn [rev app] in Hs.
  rewrite <- !app_assoc in Hs. cbn [app] in Hs.
  inversion Hall as [|? ? Hg0 Hall1]; inversion Hall1 as [|? ? Hg1 Hg]; subst.
  destruct (rev g) as [|b rg] eqn:Erg; [by simplify_eq/=|].
  assert (Hrg : Forall (fun a => a ≠ ":"%char) (b :: rg)).
  { rewrite <- Erg. by apply Forall_rev. }
  simpl in Hs. injection Hs as _ Hs.
  destruct rg as [|b' rg]; [by simplify_eq/=|].
  simpl in Hs. injection Hs as _ Hs.
  inversion Hrg as [|? ? _ Hrg']; inversion Hrg' as [|? ? _ Hrg'']; subst.
  eapply (no_overlap (chars "yrotisoper") (rg ++ [g1; g0])).
  - rewrite <- app_assoc. simpl. symmetry. exact Hs.
  - apply Forall_app. split; [done|]. by repeat constructor.
  - by repeat constructor.
Qed.

End arn_facts.

(** ** Submatches *)

Module submatch_facts.
Import regexp shapes go_facts regexp_facts.

Lemma consumed_app (t s : list ascii) : consumed (t ++ s) s = t.
Proof.
  unfold consumed. rewrite length_app.
  replace (length t + length s - length s) with (length t) by lia.
  by rewrite take_app_length.
Qed.

Lemma consumed_all (s : list ascii) : consumed s [] = s.
Proof. rewrite <- (app_nil_r s) at 1. apply consumed_app. Qed.

(** A match consumes a prefix of the input. *)
Lemma Match_consumes w r : ∀ x y, Match w r x y → ∃ t, x.1 = t ++ y.1.
Proof.
  induction r as [| l | ranges | r1 IH1 r2 IH2 | r1 IH1 r2 IH2 | r1 IH1 | i r1 IH1 | |];
    intros x y; simpl.
  - intros ->. by exists [].
  - intros [-> _]. by exists l.
  - intros (a & -> & _). by exists [a].
  - intros (z & M1 & M2). apply IH1 in M1 as (t1 & ->). apply IH2 in M2 as (t2 & ->).
    exists (t1 ++ t2). by rewrite app_assoc.
  - intros [M|M]; eauto.
  - induction 1 as [x|x z y M _ (t & Ht)]; [by exists []|].
    apply IH1 in M as (t1 & ->). exists (t1 ++ t). by rewrite Ht, app_assoc.
  - intros (c & M & _). by apply IH1 in M.
  - intros [-> _]. by exists [].
  - intros [-> _]. by exists [].
Qed.

(** Without a capture group the submatches stay as they are. *)
Lemma Match_captureless w r : captureless r = true → ∀ x y, Match w r x y → x.2 = y.2.
Proof.
  induction r as [| l | ranges | r1 IH1 r2 IH2 | r1 IH1 r2 IH2 | r1 IH1 | i r1 IH1 | |];
    simpl; intros Hc x y.
  - by intros ->.
  - by intros [_ ?].
  - by intros (a & _ & _ & ?).
  - apply andb_prop in Hc as [H1 H2]. intros (z & M1 & M2).
    rewrite (IH1 H1 _ _ M1). by apply IH2.
  - apply andb_prop in Hc as [H1 H2]. intros [M|M]; eauto.
  - induction 1 as [x|x z y M _ IH]; [done|]. rewrite <- IH. by apply IH1.
  - done.
  - by intros [-> _].
  - by intros [-> _].
Qed.

(** A regular expression that cannot match the empty text consumes
    something. *)
Lemma Match_nonempty w r : nonempty r = true → ∀ x y t, Match w r x y → x.1 = t ++ y.1 → t ≠ [].
Proof.
  induction r as [| l | ranges | r1 IH1 r2 IH2 | r1 IH1 r2 IH2 | r1 IH1 | i r1 IH1 | |];
    simpl; intros Hn x y t; try done.
  - intros [Hx _] Ht ->. rewrite Hx in Ht. simpl in Ht.
    apply (f_equal length) in Ht. rewrite length_app in Ht. destruct l; [done|]. simpl in Ht. lia.
  - intros (a & Hx & _) Ht ->. rewrite Hx in Ht. simpl in Ht.
    apply (f_equal length) in Ht. simpl in Ht. lia.
  - intros (z & M1 & M2) Ht ->. simpl in Ht.
    destruct (Match_consumes _ _ _ _ M1) as (t1 & H1).
    destruct (Match_consumes _ _ _ _ M2) as (t2 & H2).
    assert (t1 = [] ∧ t2 = []) as [-> ->].
    { rewrite H1, H2 in Ht. apply (f_equal length) in Ht. rewrite !length_app in Ht.
      split; apply length_zero_iff_nil; lia. }
    apply orb_prop in Hn as [Hn|Hn].
    + by apply (IH1 Hn _ _ [] M1).
    + by apply (IH2 Hn _ _ [] M2).
  - apply andb_prop in Hn as [H1 H2]. intros [M|M]; eauto.
  - intros (c & M & _) Ht. by apply (IH1 Hn _ _ t M).
Qed.

Lemma Match_within ok w r :
  within ok r = true →
  ∀ x y, Match w r x y → ∃ t, x.1 = t ++ y.1 ∧ Forall (fun a => ok a = true) t.
Proof.
  induction r as [| l | ranges | r1 IH1 r2 IH2 | r1 IH1 r2 IH2 | r1 IH1 | i r1 IH1 | |];
    cbn [within Match]; intros Hw x y.
  - intros ->. by exists [].
  - intros [-> _]. exists l. split; [done|].
    apply Forall_forall. intros a Ha. rewrite forallb_forall in Hw. apply Hw.
    by apply list_elem_of_In.
  - intros (a & -> & Ha & _). exists [a]. split; [done|]. constructor; [|done].
    rewrite forallb_forall in Hw. specialize (Hw (nat_of_ascii a)).
    rewrite ascii_nat_embedding, Ha in Hw. apply Hw.
    apply in_seq. pose proof (nat_ascii_bounded a). lia.
  - apply andb_prop in Hw as [H1 H2]. intros (z & M1 & M2).
    apply (IH1 H1) in M1 as (t1 & -> & F1). apply (IH2 H2) in M2 as (t2 & -> & F2).
    exists (t1 ++ t2). split; [by rewrite app_assoc|]. by apply Forall_app.
  - apply andb_prop in Hw as [H1 H2]. intros [M|M]; eauto.
  - induction 1 as [x|x z y M _ (t & Ht & F)]; [by exists []|].
    apply (IH1 Hw) in M as (t1 & -> & F1). exists (t1 ++ t).
    split; [by rewrite Ht, app_assoc|]. by apply Forall_app.
  - intros (c & M & _). by apply (IH1 Hw) in M.
  - intros [-> _]. by exists [].
  - intros [-> _]. by exists [].
Qed.

Lemma within_Concat ok r1 r2 :
  within ok r1 = true → within ok r2 = true → within ok (Concat r1 r2) = true.
Proof. intros H1 H2. cbn [within]. by rewrite H1, H2. Qed.

Lemma within_Times ok n r : within ok r = true → within ok (Times n r) = true.
Proof. intros H. induction n as [|n IH]; [done|]. cbn [Times within]. by rewrite H, IH. Qed.

Lemma within_UpTo ok n r : within ok r = true → within ok (UpTo n r) = true.
Proof.
  intros H. induction n as [|n IH]; [done|].
  change (within ok (Alternate (Concat r (UpTo n r)) EmptyMatch) = true).
  cbn [within]. by rewrite H, IH.
Qed.

(** A capture group around an expression without groups records the text it
    consumes. *)
Lemma Match_Capture w i r x y :
  captureless r = true →
  Match w (Capture i r) x y →
  ∃ t, x.1 = t ++ y.1 ∧ y.2 = <[i := t]> x.2 ∧ Match w r x (y.1, x.2).
Proof.
  intros Hc (c & M & Hy).
  destruct (Match_consumes _ _ _ _ M) as (t & Ht). simpl in Ht.
  pose proof (Match_captureless _ _ Hc _ _ M) as Hcc. simpl in Hcc. subst c.
  exists t. by rewrite Hy, Ht, consumed_app.
Qed.

(** The text a match consumes is determined by the inputs around it. *)
Lemma Match_text w r x y t :
  Match w r x y → x.1 = t ++ y.1 → ∀ t', x.1 = t' ++ y.1 → t' = t.
Proof. intros _ Ht t' Ht'. rewrite Ht in Ht'. by apply app_inv_tail in Ht'. Qed.

Lemma str_chars s : str (chars s) = s.
Proof. apply string_of_list_ascii_of_string. Qed.

Lemma chars_str l : chars (str l) = l.
Proof. apply list_ascii_of_string_of_list_ascii. Qed.

Lemma str_app l1 l2 : str (l1 ++ l2) = str l1 +:+ str l2.
Proof. induction l1 as [|a l1 IH]; [done|]. simpl. by rewrite IH. Qed.

Lemma str_empty l : str l = "" ↔ l = [].
Proof. destruct l; split; done. Qed.

End submatch_facts.

(** ** The reference grammar of the model *)

Module reference_facts.
Import regexp shapes go_facts regexp_facts submatch_facts.
Import model.reference.

(** The tag after a colon, or nothing and no submatch. *)
Lemma optional_capture w sep i r x y :
  captureless r = true → nonempty r = true →
  Match w (optional [lit sep; Capture i r]) x y →
  ∃ t, x.1 = (if decide (t = []) then [] else chars sep ++ t) ++ y.1 ∧
       y.2 = (if decide (t = []) then x.2 else <[i := t]> x.2) ∧
       (t ≠ [] → Match w r (t ++ y.1, x.2) (y.1, x.2)).
Proof.
  intros Hc Hn. unfold optional, Quest, lit. cbn [Seq Match].
  intros [(z & [Hx Hcx] & M)|<-].
  - apply Match_Capture in M as (t & Ht & Hy & M); [|done].
    pose proof (Match_nonempty _ _ Hn _ _ t M Ht) as Hne.
    destruct z as [z1 z2]. simpl in *. subst z1 z2.
    exists t. rewrite !decide_False by done.
    split; [by rewrite Hx, <- app_assoc|]. by split.
  - exists []. by rewrite !decide_True.
Qed.

Lemma TagRegexp_within : within tagChar TagRegexp = true.
Proof.
  unfold TagRegexp, Repeat. apply within_Concat; [by vm_compute|].
  apply within_Concat; [apply within_Times|apply within_UpTo]; by vm_compute.
Qed.

(** The submatches of a reference are its name, its tag and its digest, and
    the reference is the name, then a colon and the tag if there is one, then
    an at sign and the digest if there is one. *)
Lemma ReferenceRegexp_submatches s :
  FindStringSubmatch ReferenceRegexp s ≠ [] →
  ∃ name tag digest,
    FindStringSubmatch ReferenceRegexp s = [s; name; tag; digest] ∧
    s = name +:+ (if decide (tag = "") then "" else ":" +:+ tag)
             +:+ (if decide (digest = "") then "" else "@" +:+ digest) ∧
    Forall (fun a => tagChar a = true) (chars tag).
Proof.
  unfold FindStringSubmatch.
  destruct (search ReferenceRegexp (chars s) (chars s)) as [c|] eqn:E; [intros _|done].
  apply search_submatches in E as (p & s0 & s' & c' & Hs & M & ->).
  revert M. unfold ReferenceRegexp at 1. cbn [Seq Match].
  intros (z1 & [E1 Hlen] & z2 & (c2 & M2 & Hc2) & z3 & M3 & z4 & M4 & [E5 Hend]).
  subst z1. simpl in Hlen.
  assert (p = []) as ->.
  { apply (f_equal length) in Hs. rewrite length_app in Hs. apply length_zero_iff_nil. lia. }
  simpl in Hs. subst s0.
  destruct (Match_consumes _ _ _ _ M2) as (n & Hn). simpl in Hn.
  apply (Match_captureless _ NameRegexp eq_refl) in M2. simpl in M2. subst c2.
  simpl in Hc2. rewrite Hn, consumed_app in Hc2.
  apply (optional_capture _ ":" 2 TagRegexp) in M3 as (t & Ht & Hct & Mt); [|done..].
  apply (optional_capture _ "@" 3 DigestRegexp) in M4 as (d & Hd & Hcd & _); [|done..].
  subst z4. simpl in Hend, Hd, Hcd. subst s'. rewrite app_nil_r in Hd.
  exists (str n), (str t), (str d).
  assert (Hc : c' = [[]; n; t; d]).
  { rewrite Hcd, Hct, Hc2. by destruct t, d. }
  split; [|split].
  - rewrite Hc, consumed_all. cbn [map list_insert insert]. simpl. by rewrite str_chars.
  - rewrite <- (str_chars s), Hn, Ht, Hd, !str_app.
    destruct t, d; reflexivity.
  - rewrite chars_str. destruct (decide (t = [])) as [->|Hne]; [done|].
    destruct (Match_within tagChar _ _ TagRegexp_within _ _ (Mt Hne)) as (t' & Ht' & Hall).
    simpl in Ht'. apply app_inv_tail in Ht'. by subst t'.
Qed.

(** A name is its domain, a slash and its path, or its path alone. *)
Lemma anchoredNameRegexp_submatches s :
  FindStringSubmatch anchoredNameRegexp s ≠ [] →
  ∃ domain path,
    FindStringSubmatch anchoredNameRegexp s = [s; domain; path] ∧
    s = if decide (domain = "") then path else domain +:+ "/" +:+ path.
Proof.
  unfold FindStringSubmatch.
  destruct (search anchoredNameRegexp (chars s) (chars s)) as [c|] eqn:E; [intros _|done].
  apply search_submatches in E as (p & s0 & s' & c' & Hs & M & ->).
  revert M. unfold anchoredNameRegexp at 1.
  remember (Seq [nameComponentRegexp; optional [repeated [lit "/"; nameComponentRegexp]]])
    as pathRegexp eqn:Epath.
  assert (Hcp : captureless pathRegexp = true) by by subst pathRegexp.
  clear Epath. unfold optional at 1, Quest, lit. cbn [Seq Match].
  intros (z1 & [E1 Hlen] & z2 & M2 & z3 & (c3 & M3 & Hc3) & [E4 Hend]).
  subst z1 z3. cbn [fst snd] in Hlen, Hend, Hc3, M3. subst s'.
  assert (p = []) as ->.
  { apply (f_equal length) in Hs. rewrite length_app in Hs. apply length_zero_iff_nil. lia. }
  simpl in Hs. subst s0.
  destruct (Match_consumes _ _ _ _ M3) as (path & Hpath). cbn [fst snd] in Hpath.
  rewrite app_nil_r in Hpath.
  apply (Match_captureless _ _ Hcp) in M3. cbn [fst snd] in M3. subst c3.
  rewrite Hpath, consumed_all in Hc3.
  destruct M2 as [(z & (c1 & M1 & Hc1) & [Hz Hcz])|<-].
  - destruct (Match_consumes _ _ _ _ M1) as (domain & Hdomain). cbn [fst snd] in Hdomain.
    pose proof (Match_nonempty _ DomainRegexp eq_refl _ _ domain M1 Hdomain) as Hne.
    apply (Match_captureless _ DomainRegexp eq_refl) in M1. cbn [fst snd] in M1, Hc1. subst c1.
    rewrite Hdomain, consumed_app in Hc1. rewrite <- Hcz, Hc1 in Hc3.
    exists (str domain), (str path). split.
    + rewrite Hc3, consumed_all. simpl. by rewrite str_chars.
    + rewrite decide_False by (by rewrite str_empty).
      rewrite <- (str_chars s), Hdomain, Hz, Hpath, !str_app. reflexivity.
  - exists "", (str path). split.
    + rewrite Hc3, consumed_all. simpl in *. by rewrite str_chars.
    + rewrite decide_True by done. simpl in Hpath. by rewrite <- Hpath, str_chars.
Qed.

(** A parsed reference reads as the string it was parsed from, and its
    fields are the submatches of that string. *)
Lemma Parse_inr s r :
  Parse s = inr r →
  String_ r = s ∧ FindStringSubmatch ReferenceRegexp s = [s; Name r; tag r; digest r].
Proof.
  unfold Parse.
  destruct (decide (FindStringSubmatch ReferenceRegexp s = [])) as [|Hm]; [by repeat case_decide|].
  destruct (ReferenceRegexp_submatches s Hm) as (name & tag & digest & -> & Hs & _).
  cbn [at_index lookup list_lookup default from_option id].
  destruct (decide (NameTotalLengthMax < String.length name)); [done|].
  assert (Hname : ∀ domain path,
    (if decide (length (FindStringSubmatch anchoredNameRegexp name) = 3)
     then (at_index (FindStringSubmatch anchoredNameRegexp name) 1,
           at_index (FindStringSubmatch anchoredNameRegexp name) 2)
     else ("", name)) = (domain, path) →
    name = if decide (domain = "") then path else domain +:+ "/" +:+ path).
  { intros domain path.
    destruct (decide (length (FindStringSubmatch anchoredNameRegexp name) = 3)) as [Hl|Hl].
    - assert (Hne : FindStringSubmatch anchoredNameRegexp name ≠ []).
      { intros Hnil. by rewrite Hnil in Hl. }
      destruct (anchoredNameRegexp_submatches name Hne) as (d & p & Hd & Hn).
      rewrite Hd. cbn [at_index lookup list_lookup default from_option id].
      by intros [= <- <-].
    - intros [= <- <-]. by rewrite decide_True. }
  destruct (if decide (length _ = 3) then _ else _) as [domain path].
  specialize (Hname domain path eq_refl).
  destruct (if decide (digest ≠ "") then _ else _); [done|].
  intros [= <-]. unfold String_, Name. cbn [model.reference.domain model.reference.path
    model.reference.tag model.reference.digest].
  rewrite <- Hname. by rewrite <- Hs.
Qed.

End reference_facts.

(** ** The submatches of the repository ARN pattern *)

Module arn_submatch_facts.
Import regexp shapes go_facts regexp_facts submatch_facts handler.

(** An anchored expression of three groups between literals: the input is
    the literals and the three submatches in turn. *)
Lemma three_groups w a r1 b r2 c r3 s0 y :
  captureless r1 = true → captureless r2 = true → captureless r3 = true →
  Match w (Seq [BeginText; lit a; Capture 1 r1; lit b; Capture 2 r2; lit c; Capture 3 r3; EndText])
    (s0, [[]; []; []; []]) y →
  ∃ t1 t2 t3 u1 u2 c1 c2 c3,
    s0 = chars a ++ t1 ++ chars b ++ t2 ++ chars c ++ t3 ∧
    y = ([], [[]; t1; t2; t3]) ∧
    Match w r1 (t1 ++ u1, c1) (u1, c1) ∧
    Match w r2 (t2 ++ u2, c2) (u2, c2) ∧
    Match w r3 (t3, c3) ([], c3).
Proof.
  intros H1 H2 H3. unfold lit. cbn [Seq Match].
  intros (z1 & [E1 _] & z2 & [Ha Hca] & z3 & M1 & z4 & [Hb Hcb] & z5 & M2
          & z6 & [Hc Hcc] & z7 & M3 & [E7 Hend]).
  subst z1 z7.
  apply Match_Capture in M1 as (t1 & Ht1 & Hc1 & M1); [|done].
  apply Match_Capture in M2 as (t2 & Ht2 & Hc2 & M2); [|done].
  apply Match_Capture in M3 as (t3 & Ht3 & Hc3 & M3); [|done].
  destruct z2 as [s2 c2], z3 as [s3 c3], z4 as [s4 c4], z5 as [s5 c5], z6 as [s6 c6],
    y as [s7 c7].
  simpl in *. subst. rewrite app_nil_r in *.
  exists t1, t2, t3, (chars b ++ t2 ++ chars c ++ t3), (chars c ++ t3). eexists _, _, _.
  repeat split; [exact M1|exact M2|exact M3].
Qed.

Lemma ecrRepositoryArnPattern_submatches arn :
  length (FindStringSubmatch ecrRepositoryArnPattern arn) = 4 →
  ∃ region account repository,
    FindStringSubmatch ecrRepositoryArnPattern arn = [arn; region; account; repository] ∧
    Forall (fun a => regionChar a = true) (chars region) ∧
    Forall (fun a => digitChar a = true) (chars account) ∧
    account ≠ "" ∧
    Forall (fun a => repositoryChar a = true) (chars repository).
Proof.
  unfold FindStringSubmatch.
  destruct (search ecrRepositoryArnPattern (chars arn) (chars arn)) as [c|] eqn:E; [intros _|done].
  apply search_submatches in E as (p & s0 & s' & c' & Hs & M & ->).
  assert (Hp : length s0 = length (chars arn)).
  { revert M. unfold ecrRepositoryArnPattern. cbn [Seq Match]. by intros (z1 & [<- Hlen] & _). }
  assert (p = []) as ->.
  { apply (f_equal length) in Hs. rewrite length_app in Hs. apply length_zero_iff_nil. lia. }
  simpl in Hs. subst s0.
  apply three_groups in M as (t1 & t2 & t3 & u1 & u2 & c1 & c2 & c3 & Harn & [= -> ->]
                              & M1 & M2 & M3); [|done..].
  exists (str t1), (str t2), (str t3). rewrite !chars_str.
  split; [by rewrite consumed_all; simpl; rewrite str_chars|].
  assert (W1 : within regionChar (Plus (CharClass [az; digit; chr "-"])) = true)
    by by vm_compute.
  assert (W2 : within digitChar (Plus (CharClass [digit])) = true) by by vm_compute.
  assert (W3 : within repositoryChar
                 (Concat (CharClass [az])
                    (Plus (CharClass [az; digit; chr "-"; chr "_"; chr "/"; chr "."]))) = true)
    by by vm_compute.
  destruct (Match_within regionChar _ _ W1 _ _ M1) as (t1' & Ht1 & F1).
  destruct (Match_within digitChar _ _ W2 _ _ M2) as (t2' & Ht2 & F2).
  destruct (Match_within repositoryChar _ _ W3 _ _ M3) as (t3' & Ht3 & F3).
  simpl in Ht1, Ht2, Ht3. apply app_inv_tail in Ht1, Ht2. rewrite app_nil_r in Ht3.
  subst t1' t2' t3'. clear W1 W2 W3.
  split; [exact F1|]. split; [exact F2|]. split; [|exact F3].
  rewrite str_empty.
  exact (Match_nonempty _ (Plus (CharClass [digit])) eq_refl _ _ t2 M2 eq_refl).
Qed.

End arn_submatch_facts.

(** ** The name package of the model: tags come back as they went in *)

Module name_facts.
Import regexp shapes go_facts regexp_facts submatch_facts.
Import model.name.

Lemma splitOn_none sep l : Forall (fun a => a ≠ sep) l → splitOn sep l = [l].
Proof.
  induction 1 as [|a l Ha _ IH]; [done|]. simpl. unfold ascii_eqb.
  destruct (Ascii.eqb_spec a sep); [done|]. by rewrite IH.
Qed.

Lemma splitOn_app sep l1 l2 :
  Forall (fun a => a ≠ sep) l1 → splitOn sep (l1 ++ sep :: l2) = l1 :: splitOn sep l2.
Proof.
  induction 1 as [|a l Ha _ IH]; simpl; unfold ascii_eqb.
  - by rewrite Ascii.eqb_refl.
  - destruct (Ascii.eqb_spec a sep); [done|]. by rewrite IH.
Qed.

Lemma splitFirst_app sep l1 l2 :
  Forall (fun a => a ≠ sep) l1 → splitFirst sep (l1 ++ sep :: l2) = Some (l1, l2).
Proof.
  induction 1 as [|a l Ha _ IH]; simpl; unfold ascii_eqb.
  - by rewrite Ascii.eqb_refl.
  - destruct (Ascii.eqb_spec a sep); [done|]. by rewrite IH.
Qed.

Lemma ContainsRune_false s c : Forall (fun a => a ≠ c) (chars s) → ContainsRune s c = false.
Proof.
  unfold ContainsRune. induction 1 as [|a l Ha _ IH]; [done|]. simpl. unfold ascii_eqb.
  destruct (Ascii.eqb_spec c a); [by subst|done].
Qed.

Lemma ContainsRune_true s c : In c (chars s) → ContainsRune s c = true.
Proof.
  unfold ContainsRune. intros H. apply existsb_exists. exists c. split; [done|].
  apply Ascii.eqb_refl.
Qed.

(** [registry/repository:tag] parses to a tag that reads the same, when the
    registry has a period and neither slash nor colon, the repository has no
    colon, the tag has neither, nothing has an at sign, and the registry is
    not one that the package rewrites. *)
Lemma ParseReference_tag (registry repository tag : list ascii) r :
  Forall (fun a => a ≠ ":"%char ∧ a ≠ "/"%char ∧ a ≠ "@"%char) registry →
  Forall (fun a => a ≠ ":"%char ∧ a ≠ "@"%char) repository →
  Forall (fun a => a ≠ ":"%char ∧ a ≠ "/"%char ∧ a ≠ "@"%char) tag →
  In "."%char registry →
  tag ≠ [] →
  str registry ≠ defaultRegistryAlias → str registry ≠ DefaultRegistry →
  ParseReference (str (registry ++ "/"%char :: repository ++ ":"%char :: tag)) = inr r →
  String_ r = str (registry ++ "/"%char :: repository ++ ":"%char :: tag).
Proof.
  intros Hreg Hrepo Htag Hdot Hne Halias Hdefault.
  set (s := str (registry ++ "/"%char :: repository ++ ":"%char :: tag)).
  assert (Hsplit : Split s ":" = [str (registry ++ "/"%char :: repository); str tag]).
  { unfold Split, s. rewrite chars_str.
    replace (registry ++ "/"%char :: repository ++ ":"%char :: tag)
      with ((registry ++ "/"%char :: repository) ++ ":"%char :: tag)
      by by rewrite <- app_assoc.
    rewrite splitOn_app, splitOn_none; [done| |].
    - eapply Forall_impl; [exact Htag|]. by intros a (? & _).
    - apply Forall_app. split; [|constructor; [done|]].
      + eapply Forall_impl; [exact Hreg|]. by intros a (? & _).
      + eapply Forall_impl; [exact Hrepo|]. by intros a (? & _). }
  assert (Hat : Split s "@" = [s]).
  { unfold Split, s. rewrite chars_str, splitOn_none; [done|].
    apply Forall_app. split; [|constructor; [done|apply Forall_app; split; [|constructor; [done|]]]].
    - eapply Forall_impl; [exact Hreg|]. by intros a (_ & _ & ?).
    - eapply Forall_impl; [exact Hrepo|]. by intros a (_ & ?).
    - eapply Forall_impl; [exact Htag|]. by intros a (_ & _ & ?). }
  assert (Htagstr : str tag ≠ "") by by rewrite str_empty.
  unfold ParseReference.
  assert (Htag' : ∀ t, NewTag s = inr t → String_ t = s).
  { unfold NewTag. rewrite Hsplit. cbn [List.last removelast Join].
    rewrite ContainsRune_false; cycle 1.
    { rewrite chars_str. eapply Forall_impl; [exact Htag|]. by intros a (_ & ? & _). }
    cbn [negb]. rewrite (decide_True (P:=str tag ≠ "")) by done.
    destruct (checkTag (str tag)); [done|].
    rewrite (decide_False (P:=str tag = "")) by done.
    unfold NewRepository.
    destruct (decide (String.length _ = 0)); [done|].
    rewrite chars_str, splitFirst_app; cycle 1.
    { eapply Forall_impl; [exact Hreg|]. by intros a (_ & ? & _). }
    rewrite (ContainsRune_true (str registry) "."); [|by rewrite chars_str].
    cbn [orb]. destruct (checkRepository (str repository)); [done|].
    unfold NewRegistry. destruct (checkRegistry (str registry)); [done|].
    assert (str registry ≠ "").
    { rewrite str_empty. intros ->. by destruct Hdot. }
    rewrite (decide_False (P:=str registry = "")) by done.
    rewrite (decide_False (P:=str registry = defaultRegistryAlias)) by done.
    cbn [bindR]. intros t [= <-].
    unfold String_, Repository_Name, RepositoryStr, hasImplicitNamespace.
    cbn [model.name.registry model.name.repository].
    rewrite (decide_True (P:=str registry ≠ "")) by done.
    rewrite (bool_decide_eq_false_2 (str registry = DefaultRegistry)) by done.
    rewrite andb_false_r. unfold s.
    rewrite !str_app. cbn [str string_of_list_ascii]. rewrite !str_app.
    cbn [str string_of_list_ascii].
    rewrite !append_assoc. reflexivity. }
  destruct (NewTag s) as [e|t]; [|by intros [= <-]; apply Htag'].
  unfold NewDigest. by rewrite Hat.
Qed.

End name_facts.

(** ** What [validate] returns *)

Module validate_facts.
Import regexp handler notions.

Section validate_facts.
Context {T : Types} {P : Packages}.

(** One step of [validate]: a case analysis on what the next call returns. *)
Ltac validate_step :=
  cbv zeta;
  match goal with
  | |- context [bindR (wrapErr ?x _) _] => destruct x eqn:?; cbn [bindR wrapErr]
  | |- context [bindR (match ?x with _ => _ end) _] => destruct x eqn:?; cbn [bindR wrapErr]
  | |- context [bindR (if decide ?p then _ else _) _] => destruct (decide p); cbn [bindR wrapErr]
  | |- context [bindR ?x _] => destruct x eqn:?; cbn [bindR wrapErr]
  | |- context [if decide ?p then _ else _] => destruct (decide p); cbn [bindR wrapErr]
  end.

Lemma validate_halves event :
  validate event = bindR (resolveSource event) (resolveTarget event).
Proof.
  unfold validate, resolveSource, resolveTarget, linuxAmd64.
  repeat (validate_step; try reflexivity).
Qed.

(** The source does not depend on the other properties. *)
Lemma resolveSource_withProperty event key v :
  key ≠ "ImageReference" →
  resolveSource (withProperty event key v) = resolveSource event.
Proof.
  intros Hk. unfold resolveSource, withProperty. cbn [cfn.ResourceProperties].
  by rewrite lookup_insert_ne.
Qed.

(** An ARN that does not match ends [validate] with the invalid-ARN error,
    unless the source has failed before. *)
Lemma resolveTarget_mismatch event src arn :
  as_string (cfn.ResourceProperties event !! "RepositoryArn") = Some arn →
  length (FindStringSubmatch ecrRepositoryArnPattern arn) ≠ 4 →
  resolveTarget event src = inl ("Invalid AWS ECR repository ARN: " +:+ arn).
Proof.
  intros Harn Hlen. unfold resolveTarget. destruct src as [[[source tag] digest] name].
  rewrite Harn. cbn [bindR]. cbv zeta. by rewrite decide_True.
Qed.

(** The steps a successful [validate] has taken. *)
Lemma validate_inr event properties :
  validate event = inr properties →
  ∃ ref imageReference arn,
    as_string (cfn.ResourceProperties event !! "ImageReference") = Some ref ∧
    reference_Parse ref = inr imageReference ∧
    let parts := FindStringSubmatch reference_ReferenceRegexp (reference_String imageReference) in
    SourceName properties = at_index parts 1 ∧
    SourceDigest properties = at_index parts 3 ∧
    SourceTag properties =
      (if decide (at_index parts 3 = "" ∧ at_index parts 2 = "") then "latest"
       else at_index parts 2) ∧
    as_string (cfn.ResourceProperties event !! "RepositoryArn") = Some arn ∧
    let matches := FindStringSubmatch ecrRepositoryArnPattern arn in
    length matches = 4 ∧
    Region properties = at_index matches 1 ∧
    AccountID properties = at_index matches 2 ∧
    RepositoryName properties = at_index matches 3 ∧
    name_ParseReference
      (targetReference (AccountID properties) (Region properties) (RepositoryName properties)
         (SourceTag properties) (SourceDigest properties)) = inr (Target properties) ∧
    selectedPlatform event = inr (Platform properties).
Proof.
  unfold validate, selectedPlatform, bindR, wrapErr. intros H.
  repeat (case_match; simplify_eq); simpl;
    eexists _, _, _; repeat split; try done; try lia;
    repeat (case_match; simplify_eq); done.
Qed.

End validate_facts.
End validate_facts.

(** ** What [create], [delete] and [Handler] do *)

Module handler_facts.
Import regexp handler notions validate_facts.

Section handler_facts.
Context {T : Types} {P : Packages} (W : World).

Ltac run_steps :=
  unfold create, getAuthentication, bindE, bind, ret, check, effect, wrapErr; simpl.

(** Invalid properties end [create] before it does anything else. *)
Lemma create_invalid event authenticator e :
  validate event = inl e → create W event authenticator = (failed e, []).
Proof. intros H. run_steps. by rewrite H. Qed.

(** An error of [create] comes without physical id and without data. *)
Lemma create_failed event authenticator :
  err (create W event authenticator).1 ≠ None →
  physicalResourceID (create W event authenticator).1 = "" ∧
  data (create W event authenticator).1 = None.
Proof.
  run_steps.
  destruct (validate event) as [e|properties]; simpl; [done|].
  destruct (remote_NewPuller W); simpl; [done|].
  destruct (remote_NewPusher W); simpl; [done|].
  destruct (puller_Get W _ _) as [e|descriptor]; simpl; [done|].
  destruct (Platform properties); simpl.
  - destruct (descriptor_Image W descriptor) as [e|image]; simpl; [done|].
    destruct (pusher_Push W _ _ _); simpl; done.
  - destruct (pusher_Push W _ _ _); simpl; done.
Qed.

(** The steps of a successful [create], its results and its calls. *)
Lemma create_succeeded event authenticator :
  err (create W event authenticator).1 = None →
  ∃ properties descriptor pushed,
    validate event = inr properties ∧
    puller_Get W (Platform properties) (Source properties) = inr descriptor ∧
    pushedAs W (Platform properties) descriptor pushed ∧
    pusher_Push W (Target properties) pushed authenticator = None ∧
    (create W event authenticator).1 =
      {| physicalResourceID := name_String (Target properties);
         data := Some (createData properties descriptor);
         err := None |} ∧
    (create W event authenticator).2 =
      Net (PullerGet (Platform properties) (Source properties))
      :: match Platform properties with
         | Some _ => [Net (DescriptorImage descriptor)]
         | None => []
         end
      ++ [Net (PusherPush (Target properties) pushed authenticator)].
Proof.
  run_steps.
  destruct (validate event) as [e|properties]; simpl; [done|].
  destruct (remote_NewPuller W); simpl; [done|].
  destruct (remote_NewPusher W); simpl; [done|].
  destruct (puller_Get W _ _) as [e|descriptor] eqn:Hget; simpl; [done|].
  unfold pushedAs, createData.
  destruct (Platform properties) as [platform|] eqn:Hp; simpl.
  - destruct (descriptor_Image W descriptor) as [e|image] eqn:Himg; simpl; [done|].
    destruct (pusher_Push W _ _ _) eqn:Hpush; simpl; [done|]. intros _.
    eexists properties, descriptor, (TImage image).
    rewrite Hp. repeat split; eauto.
  - destruct (pusher_Push W _ _ _) eqn:Hpush; simpl; [done|]. intros _.
    eexists properties, descriptor, (TDescriptor descriptor).
    rewrite Hp. repeat split; eauto.
Qed.

(** The attributes by name. *)
Lemma createData_lookup properties descriptor :
  createData properties descriptor !! "Digest"
    = Some (VString (v1.Hash_String (remote_Descriptor_Digest descriptor))) ∧
  createData properties descriptor !! "ImageReference"
    = Some (VString (name_String (Target properties))) ∧
  createData properties descriptor !! "Platforms"
    = Some (VStrings match Platform properties with
                     | Some platform => [v1_Platform_String platform]
                     | None => getPlatforms descriptor
                     end).
Proof.
  unfold createData. split; [|split].
  - by rewrite lookup_insert_eq.
  - rewrite lookup_insert_ne by done. by rewrite lookup_insert_eq.
  - rewrite !lookup_insert_ne by done. by rewrite lookup_insert_eq.
Qed.

(** [delete] never returns an error; it logs what it ignores. *)
Lemma delete_returns event authenticator :
  (delete W event authenticator).1 = {| physicalResourceID := ""; data := None; err := None |}.
Proof.
  unfold delete, bind, ret, effect.
  destruct (name_ParseReference _) as [e|imageReference]; simpl; [done|].
  by destruct (remote_Delete W imageReference authenticator).
Qed.

Lemma delete_effects event authenticator :
  (delete W event authenticator).2 =
    match name_ParseReference (cfn.PhysicalResourceID event) with
    | inl _ => [Log ("ignoring invalid physical resource id " +:+ cfn.PhysicalResourceID event)]
    | inr imageReference =>
        Net (RemoteDelete imageReference authenticator)
        :: match remote_Delete W imageReference authenticator with
           | Some e => [Log ("ignoring failed delete of image " +:+ cfn.PhysicalResourceID event
                             +:+ ", " +:+ e)]
           | None => []
           end
    end.
Proof.
  unfold delete, bind, ret, effect.
  destruct (name_ParseReference _) as [e|imageReference]; simpl; [done|].
  by destruct (remote_Delete W imageReference authenticator).
Qed.

(** [getAuthentication] makes one call, whatever it returns. *)
Lemma getAuthentication_effects : (getAuthentication W).2 = [Net GetAuthorizationToken].
Proof.
  run_steps.
  destruct (ecr_GetAuthorizationToken W) as [e|response]; simpl; [done|].
  destruct (ecr.AuthorizationData_ response) as [|first ?]; simpl; [done|].
  destruct (ecr.AuthorizationToken first); simpl; [|done].
  destruct (base64_DecodeString _); simpl; [done|].
  by case_decide.
Qed.

(** Once the session and the credentials are there, [Handler] is the
    function of the request type. *)
Lemma Handler_dispatch event basicAuthentication :
  session_NewSessionWithOptions W = None →
  (getAuthentication W).1 = inr basicAuthentication →
  cfn.ResourceType event = "Custom::ContainerImage" →
  Handler W event =
    let r :=
      if decide (cfn.RequestType event = cfn.RequestCreate) then
        bind (create W event basicAuthentication) (fun r =>
          ret (if decide (physicalResourceID r = "")
               then {| physicalResourceID := "create-failed"; data := data r; err := err r |}
               else r))
      else if decide (cfn.RequestType event = cfn.RequestUpdate) then
        create W event basicAuthentication
      else if decide (cfn.RequestType event = cfn.RequestDelete) then
        delete W event basicAuthentication
      else ret (failed ("unsupported request type: " +:+ cfn.RequestType event)) in
    (r.1, Net GetAuthorizationToken :: r.2).
Proof.
  intros Hs Ha Ht. unfold Handler. rewrite Hs.
  pose proof getAuthentication_effects as He.
  destruct (getAuthentication W) as [auth t]. simpl in *. subst.
  unfold bind at 1. simpl. rewrite decide_True by done.
  by destruct (if decide (cfn.RequestType event = cfn.RequestCreate) then _ else _).
Qed.

End handler_facts.
End handler_facts.

(** ** Properties of the handler *)

Import regexp handler notions go_facts validate_facts handler_facts arn_facts.

Section properties.
Context {T : Types} {P : Packages}.

(** Invalid properties: of a Create or an Update, [Handler] makes no call but
    the one for the authorization token. *)
Lemma Handler_invalid_effects (W : World) event e :
  validate event = inl e →
  cfn.RequestType event = cfn.RequestCreate ∨ cfn.RequestType event = cfn.RequestUpdate →
  (Handler W event).2 = [] ∨ (Handler W event).2 = [Net GetAuthorizationToken].
Proof.
  intros Hv Hrt. unfold Handler.
  destruct (session_NewSessionWithOptions W); [by left|]. right.
  pose proof (getAuthentication_effects W) as He.
  destruct (getAuthentication W) as [[e'|auth] t]; simpl in He; subst t.
  { done. }
  unfold bind at 1. cbn [fst snd].
  case_decide; [|done].
  unfold cfn.RequestCreate, cfn.RequestUpdate in *.
  destruct Hrt as [Hrt|Hrt]; rewrite Hrt.
  - rewrite decide_True by done. unfold bind. by rewrite (create_invalid W _ _ e).
  - rewrite decide_False by done. rewrite decide_True by done.
    by rewrite (create_invalid W _ _ e).
Qed.

(** A successful [Handler] had its session, its credentials and the resource
    type it serves. *)
Lemma Handler_succeeded (W : World) event :
  err (Handler W event).1 = None →
  session_NewSessionWithOptions W = None ∧
  cfn.ResourceType event = "Custom::ContainerImage" ∧
  ∃ basicAuthentication, (getAuthentication W).1 = inr basicAuthentication.
Proof.
  unfold Handler.
  destruct (session_NewSessionWithOptions W); [done|].
  destruct (getAuthentication W) as [[e'|auth] t]; unfold bind at 1; cbn [fst snd]; [done|].
  case_decide; [|done]. intros _. eauto.
Qed.

(** The result of a Create in terms of [create]. *)
Lemma Handler_Create (W : World) event basicAuthentication :
  session_NewSessionWithOptions W = None →
  (getAuthentication W).1 = inr basicAuthentication →
  cfn.ResourceType event = "Custom::ContainerImage" →
  cfn.RequestType event = cfn.RequestCreate →
  let r := (create W event basicAuthentication).1 in
  (Handler W event).1 =
    if decide (physicalResourceID r = "")
    then {| physicalResourceID := "create-failed"; data := data r; err := err r |}
    else r.
Proof.
  intros Hs Ha Ht Hr r. rewrite (Handler_dispatch W _ _ Hs Ha Ht). cbv zeta. cbn [fst].
  rewrite decide_True by done. unfold bind, ret. subst r.
  by destruct (create W event basicAuthentication).
Qed.

(** The sentinel leaves the data and the error as [create] returned them. *)
Lemma Handler_Create_results (W : World) event basicAuthentication :
  session_NewSessionWithOptions W = None →
  (getAuthentication W).1 = inr basicAuthentication →
  cfn.ResourceType event = "Custom::ContainerImage" →
  cfn.RequestType event = cfn.RequestCreate →
  err (Handler W event).1 = err (create W event basicAuthentication).1 ∧
  data (Handler W event).1 = data (create W event basicAuthentication).1.
Proof.
  intros Hs Ha Ht Hr. rewrite (Handler_Create W _ _ Hs Ha Ht Hr). cbv zeta.
  by case_decide.
Qed.

Lemma Handler_Update (W : World) event basicAuthentication :
  session_NewSessionWithOptions W = None →
  (getAuthentication W).1 = inr basicAuthentication →
  cfn.ResourceType event = "Custom::ContainerImage" →
  cfn.RequestType event = cfn.RequestUpdate →
  (Handler W event).1 = (create W event basicAuthentication).1.
Proof.
  intros Hs Ha Ht Hr. rewrite (Handler_dispatch W _ _ Hs Ha Ht). cbv zeta. cbn [fst].
  rewrite Hr. rewrite decide_False by done. by rewrite decide_True.
Qed.

Lemma Handler_Delete (W : World) event basicAuthentication :
  session_NewSessionWithOptions W = None →
  (getAuthentication W).1 = inr basicAuthentication →
  cfn.ResourceType event = "Custom::ContainerImage" →
  cfn.RequestType event = cfn.RequestDelete →
  Handler W event =
    ((delete W event basicAuthentication).1,
     Net GetAuthorizationToken :: (delete W event basicAuthentication).2).
Proof.
  intros Hs Ha Ht Hr. rewrite (Handler_dispatch W _ _ Hs Ha Ht). cbv zeta.
  rewrite Hr. rewrite decide_False by done. rewrite decide_False by done.
  by rewrite decide_True.
Qed.

(** What [Handler] returns when [create] fails. *)
Lemma Handler_create_failed (W : World) event basicAuthentication e :
  session_NewSessionWithOptions W = None →
  (getAuthentication W).1 = inr basicAuthentication →
  cfn.ResourceType event = "Custom::ContainerImage" →
  err (create W event basicAuthentication).1 = Some e →
  (cfn.RequestType event = cfn.RequestCreate →
   (Handler W event).1
   = {| physicalResourceID := "create-failed"; data := None; err := Some e |}) ∧
  (cfn.RequestType event = cfn.RequestUpdate →
   (Handler W event).1 = {| physicalResourceID := ""; data := None; err := Some e |}).
Proof.
  intros Hs Ha Ht He.
  destruct (create_failed W event basicAuthentication) as [Hid Hd]; [by rewrite He|].
  split; intros Hr.
  - rewrite (Handler_Create W _ basicAuthentication Hs Ha Ht Hr). cbv zeta.
    rewrite decide_True by done. by rewrite Hd, He.
  - rewrite (Handler_Update W _ basicAuthentication Hs Ha Ht Hr).
    destruct (create W event basicAuthentication).1 as [id d e']. simpl in *. by subst.
Qed.

End properties.

(** ** [validate] with the packages of the model *)

Module model_facts.
Import regexp shapes handler notions go_facts regexp_facts submatch_facts validate_facts handler_facts.
Import reference_facts arn_submatch_facts name_facts.
Import model.

(** The tag and the digest [validate] stores are those of the parsed
    reference, which reads as the string it was parsed from. *)
Lemma validate_parsed (event : cfn.Event) (ref : string) (r : reference.Reference)
    (properties : resourceProperties) :
  as_string (cfn.ResourceProperties event !! "ImageReference") = Some ref →
  reference.Parse ref = inr r →
  validate event = inr properties →
  reference.String_ r = ref ∧
  SourceName properties = reference.Name r ∧
  SourceDigest properties = reference.digest r ∧
  SourceTag properties
  = if decide (reference.digest r = "" ∧ reference.tag r = "") then "latest" else reference.tag r.
Proof.
  intros Href Hparse Hok.
  apply validate_inr in Hok as (ref' & imageReference' & arn & Href' & Hparse' & Hrest).
  cbv zeta in Hrest. destruct Hrest as (Hn & Hd & Ht & _).
  assert (ref' = ref) as -> by congruence.
  cbn [reference_Parse packages] in Hparse'.
  assert (imageReference' = r) as -> by congruence.
  cbn [reference_String reference_ReferenceRegexp packages] in Hn, Hd, Ht.
  destruct (reference_facts.Parse_inr _ _ Hparse) as [Hs Hm].
  rewrite Hs, Hm in Hn, Hd, Ht. by cbn in Hn, Hd, Ht.
Qed.

Lemma latest_tagChar : Forall (fun a => tagChar a = true) (chars "latest").
Proof. repeat constructor. Qed.

(** With a tag, the target reads as it was composed. *)
Lemma validate_target (event : cfn.Event) (properties : resourceProperties) :
  validate event = inr properties →
  SourceTag properties ≠ "" →
  name.String_ (Target properties)
  = AccountID properties +:+ ".dkr.ecr." +:+ Region properties +:+ ".amazonaws.com/"
    +:+ RepositoryName properties +:+ ":" +:+ SourceTag properties.
Proof.
  intros Hok Htag.
  apply validate_inr in Hok as (ref & imageReference & arn & _ & _ & Hrest).
  cbv zeta in Hrest.
  destruct Hrest as (_ & _ & Ht & _ & Hlen & Hregion & Haccount & Hrepo & Htarget & _).
  cbn [reference_String reference_ReferenceRegexp name_ParseReference packages] in Ht, Htarget.
  (* the tag *)
  assert (Htc : Forall (fun a => tagChar a = true) (chars (SourceTag properties))).
  { rewrite Ht. case_decide; [apply latest_tagChar|].
    destruct (decide (FindStringSubmatch reference.ReferenceRegexp
                        (reference.String_ imageReference) = [])) as [Hnil|Hne].
    - by rewrite Hnil.
    - destruct (ReferenceRegexp_submatches _ Hne) as (n & t & d & -> & _ & Hall). by cbn. }
  (* the repository ARN *)
  destruct (ecrRepositoryArnPattern_submatches arn Hlen)
    as (region & account & repository & Hm & Hrc & Hac & Hane & Hpc).
  rewrite Hm in Hregion, Haccount, Hrepo. cbn in Hregion, Haccount, Hrepo.
  rewrite Hregion, Haccount, Hrepo in *. clear Hregion Haccount Hrepo Hm Hlen Ht.
  unfold targetReference in Htarget. rewrite decide_True in Htarget by done.
  set (registry := chars account ++ chars ".dkr.ecr." ++ chars region ++ chars ".amazonaws.com").
  assert (Hs : account +:+ ".dkr.ecr." +:+ region +:+ ".amazonaws.com/" +:+ repository
               +:+ ":" +:+ SourceTag properties
               = str (registry ++ "/"%char :: chars repository
                               ++ ":"%char :: chars (SourceTag properties))).
  { unfold registry. rewrite <- !app_assoc. rewrite !str_app, !str_chars.
    change (str ("/"%char :: chars repository ++ ":"%char :: chars (SourceTag properties)))
      with (String "/" (str (chars repository ++ ":"%char :: chars (SourceTag properties)))).
    rewrite str_app, str_chars.
    change (str (":"%char :: chars (SourceTag properties)))
      with (String ":" (str (chars (SourceTag properties)))).
    rewrite str_chars. reflexivity. }
  rewrite Hs in Htarget |- *.
  apply ParseReference_tag in Htarget; [done|..].
  - unfold registry. repeat (apply Forall_app; split).
    + eapply Forall_impl; [exact Hac|]. intros a Ha. by repeat split; intros ->.
    + repeat constructor; by intros.
    + eapply Forall_impl; [exact Hrc|]. intros a Ha. by repeat split; intros ->.
    + repeat constructor; by intros.
  - eapply Forall_impl; [exact Hpc|]. intros a Ha. by repeat split; intros ->.
  - eapply Forall_impl; [exact Htc|]. intros a Ha. by repeat split; intros ->.
  - unfold registry. apply in_or_app. right. by left.
  - intros Hnil. apply Htag. by rewrite <- (str_chars (SourceTag properties)), Hnil.
  - unfold registry. destruct account as [|d account]; [done|].
    inversion Hac as [|? ? Hd _]; subst. cbn. intros [= -> _]. by vm_compute in Hd.
  - unfold registry. destruct account as [|d account]; [done|].
    inversion Hac as [|? ? Hd _]; subst. cbn. intros [= -> _]. by vm_compute in Hd.
Qed.

(** The physical resource id of a Create or an Update that succeeds with a
    tag. *)
Lemma Handler_tagged (W : World) (event : cfn.Event) :
  cfn.RequestType event = cfn.RequestCreate ∨ cfn.RequestType event = cfn.RequestUpdate →
  err (Handler W event).1 = None →
  ∃ properties,
    validate event = inr properties ∧
    (SourceTag properties ≠ "" →
     physicalResourceID (Handler W event).1
     = AccountID properties +:+ ".dkr.ecr." +:+ Region properties +:+ ".amazonaws.com/"
       +:+ RepositoryName properties +:+ ":" +:+ SourceTag properties).
Proof.
  intros Hrt Hok.
  destruct (Handler_succeeded W _ Hok) as (Hs & Ht & auth & Ha).
  assert (Hc : err (create W event auth).1 = None
               ∧ physicalResourceID (Handler W event).1
                 = if decide (physicalResourceID (create W event auth).1 = "")
                   then match cfn.RequestType event with
                        | "Create" => "create-failed"
                        | _ => ""
                        end
                   else physicalResourceID (create W event auth).1).
  { destruct Hrt as [Hr|Hr].
    - destruct (Handler_Create_results W _ auth Hs Ha Ht Hr) as [He _].
      rewrite He in Hok. split; [done|].
      rewrite (Handler_Create W _ auth Hs Ha Ht Hr). cbv zeta. rewrite Hr.
      by case_decide.
    - rewrite (Handler_Update W _ auth Hs Ha Ht Hr) in Hok |- *. split; [done|].
      rewrite Hr. by case_decide. }
  destruct Hc as [Hc Hid].
  apply create_succeeded in Hc as (properties & ? & ? & Hv & _ & _ & _ & Hres & _).
  exists properties. split; [done|]. intros Htag.
  rewrite Hid, Hres. cbn [physicalResourceID name_String packages].
  rewrite (validate_target _ _ Hv Htag).
  rewrite decide_False; [done|].
  destruct (AccountID properties); discriminate.
Qed.

End model_facts.

(** ** The cases of [Test_validate] *)

Module Test_validate.
Import handler examples.

Example ValidRepositorAr :
  validated [("ImageReference", VString "docker.io/mesosphere/aws-cli:latest");
             ("RepositoryArn",
              VString "arn:aws:ecr:eu-central-1:444093529715:repository/mesosphere/aws-cli")]
  = inr (name.ParseReference "mesosphere/aws-cli:latest",
         name.ParseReference
           "444093529715.dkr.ecr.eu-central-1.amazonaws.com/mesosphere/aws-cli:latest",
         ["eu-central-1"; "444093529715"; "mesosphere/aws-cli"; "latest"; "";
          "docker.io/mesosphere/aws-cli"]).
Proof. vm_compute. reflexivity. Qed.

Example DigestWithoutTag :
  validated [("ImageReference", VString ("docker.io/library/python@" +:+ python39Digest));
             ("RepositoryArn", VString pythonArn)]
  = inr (name.ParseReference ("python@" +:+ python39Digest),
         name.ParseReference
           ("444093529715.dkr.ecr.eu-central-1.amazonaws.com/python@" +:+ python39Digest),
         ["eu-central-1"; "444093529715"; "python"; ""; python39Digest;
          "docker.io/library/python"]).
Proof. vm_compute. reflexivity. Qed.

Example DigestWithTag :
  validated [("ImageReference", VString ("docker.io/library/python:3.9@" +:+ python39Digest));
             ("RepositoryArn", VString pythonArn)]
  = inr (name.ParseReference ("python@" +:+ python39Digest),
         name.ParseReference "444093529715.dkr.ecr.eu-central-1.amazonaws.com/python:3.9",
         ["eu-central-1"; "444093529715"; "python"; "3.9"; python39Digest;
          "docker.io/library/python"]).
Proof. vm_compute. reflexivity. Qed.

Example TagOnly :
  validated [("ImageReference", VString "docker.io/library/python:3.9");
             ("RepositoryArn", VString pythonArn)]
  = inr (name.ParseReference "python:3.9",
         name.ParseReference "444093529715.dkr.ecr.eu-central-1.amazonaws.com/python:3.9",
         ["eu-central-1"; "444093529715"; "python"; "3.9"; ""; "docker.io/library/python"]).
Proof. vm_compute. reflexivity. Qed.

Example IncorrectName :
  validated [("ImageReference", VString "https://docker.io/library/python:3.9");
             ("RepositoryArn", VString pythonArn)]
  = inl "https://docker.io/library/python:3.9: invalid reference format".
Proof. vm_compute. reflexivity. Qed.

Example IncorrectARN :
  validated [("ImageReference", VString "docker.io/library/python:3.9");
             ("RepositoryArn",
              VString "arn:a:ws:ecr:eu-ce:ntral-1:444093529715:repository/python")]
  = inl "Invalid AWS ECR repository ARN: arn:a:ws:ecr:eu-ce:ntral-1:444093529715:repository/python".
Proof. vm_compute. reflexivity. Qed.

Example MissingReference :
  validated [] = inl "ImageReference is missing or not a string".
Proof. vm_compute. reflexivity. Qed.

Example MissingARN :
  validated [("ImageReference", VString "docker.io/library/python:3.9")]
  = inl "RepositoryArn is missing or not a string".
Proof. vm_compute. reflexivity. Qed.

Example LatestAndDigest :
  validated
    [("ImageReference",
      VString "public.ecr.aws/docker/library/alpine:latest@sha256:82d1e9d7ed48a7523bdebc18cf6290bdb97b82302a8a9c27d4fe885949ea94d1");
     ("RepositoryArn", VString "arn:aws:ecr:eu-central-1:444093529715:repository/alpine")]
  = inr (name.ParseReference
           "public.ecr.aws/docker/library/alpine@sha256:82d1e9d7ed48a7523bdebc18cf6290bdb97b82302a8a9c27d4fe885949ea94d1",
         name.ParseReference "444093529715.dkr.ecr.eu-central-1.amazonaws.com/alpine:latest",
         ["eu-central-1"; "444093529715"; "alpine"; "latest";
          "sha256:82d1e9d7ed48a7523bdebc18cf6290bdb97b82302a8a9c27d4fe885949ea94d1";
          "public.ecr.aws/docker/library/alpine"]).
Proof. vm_compute. reflexivity. Qed.

End Test_validate.

(** ** The platform is validated last *)

Module platform_facts.
Import regexp handler notions validate_facts.

Section platform_facts.
Context {T : Types} {P : Packages}.

(** The platform [validate] selects depends on the [Platform] property. *)
Lemma selectedPlatform_agree event event' :
  cfn.ResourceProperties event !! "Platform" = cfn.ResourceProperties event' !! "Platform" →
  selectedPlatform event = selectedPlatform event'.
Proof. intros H. unfold selectedPlatform. by rewrite H. Qed.

Lemma resolveTarget_selected event src :
  resolveTarget event src =
  let '(source, sourceTag, sourceDigest, sourceName) := src in
  arn <~ match as_string (cfn.ResourceProperties event !! "RepositoryArn") with
         | Some arn => inr arn
         | None => inl "RepositoryArn is missing or not a string"
         end ;;
  let matches := FindStringSubmatch ecrRepositoryArnPattern arn in
  if decide (length matches ≠ 4) then inl ("Invalid AWS ECR repository ARN: " +:+ arn) else
  target <~ name_ParseReference
              (targetReference (at_index matches 2) (at_index matches 1) (at_index matches 3)
                 sourceTag sourceDigest) ;;
  platform <~ selectedPlatform event ;;
  inr {| Source := source; SourceTag := sourceTag; SourceDigest := sourceDigest;
         SourceName := sourceName; Platform := platform; Target := target;
         Region := at_index matches 1; AccountID := at_index matches 2;
         RepositoryName := at_index matches 3 |}.
Proof.
  destruct src as [[[? ?] ?] ?]. unfold resolveTarget, selectedPlatform.
  destruct (as_string (cfn.ResourceProperties event !! "RepositoryArn")) as [arn|]; [|done].
  cbn [bindR]. cbv zeta.
  destruct (decide (length (FindStringSubmatch ecrRepositoryArnPattern arn) ≠ 4)); [done|].
  destruct (name_ParseReference _); [done|]. cbn [bindR].
  destruct (as_string (cfn.ResourceProperties event !! "Platform")) as [platform|]; [|done].
  destruct (decide (strings_TrimSpace (strings_ToLower platform) = "all")); [done|].
  by destruct (v1_ParsePlatform platform).
Qed.

(** [validate] is what it is without the platform, and then the platform. *)
Lemma resolveTarget_inr event src properties :
  resolveTarget event src = inr properties →
  ∀ event',
    cfn.ResourceProperties event !! "RepositoryArn"
      = cfn.ResourceProperties event' !! "RepositoryArn" →
    resolveTarget event' src
    = bindR (selectedPlatform event') (fun platform => inr (withPlatform properties platform)).
Proof.
  intros Hok event' Harn. rewrite resolveTarget_selected in Hok |- *.
  destruct src as [[[source tag] digest] name]. rewrite <- Harn.
  destruct (as_string (cfn.ResourceProperties event !! "RepositoryArn")) as [arn|]; [|done].
  cbn [bindR] in *. cbv zeta in *.
  destruct (decide (length (FindStringSubmatch ecrRepositoryArnPattern arn) ≠ 4)); [done|].
  destruct (name_ParseReference _) as [e|target]; [done|]. cbn [bindR] in *.
  destruct (selectedPlatform event) as [e|platform]; [done|]. cbn [bindR] in Hok.
  injection Hok as <-. by destruct (selectedPlatform event').
Qed.

(** An error of [validate] that is not the error of the platform stays,
    whatever the platform. *)
Lemma resolveTarget_inl event src e platform :
  resolveTarget event src = inl e →
  selectedPlatform event = inr platform →
  ∀ event',
    cfn.ResourceProperties event !! "RepositoryArn"
      = cfn.ResourceProperties event' !! "RepositoryArn" →
    resolveTarget event' src = inl e.
Proof.
  intros Herr Hsel event' Harn. rewrite resolveTarget_selected in Herr |- *.
  destruct src as [[[source tag] digest] name]. rewrite <- Harn.
  destruct (as_string (cfn.ResourceProperties event !! "RepositoryArn")) as [arn|]; [|done].
  cbn [bindR] in *. cbv zeta in *.
  destruct (decide (length (FindStringSubmatch ecrRepositoryArnPattern arn) ≠ 4)); [done|].
  destruct (name_ParseReference _) as [e'|target]; [done|]. cbn [bindR] in *.
  by rewrite Hsel in Herr.
Qed.

Lemma resolveSource_agree event event' :
  cfn.ResourceProperties event !! "ImageReference"
    = cfn.ResourceProperties event' !! "ImageReference" →
  resolveSource event = resolveSource event'.
Proof. intros H. unfold resolveSource. by rewrite H. Qed.

Lemma validate_inr_platform event properties event' :
  validate event = inr properties →
  cfn.ResourceProperties event !! "ImageReference"
    = cfn.ResourceProperties event' !! "ImageReference" →
  cfn.ResourceProperties event !! "RepositoryArn"
    = cfn.ResourceProperties event' !! "RepositoryArn" →
  validate event'
  = bindR (selectedPlatform event') (fun platform => inr (withPlatform properties platform)).
Proof.
  intros Hok Hi Ha. rewrite validate_halves in Hok |- *.
  rewrite <- (resolveSource_agree event event' Hi).
  destruct (resolveSource event) as [e|src]; [done|]. cbn [bindR] in *.
  by apply (resolveTarget_inr event).
Qed.

Lemma validate_inl_platform event e platform event' :
  validate event = inl e →
  selectedPlatform event = inr platform →
  cfn.ResourceProperties event !! "ImageReference"
    = cfn.ResourceProperties event' !! "ImageReference" →
  cfn.ResourceProperties event !! "RepositoryArn"
    = cfn.ResourceProperties event' !! "RepositoryArn" →
  validate event' = inl e.
Proof.
  intros Herr Hsel Hi Ha. rewrite validate_halves in Herr |- *.
  rewrite <- (resolveSource_agree event event' Hi).
  destruct (resolveSource event) as [e'|src]; [done|]. cbn [bindR] in *.
  by apply (resolveTarget_inl event src e platform).
Qed.

End platform_facts.
End platform_facts.

(** ** Every path of [create] and of [Handler] *)

Module lifecycle_facts.
Import handler notions traces.

Lemma calls_Net `{Types} (c : Call) (t : list Effect) : calls (Net c :: t) = c :: calls t.
Proof. done. Qed.

Lemma calls_Log `{Types} (msg : string) (t : list Effect) : calls (Log msg :: t) = calls t.
Proof. done. Qed.

Lemma calls_nil `{Types} : calls [] = [].
Proof. done. Qed.

Section lifecycle_facts.
Context {T : Types} {P : Packages} (W : World).

(** [create] step by step, without the plumbing. *)
Lemma create_paths event authenticator :
  create W event authenticator =
  match validate event with
  | inl e => (failed e, [])
  | inr properties =>
    match remote_NewPuller W with
    | Some e => (failed ("failed to create puller for repository: " +:+ e), [])
    | None =>
    match remote_NewPusher W with
    | Some e => (failed ("failed to create pusher for repository: " +:+ e), [])
    | None =>
    let get := Net (PullerGet (Platform properties) (Source properties)) in
    match puller_Get W (Platform properties) (Source properties) with
    | inl e => (failed ("failed to get descriptor for repository: " +:+ e), [get])
    | inr descriptor =>
      let done :=
        {| physicalResourceID := name_String (Target properties);
           data := Some (createData properties descriptor);
           err := None |} in
      match Platform properties with
      | None =>
          let push := Net (PusherPush (Target properties) (TDescriptor descriptor) authenticator) in
          match pusher_Push W (Target properties) (TDescriptor descriptor) authenticator with
          | Some e => (failed ("failed to push descriptor: " +:+ e), [get; push])
          | None => (done, [get; push])
          end
      | Some _ =>
          let resolve := Net (DescriptorImage descriptor) in
          match descriptor_Image W descriptor with
          | inl e =>
              (failed ("failed to get the platform specific image from descriptor: " +:+ e),
               [get; resolve])
          | inr image =>
              let push := Net (PusherPush (Target properties) (TImage image) authenticator) in
              match pusher_Push W (Target properties) (TImage image) authenticator with
              | Some e => (failed ("failed to push image: " +:+ e), [get; resolve; push])
              | None => (done, [get; resolve; push])
              end
          end
      end
    end
    end
    end
  end.
Proof.
  unfold create, bindE, bind, ret, check, effect, wrapErr, createData; simpl.
  destruct (validate event) as [e|properties]; simpl; [done|].
  destruct (remote_NewPuller W); simpl; [done|].
  destruct (remote_NewPusher W); simpl; [done|].
  destruct (puller_Get W _ _) as [e|descriptor]; simpl; [done|].
  destruct (Platform properties); simpl.
  - destruct (descriptor_Image W descriptor) as [e|image]; simpl; [done|].
    by destruct (pusher_Push W _ _ _).
  - by destruct (pusher_Push W _ _ _).
Qed.

(** [Handler] step by step. *)
Lemma Handler_paths event :
  Handler W event =
  match session_NewSessionWithOptions W with
  | Some e => (failed e, [])
  | None =>
    match (getAuthentication W).1 with
    | inl e => (failed e, [Net GetAuthorizationToken])
    | inr basicAuthentication =>
      let token := Net GetAuthorizationToken in
      if decide (cfn.ResourceType event = "Custom::ContainerImage") then
        if decide (cfn.RequestType event = cfn.RequestCreate) then
          let r := (create W event basicAuthentication).1 in
          (if decide (physicalResourceID r = "")
           then {| physicalResourceID := "create-failed"; data := data r; err := err r |}
           else r,
           token :: (create W event basicAuthentication).2)
        else if decide (cfn.RequestType event = cfn.RequestUpdate) then
          ((create W event basicAuthentication).1, token :: (create W event basicAuthentication).2)
        else if decide (cfn.RequestType event = cfn.RequestDelete) then
          ((delete W event basicAuthentication).1, token :: (delete W event basicAuthentication).2)
        else (failed ("unsupported request type: " +:+ cfn.RequestType event), [token])
      else (failed ("unsupported resource type: " +:+ cfn.ResourceType event), [token])
    end
  end.
Proof.
  unfold Handler. destruct (session_NewSessionWithOptions W); [done|].
  pose proof (handler_facts.getAuthentication_effects W) as He.
  destruct (getAuthentication W) as [[e|auth] t]; cbn [fst snd] in *; subst t;
    unfold bind at 1; cbn [fst snd]; [done|].
  cbv zeta. destruct (decide (cfn.ResourceType event = _)); [|done].
  destruct (decide (cfn.RequestType event = cfn.RequestCreate)).
  { unfold bind, ret. cbn [fst snd]. by rewrite app_nil_r. }
  destruct (decide (cfn.RequestType event = cfn.RequestUpdate)).
  { by destruct (create W event auth). }
  destruct (decide (cfn.RequestType event = cfn.RequestDelete)); [|done].
  by destruct (delete W event auth).
Qed.

End lifecycle_facts.
End lifecycle_facts.

(** ** Reference resolution *)

Import examples model_facts platform_facts.

(** C9: validation rejects every repository ARN whose repository name is a
    single character. Whatever precedes [:repository/], an ARN that ends in
    [:repository/] and one character does not match the pattern, so
    [validate] returns an error for every event that carries it, and that
    error is the invalid-ARN error as soon as the same event passes with
    another ARN; [arn:aws:ecr:eu-central-1:444093529715:repository/a] is
    such an ARN. *)
Theorem C9_single_character_repository_rejected :
  (∀ (T : Types) (P : Packages) (event : cfn.Event) (pre : string) (c : ascii),
     as_string (cfn.ResourceProperties event !! "RepositoryArn")
       = Some (pre +:+ ":repository/" +:+ String c "") →
     FindStringSubmatch ecrRepositoryArnPattern (pre +:+ ":repository/" +:+ String c "") = [] ∧
     (∃ e, validate event = inl e) ∧
     (∀ arn properties,
        validate (withProperty event "RepositoryArn" (VString arn)) = inr properties →
        validate event
          = inl ("Invalid AWS ECR repository ARN: " +:+ pre +:+ ":repository/" +:+ String c ""))) ∧
  validate shortArn
    = inl "Invalid AWS ECR repository ARN: arn:aws:ecr:eu-central-1:444093529715:repository/a".
Proof.
  split; [|by vm_compute].
  intros T P event pre c Harn.
  pose proof (ecrRepositoryArnPattern_single pre c) as Hno.
  split; [done|]. split.
  - rewrite validate_halves. destruct (resolveSource event) as [e|src]; cbn [bindR]; [eauto|].
    rewrite (resolveTarget_mismatch _ _ _ Harn); [eauto|]. by rewrite Hno.
  - intros arn properties. rewrite !validate_halves, resolveSource_withProperty by done.
    destruct (resolveSource event) as [e|src]; cbn [bindR]; [done|]. intros _.
    rewrite (resolveTarget_mismatch _ _ _ Harn); [done|]. by rewrite Hno.
Qed.

Lemma C9_witness :
  FindStringSubmatch ecrRepositoryArnPattern "arn:aws:ecr:eu-central-1:444093529715:repository/a" = [] ∧
  (∃ e, validate shortArn = inl e) ∧
  (∀ arn properties,
     validate (withProperty shortArn "RepositoryArn" (VString arn)) = inr properties →
     validate shortArn
       = inl "Invalid AWS ECR repository ARN: arn:aws:ecr:eu-central-1:444093529715:repository/a").
Proof.
  apply (proj1 C9_single_character_repository_rejected model.types model.packages shortArn
           "arn:aws:ecr:eu-central-1:444093529715" "a"%char).
  reflexivity.
Defined.

(** C10: a [Platform] property that is present but not a string (a number, a
    list) does not fail validation with a format error: it is treated as
    absent, and the platform is linux/amd64. For every such event,
    [validate] returns what it returns without the property; the event is
    valid as soon as it is valid with some [Platform] string in the place of
    the value, and then with the same properties but for the platform,
    linux/amd64; and an error it returns is no error of the platform, since
    it is returned whatever is put in the place of the value. So the events
    with the number 64 and with a list for a platform are valid, with
    linux/amd64, for the packages of the model. *)
Theorem C10_non_string_platform_is_default :
  (∀ (T : Types) (P : Packages) (event : cfn.Event) (v : Value),
     cfn.ResourceProperties event !! "Platform" = Some v →
     (∀ s, v ≠ VString s) →
     selectedPlatform event = inr (Some linuxAmd64) ∧
     validate event = validate (withoutProperty event "Platform") ∧
     (∀ properties, validate event = inr properties → Platform properties = Some linuxAmd64) ∧
     (∀ s properties,
        validate (withProperty event "Platform" (VString s)) = inr properties →
        validate event = inr (withPlatform properties (Some linuxAmd64))) ∧
     (∀ e, validate event = inl e →
           ∀ v', validate (withProperty event "Platform" v') = inl e)) ∧
  (∃ properties,
     validate numericPlatform = inr properties ∧
     validate (withoutProperty numericPlatform "Platform") = inr properties ∧
     Platform properties = Some linuxAmd64 ∧
     name_String (Target properties)
     = "444093529715.dkr.ecr.eu-central-1.amazonaws.com/cfn-container-image-provider-demo:3.9") ∧
  (∃ properties,
     validate listPlatform = inr properties ∧
     validate (withoutProperty listPlatform "Platform") = inr properties ∧
     Platform properties = Some linuxAmd64 ∧
     name_String (Target properties)
     = "444093529715.dkr.ecr.eu-central-1.amazonaws.com/cfn-container-image-provider-demo:3.9").
Proof.
  split; [|split; eexists; (split; [vm_compute; reflexivity|]);
                  (split; [vm_compute; reflexivity|]); split; vm_compute; reflexivity].
  intros T P event v Hv Hns.
  assert (Has : as_string (cfn.ResourceProperties event !! "Platform") = None).
  { rewrite Hv. destruct v; try done. by destruct (Hns s). }
  assert (Hsel : selectedPlatform event = inr (Some linuxAmd64)).
  { unfold selectedPlatform. by rewrite Has. }
  split; [done|]. split; [|split; [|split]].
  - rewrite !validate_halves. unfold resolveSource, resolveTarget, withoutProperty.
    cbn [cfn.ResourceProperties].
    rewrite !lookup_delete_ne by done. rewrite lookup_delete_eq. by rewrite Has.
  - intros properties Hok. apply validate_inr in Hok as (? & ? & ? & _ & _ & Hrest).
    cbv zeta in Hrest. destruct Hrest as (_ & _ & _ & _ & _ & _ & _ & _ & _ & Hp).
    rewrite Hsel in Hp. by injection Hp as <-.
  - intros s properties Hok.
    rewrite (validate_inr_platform _ properties event Hok), Hsel; [done|..];
      unfold withProperty; cbn [cfn.ResourceProperties]; by rewrite lookup_insert_ne.
  - intros e Herr v'.
    apply (validate_inl_platform event e (Some linuxAmd64)); [done..| |];
      unfold withProperty; cbn [cfn.ResourceProperties]; by rewrite lookup_insert_ne.
Qed.

Lemma C10_witness :
  selectedPlatform numericPlatform = inr (Some linuxAmd64) ∧
  validate numericPlatform = validate (withoutProperty numericPlatform "Platform") ∧
  (∀ properties, validate numericPlatform = inr properties →
                 Platform properties = Some linuxAmd64) ∧
  (∀ s properties,
     validate (withProperty numericPlatform "Platform" (VString s)) = inr properties →
     validate numericPlatform = inr (withPlatform properties (Some linuxAmd64))) ∧
  (∀ e, validate numericPlatform = inl e →
        ∀ v', validate (withProperty numericPlatform "Platform" v') = inl e).
Proof.
  apply (proj1 C10_non_string_platform_is_default model.types model.packages numericPlatform
           (VNumber 64)).
  - vm_compute. reflexivity.
  - intros s. discriminate.
Defined.

(** C6: reference parsing applies the default-tag policy. With the tag and
    the digest that the reference grammar finds in the parsed reference: a
    reference with neither gets the tag [latest]; a reference with only a
    digest keeps an empty tag and that digest; a reference with a tag keeps
    that tag. With the reference package of the model, the parsed reference
    reads as the property itself, and the tag and the digest at stake are the
    fields of the parsed reference. So it is for [python],
    [python@sha256:...], [python:3.9] and [python:3.9@sha256:...]. *)
Theorem C6_default_tag_policy :
  (∀ (T : Types) (P : Packages) (event : cfn.Event) (ref : string)
     (imageReference : reference_Reference) (properties : resourceProperties),
     as_string (cfn.ResourceProperties event !! "ImageReference") = Some ref →
     reference_Parse ref = inr imageReference →
     validate event = inr properties →
     let parts := FindStringSubmatch reference_ReferenceRegexp (reference_String imageReference) in
     let tag := at_index parts 2 in
     let digest := at_index parts 3 in
     SourceDigest properties = digest ∧
     (tag = "" → digest = "" → SourceTag properties = "latest") ∧
     (tag = "" → digest ≠ "" → SourceTag properties = "") ∧
     (tag ≠ "" → SourceTag properties = tag)) ∧
  (∀ (event : cfn.Event) (ref : string) (imageReference : reference.Reference)
     (properties : resourceProperties),
     as_string (cfn.ResourceProperties event !! "ImageReference") = Some ref →
     reference.Parse ref = inr imageReference →
     validate event = inr properties →
     reference.String_ imageReference = ref ∧
     SourceDigest properties = reference.digest imageReference ∧
     (reference.tag imageReference = "" → reference.digest imageReference = "" →
      SourceTag properties = "latest") ∧
     (reference.tag imageReference = "" → reference.digest imageReference ≠ "" →
      SourceTag properties = "") ∧
     (reference.tag imageReference ≠ "" →
      SourceTag properties = reference.tag imageReference)) ∧
  (∃ properties, validate (pull "python") = inr properties ∧
     SourceTag properties = "latest" ∧ SourceDigest properties = "") ∧
  (∃ properties, validate (pull ("python@" +:+ python39Digest)) = inr properties ∧
     SourceTag properties = "" ∧ SourceDigest properties = python39Digest) ∧
  (∃ properties, validate (pull "python:3.9") = inr properties ∧
     SourceTag properties = "3.9" ∧ SourceDigest properties = "") ∧
  (∃ properties, validate (pull ("python:3.9@" +:+ python39Digest)) = inr properties ∧
     SourceTag properties = "3.9" ∧ SourceDigest properties = python39Digest).
Proof.
  split.
  - intros T P event ref imageReference properties Href Hparse Hok parts tag digest.
    apply validate_inr in Hok as (ref' & imageReference' & arn & Href' & Hparse' & Hrest).
    cbv zeta in Hrest. destruct Hrest as (_ & Hd & Ht & _).
    assert (ref' = ref) as -> by congruence.
    assert (imageReference' = imageReference) as -> by congruence.
    fold parts in Hd, Ht. fold tag in Ht. fold digest in Hd, Ht.
    split; [done|]. rewrite Ht. repeat split; intros; case_decide; intuition congruence.
  - split.
    + intros event ref imageReference properties Href Hparse Hok.
      destruct (validate_parsed _ _ _ _ Href Hparse Hok) as (Hs & _ & Hd & Ht).
      split; [done|]. split; [done|].
      rewrite Ht. repeat split; intros; case_decide; intuition congruence.
    + repeat split; eexists; (split; [vm_compute; reflexivity|]); by vm_compute.
Qed.

Lemma C6_witness :
  let parts := FindStringSubmatch reference_ReferenceRegexp
                 (reference_String ({| reference.domain := ""; reference.path := "python";
                                       reference.tag := ""; reference.digest := "" |}
                                    : reference_Reference)) in
  ∃ properties,
    validate (pull "python") = inr properties ∧
    SourceDigest properties = at_index parts 3 ∧
    (at_index parts 2 = "" → at_index parts 3 = "" → SourceTag properties = "latest") ∧
    (at_index parts 2 = "" → at_index parts 3 ≠ "" → SourceTag properties = "") ∧
    (at_index parts 2 ≠ "" → SourceTag properties = at_index parts 2).
Proof.
  eexists. split; [vm_compute; reflexivity|].
  apply (proj1 C6_default_tag_policy model.types model.packages (pull "python") "python").
  - vm_compute. reflexivity.
  - vm_compute. reflexivity.
  - vm_compute. reflexivity.
Defined.



(** ** The lifecycle *)

Import lifecycle_facts.

(** C7: with the session and the credentials in place, a Create whose
    resolution or mirroring fails returns the physical resource id
    [create-failed] with the error; an Update that fails returns the error
    with an empty physical id. *)
Theorem C7_create_failed_sentinel :
  ∀ (T : Types) (P : Packages) (W : World) (event : cfn.Event)
    (basicAuthentication : authn.Basic) (e : error),
    session_NewSessionWithOptions W = None →
    (getAuthentication W).1 = inr basicAuthentication →
    cfn.ResourceType event = "Custom::ContainerImage" →
    err (create W event basicAuthentication).1 = Some e →
    (cfn.RequestType event = cfn.RequestCreate →
     (Handler W event).1
     = {| physicalResourceID := "create-failed"; data := None; err := Some e |}) ∧
    (cfn.RequestType event = cfn.RequestUpdate →
     (Handler W event).1 = {| physicalResourceID := ""; data := None; err := Some e |}).
Proof.
  intros T P W event auth e. apply Handler_create_failed.
Qed.

Lemma C7_witness :
  let W := pushDenied in
  let auth := {| authn.Username := "AWS"; authn.Password := "password" |} in
  let e := "failed to push image: DENIED: access denied" in
  (cfn.RequestType (withTagAndDigest cfn.RequestCreate) = cfn.RequestCreate →
   (Handler W (withTagAndDigest cfn.RequestCreate)).1
   = {| physicalResourceID := "create-failed"; data := None; err := Some e |}) ∧
  (cfn.RequestType (withTagAndDigest cfn.RequestCreate) = cfn.RequestUpdate →
   (Handler W (withTagAndDigest cfn.RequestCreate)).1
   = {| physicalResourceID := ""; data := None; err := Some e |}).
Proof.
  intros W auth e.
  apply (C7_create_failed_sentinel model.types model.packages W
           (withTagAndDigest cfn.RequestCreate) auth e).
  - reflexivity.
  - vm_compute. reflexivity.
  - reflexivity.
  - vm_compute. reflexivity.
Defined.

(** C3, as the code has it: [delete] itself never returns an error, and a
    Delete request for [Custom::ContainerImage] returns none once the session
    and the credentials are in place. A physical resource id that does not
    parse is logged and no registry is called; a deletion that fails is
    logged after the call. *)
Theorem C3_delete_swallows_registry_errors :
  ∀ (T : Types) (P : Packages) (W : World) (event : cfn.Event)
    (basicAuthentication : authn.Basic),
    session_NewSessionWithOptions W = None →
    (getAuthentication W).1 = inr basicAuthentication →
    cfn.ResourceType event = "Custom::ContainerImage" →
    cfn.RequestType event = cfn.RequestDelete →
    (delete W event basicAuthentication).1
      = {| physicalResourceID := ""; data := None; err := None |} ∧
    (Handler W event).1 = {| physicalResourceID := ""; data := None; err := None |} ∧
    (Handler W event).2 =
      Net GetAuthorizationToken
      :: match name_ParseReference (cfn.PhysicalResourceID event) with
         | inl _ =>
             [Log ("ignoring invalid physical resource id " +:+ cfn.PhysicalResourceID event)]
         | inr imageReference =>
             Net (RemoteDelete imageReference basicAuthentication)
             :: match remote_Delete W imageReference basicAuthentication with
                | Some e =>
                    [Log ("ignoring failed delete of image " +:+ cfn.PhysicalResourceID event
                          +:+ ", " +:+ e)]
                | None => []
                end
         end.
Proof.
  intros T P W event auth Hs Ha Ht Hr.
  rewrite (Handler_Delete W _ auth Hs Ha Ht Hr). cbn [fst snd].
  rewrite delete_returns, delete_effects. done.
Qed.

Lemma C3_witness :
  let auth := {| authn.Username := "AWS"; authn.Password := "password" |} in
  (delete pushDenied deleteDemo auth).1
    = {| physicalResourceID := ""; data := None; err := None |} ∧
  (Handler pushDenied deleteDemo).1 = {| physicalResourceID := ""; data := None; err := None |} ∧
  (Handler pushDenied deleteDemo).2 =
    Net GetAuthorizationToken
    :: match name_ParseReference (cfn.PhysicalResourceID deleteDemo) with
       | inl _ =>
           [Log ("ignoring invalid physical resource id " +:+ cfn.PhysicalResourceID deleteDemo)]
       | inr imageReference =>
           Net (RemoteDelete imageReference auth)
           :: match remote_Delete pushDenied imageReference auth with
              | Some e =>
                  [Log ("ignoring failed delete of image " +:+ cfn.PhysicalResourceID deleteDemo
                        +:+ ", " +:+ e)]
              | None => []
              end
       end.
Proof.
  intros auth.
  apply (C3_delete_swallows_registry_errors model.types model.packages pushDenied deleteDemo auth).
  - reflexivity.
  - vm_compute. reflexivity.
  - reflexivity.
  - reflexivity.
Defined.

(** C3 as stated fails: when the authorization token cannot be fetched, a
    Delete request returns that error to the orchestrator, and nothing is
    deleted. *)
Lemma C3_delete_fails_without_credentials :
  Handler offline deleteDemo
  = ({| physicalResourceID := ""; data := None;
        err := Some "RequestError: send request failed" |},
     [Net GetAuthorizationToken]).
Proof. vm_compute. reflexivity. Qed.

(** C2, as the code has it: invalid properties end a Create or an Update
    before any registry is called, but validation is not the first step.
    [create] returns the validation error without a single effect. [Handler]
    first builds the session: when that fails it returns the error of the
    session and calls nothing. With a session it requests the authorization
    token from ECR before it validates, in every such invocation: when the
    request or the decoding of the token fails, it returns that error and the
    validation error is not raised; with credentials, and for the resource
    type [Custom::ContainerImage], it returns the validation error, with the
    sentinel for a Create, after that one call. *)
Theorem C2_validation_precedes_registry_calls :
  ∀ (T : Types) (P : Packages) (W : World) (event : cfn.Event) (e : error),
    validate event = inl e →
    cfn.RequestType event = cfn.RequestCreate ∨ cfn.RequestType event = cfn.RequestUpdate →
    (∀ authenticator, create W event authenticator = (failed e, [])) ∧
    ((Handler W event).2 = [] ∨ (Handler W event).2 = [Net GetAuthorizationToken]) ∧
    (∀ basicAuthentication,
       session_NewSessionWithOptions W = None →
       (getAuthentication W).1 = inr basicAuthentication →
       cfn.ResourceType event = "Custom::ContainerImage" →
       err (Handler W event).1 = Some e ∧ data (Handler W event).1 = None) ∧
    (∀ sessionError,
       session_NewSessionWithOptions W = Some sessionError →
       Handler W event = (failed sessionError, [])) ∧
    (session_NewSessionWithOptions W = None →
     (Handler W event).2 = [Net GetAuthorizationToken]) ∧
    (∀ tokenError,
       session_NewSessionWithOptions W = None →
       (getAuthentication W).1 = inl tokenError →
       Handler W event = (failed tokenError, [Net GetAuthorizationToken])) ∧
    (∀ basicAuthentication,
       session_NewSessionWithOptions W = None →
       (getAuthentication W).1 = inr basicAuthentication →
       cfn.ResourceType event = "Custom::ContainerImage" →
       Handler W event
       = ({| physicalResourceID :=
               if decide (cfn.RequestType event = cfn.RequestCreate) then "create-failed" else "";
             data := None;
             err := Some e |},
          [Net GetAuthorizationToken])).
Proof.
  intros T P W event e Hv Hr.
  assert (Hfull : ∀ auth,
    session_NewSessionWithOptions W = None →
    (getAuthentication W).1 = inr auth →
    cfn.ResourceType event = "Custom::ContainerImage" →
    Handler W event
    = ({| physicalResourceID :=
            if decide (cfn.RequestType event = cfn.RequestCreate) then "create-failed" else "";
          data := None;
          err := Some e |},
       [Net GetAuthorizationToken])).
  { intros auth Hs Ha Ht. rewrite (Handler_paths W event), Hs, Ha. cbv zeta.
    rewrite decide_True by done. rewrite (create_invalid W event auth e Hv).
    destruct (decide (cfn.RequestType event = cfn.RequestCreate)) as [Hc|Hc]; [done|].
    destruct Hr as [Hr|Hr]; [done|]. by rewrite decide_True. }
  split; [|split; [|split; [|split; [|split; [|split]]]]].
  - intros auth. by apply create_invalid.
  - by eapply Handler_invalid_effects.
  - intros auth Hs Ha Ht. by rewrite (Hfull auth Hs Ha Ht).
  - intros es Hs. by rewrite (Handler_paths W event), Hs.
  - intros Hs. rewrite (Handler_paths W event), Hs.
    destruct (getAuthentication W).1 as [ea|auth]; [done|]. cbv zeta.
    destruct (decide (cfn.ResourceType event = _)); [|done].
    rewrite (create_invalid W event auth e Hv).
    destruct Hr as [Hr|Hr]; rewrite Hr; [by rewrite decide_True|].
    rewrite decide_False by done. by rewrite decide_True.
  - intros ea Hs Ha. by rewrite (Handler_paths W event), Hs, Ha.
  - exact Hfull.
Qed.

Lemma C2_witness :
  let e := "Invalid AWS ECR repository ARN: arn:a:ws:ecr:eu-ce:ntral-1:444093529715:repository/python" in
  let W := registriesUp "QVdTOnBhc3N3b3Jk" in
  let event := incorrectArn cfn.RequestUpdate in
  (∀ authenticator, create W event authenticator = (failed e, [])) ∧
  ((Handler W event).2 = [] ∨ (Handler W event).2 = [Net GetAuthorizationToken]) ∧
  (∀ basicAuthentication,
     session_NewSessionWithOptions W = None →
     (getAuthentication W).1 = inr basicAuthentication →
     cfn.ResourceType event = "Custom::ContainerImage" →
     err (Handler W event).1 = Some e ∧ data (Handler W event).1 = None) ∧
  (∀ sessionError,
     session_NewSessionWithOptions W = Some sessionError →
     Handler W event = (failed sessionError, [])) ∧
  (session_NewSessionWithOptions W = None →
   (Handler W event).2 = [Net GetAuthorizationToken]) ∧
  (∀ tokenError,
     session_NewSessionWithOptions W = None →
     (getAuthentication W).1 = inl tokenError →
     Handler W event = (failed tokenError, [Net GetAuthorizationToken])) ∧
  (∀ basicAuthentication,
     session_NewSessionWithOptions W = None →
     (getAuthentication W).1 = inr basicAuthentication →
     cfn.ResourceType event = "Custom::ContainerImage" →
     Handler W event
     = ({| physicalResourceID :=
             if decide (cfn.RequestType event = cfn.RequestCreate) then "create-failed" else "";
           data := None;
           err := Some e |},
        [Net GetAuthorizationToken])).
Proof.
  intros e W event.
  apply (C2_validation_precedes_registry_calls model.types model.packages W event e).
  - vm_compute. reflexivity.
  - right. reflexivity.
Defined.

(** C2 as stated fails: for the invalid ARN of the tests the authorization
    token is requested from ECR before the validation error is returned, and
    when that request fails the validation error is not raised at all. *)
Lemma C2_token_call_precedes_validation :
  validate (incorrectArn cfn.RequestCreate)
  = inl "Invalid AWS ECR repository ARN: arn:a:ws:ecr:eu-ce:ntral-1:444093529715:repository/python" ∧
  Handler (registriesUp "QVdTOnBhc3N3b3Jk") (incorrectArn cfn.RequestCreate)
  = ({| physicalResourceID := "create-failed"; data := None;
        err := Some "Invalid AWS ECR repository ARN: arn:a:ws:ecr:eu-ce:ntral-1:444093529715:repository/python" |},
     [Net GetAuthorizationToken]) ∧
  Handler offline (incorrectArn cfn.RequestCreate)
  = ({| physicalResourceID := ""; data := None;
        err := Some "RequestError: send request failed" |},
     [Net GetAuthorizationToken]).
Proof. repeat split; vm_compute; reflexivity. Qed.

(** ** The attributes of a successful mirror *)

(** C4, as the code has it: the [Platforms] attribute of a successful
    mirror. For the platform [all] and a source that reads as a manifest
    index it lists the platform strings of the index's manifests, in manifest
    order (a manifest without platform has no string), and for the platform
    [all] and a source that does not read as an index it is empty; for an
    explicit platform it is the one string of that platform; without a
    platform it is the one string of linux/amd64. The platform string is the
    one of the registry library: os/arch or os/arch/variant for a platform
    with an OS and an architecture and without OS version, the same followed
    by a colon and the OS version for one with an OS version, and the empty
    string for a platform without OS; in general the OS followed by
    /architecture, /variant and :version for those that are set. The index of
    [python39Index] gives linux/amd64, linux/arm/v7 and linux/arm64/v8, and
    the single image [python37Image] gives no platform. *)
Theorem C4_platforms_attribute :
  (∀ (T : Types) (P : Packages) (W : World) (event : cfn.Event) (authenticator : authn.Basic),
     err (create W event authenticator).1 = None →
     ∃ properties descriptor d platforms,
       validate event = inr properties ∧
       puller_Get W (Platform properties) (Source properties) = inr descriptor ∧
       data (create W event authenticator).1 = Some d ∧
       d !! "Platforms" = Some (VStrings platforms) ∧
       (∀ s index indexManifest,
          as_string (cfn.ResourceProperties event !! "Platform") = Some s →
          strings_TrimSpace (strings_ToLower s) = "all" →
          remote_Descriptor_ImageIndex descriptor = inr index →
          v1_IndexManifest index = inr indexManifest →
          platforms = omap (fun manifest => v1_Platform_String <$> v1.Descriptor.Platform manifest)
                        (v1.Manifests indexManifest)) ∧
       (∀ s,
          as_string (cfn.ResourceProperties event !! "Platform") = Some s →
          strings_TrimSpace (strings_ToLower s) = "all" →
          (∀ index, remote_Descriptor_ImageIndex descriptor = inr index →
                    ∃ e, v1_IndexManifest index = inl e) →
          platforms = []) ∧
       (∀ s,
          as_string (cfn.ResourceProperties event !! "Platform") = Some s →
          strings_TrimSpace (strings_ToLower s) ≠ "all" →
          ∃ platform, v1_ParsePlatform s = inr platform ∧
                      platforms = [v1_Platform_String platform]) ∧
       (as_string (cfn.ResourceProperties event !! "Platform") = None →
        platforms = [v1_Platform_String linuxAmd64])) ∧
  (∀ platform : v1.Platform,
     v1.OS platform ≠ "" → v1.Architecture platform ≠ "" → v1.OSVersion platform = "" →
     v1_Platform_String platform
     = v1.OS platform +:+ "/" +:+ v1.Architecture platform
       +:+ (if decide (v1.Variant platform = "") then "" else "/" +:+ v1.Variant platform)) ∧
  (∀ platform : v1.Platform,
     v1.OS platform ≠ "" → v1.Architecture platform ≠ "" → v1.OSVersion platform ≠ "" →
     v1_Platform_String platform = osArchVariant platform +:+ ":" +:+ v1.OSVersion platform) ∧
  (∀ platform : v1.Platform, v1.OS platform = "" → v1_Platform_String platform = "") ∧
  (∀ platform : v1.Platform,
     v1_Platform_String platform
     = if decide (v1.OS platform = "") then "" else
       v1.OS platform
       +:+ (if decide (v1.Architecture platform ≠ "") then "/" +:+ v1.Architecture platform else "")
       +:+ (if decide (v1.Variant platform ≠ "") then "/" +:+ v1.Variant platform else "")
       +:+ (if decide (v1.OSVersion platform ≠ "") then ":" +:+ v1.OSVersion platform else "")) ∧
  v1_Platform_String linuxAmd64 = "linux/amd64" ∧
  (data (Handler (registriesUp "QVdTOnBhc3N3b3Jk") allPlatforms).1 ≫= (.!! "Platforms"))
  = Some (VStrings ["linux/amd64"; "linux/arm/v7"; "linux/arm64/v8"]) ∧
  (data (Handler singleImage allPlatforms).1 ≫= (.!! "Platforms")) = Some (VStrings []).
Proof.
  split; [|split; [|split; [|split; [|split; [|split; [|split]; vm_compute; reflexivity]]]]];
    cycle 1.
  { intros platform Hos Harch Hver. cbn [v1_Platform_String packages]. unfold platform.String_.
    rewrite Hver. rewrite (decide_False (P:=v1.OS platform = "")) by done.
    rewrite (decide_True (P:=v1.Architecture platform ≠ "")) by done.
    rewrite (decide_False (P:="" ≠ "")) by (intros Hn; by apply Hn).
    rewrite append_empty_r.
    destruct (decide (v1.Variant platform = "")) as [Hv|Hv].
    - rewrite decide_False by (intros Hn; by apply Hn). reflexivity.
    - rewrite decide_True by done. reflexivity. }
  { intros platform Hos Harch Hver. cbn [v1_Platform_String packages].
    unfold platform.String_, osArchVariant.
    rewrite (decide_False (P:=v1.OS platform = "")) by done.
    rewrite (decide_True (P:=v1.Architecture platform ≠ "")) by done.
    rewrite (decide_True (P:=v1.OSVersion platform ≠ "")) by done.
    destruct (decide (v1.Variant platform = "")) as [Hv|Hv].
    - rewrite decide_False by (intros Hn; by apply Hn). by rewrite !append_assoc.
    - rewrite decide_True by done. by rewrite !append_assoc. }
  { intros platform Hos. cbn [v1_Platform_String packages]. unfold platform.String_.
    by rewrite decide_True. }
  { intros platform. reflexivity. }
  intros T P W event auth Hok.
  apply create_succeeded in Hok as (properties & descriptor & pushed & Hv & Hget & _ & _ & Hr & _).
  destruct (createData_lookup properties descriptor) as (_ & _ & Hp).
  exists properties, descriptor, (createData properties descriptor). eexists.
  split; [done|]. split; [done|]. split; [by rewrite Hr|]. split; [exact Hp|].
  apply validate_inr in Hv as (? & ? & ? & _ & _ & Hrest).
  cbv zeta in Hrest. destruct Hrest as (_ & _ & _ & _ & _ & _ & _ & _ & _ & Hsel).
  unfold selectedPlatform in Hsel. split; [|split; [|split]].
  - intros s index indexManifest Hs Hall Hidx Hman. rewrite Hs in Hsel.
    rewrite decide_True in Hsel by done. injection Hsel as <-.
    unfold getPlatforms. by rewrite Hidx, Hman.
  - intros s Hs Hall Hidx. rewrite Hs in Hsel.
    rewrite decide_True in Hsel by done. injection Hsel as <-.
    unfold getPlatforms.
    destruct (remote_Descriptor_ImageIndex descriptor) as [e|index]; [done|].
    by destruct (Hidx index eq_refl) as [e ->].
  - intros s Hs Hall. rewrite Hs in Hsel. rewrite decide_False in Hsel by done.
    destruct (v1_ParsePlatform s) as [e|platform]; [done|].
    injection Hsel as <-. by exists platform.
  - intros Hs. rewrite Hs in Hsel. by injection Hsel as <-.
Qed.

Lemma C4_witness :
  ∃ properties descriptor d platforms,
    validate allPlatforms = inr properties ∧
    puller_Get (registriesUp "") (Platform properties) (Source properties) = inr descriptor ∧
    data (create (registriesUp "") allPlatforms
            {| authn.Username := "AWS"; authn.Password := "password" |}).1 = Some d ∧
    d !! "Platforms" = Some (VStrings platforms) ∧
    (∀ s index indexManifest,
       as_string (cfn.ResourceProperties allPlatforms !! "Platform") = Some s →
       strings_TrimSpace (strings_ToLower s) = "all" →
       remote_Descriptor_ImageIndex descriptor = inr index →
       v1_IndexManifest index = inr indexManifest →
       platforms = omap (fun manifest => v1_Platform_String <$> v1.Descriptor.Platform manifest)
                     (v1.Manifests indexManifest)) ∧
    (∀ s,
       as_string (cfn.ResourceProperties allPlatforms !! "Platform") = Some s →
       strings_TrimSpace (strings_ToLower s) = "all" →
       (∀ index, remote_Descriptor_ImageIndex descriptor = inr index →
                 ∃ e, v1_IndexManifest index = inl e) →
       platforms = []) ∧
    (∀ s,
       as_string (cfn.ResourceProperties allPlatforms !! "Platform") = Some s →
       strings_TrimSpace (strings_ToLower s) ≠ "all" →
       ∃ platform, v1_ParsePlatform s = inr platform ∧
                   platforms = [v1_Platform_String platform]) ∧
    (as_string (cfn.ResourceProperties allPlatforms !! "Platform") = None →
     platforms = [v1_Platform_String linuxAmd64]).
Proof.
  apply (proj1 C4_platforms_attribute model.types model.packages (registriesUp "") allPlatforms).
  vm_compute. reflexivity.
Defined.

(** C4 as stated fails: the entries are not all os/arch[/variant]. For an
    index with an image for Windows that names its OS version, the entry of
    that image is [windows/amd64:10.0.20348.2340], where os/arch[/variant]
    is [windows/amd64]. *)
Lemma C4_os_version_in_the_platform_string :
  let r := Handler servercoreUp allPlatforms in
  err r.1 = None ∧
  (data r.1 ≫= (.!! "Platforms"))
  = Some (VStrings ["linux/amd64"; "windows/amd64:10.0.20348.2340"]) ∧
  remote_Descriptor_ImageIndex servercoreIndex = inr servercoreIndex ∧
  v1_IndexManifest servercoreIndex
  = inr {| v1.Manifests := [entry amd64Digest (Some (platform "linux" "amd64" ""));
                            entry windowsDigest (Some windowsPlatform)] |} ∧
  osArchVariant (platform "linux" "amd64" "") = "linux/amd64" ∧
  osArchVariant windowsPlatform = "windows/amd64".
Proof. intros r. repeat split; vm_compute; reflexivity. Qed.

(** C5, as the code has it: the [Digest] attribute of a successful create or
    update is the digest of the descriptor fetched from the source. With the
    platform [all] that descriptor is what is pushed, so the attribute is the
    digest of the pushed artifact; with a platform, what is pushed is the
    image the descriptor resolves to, and the attribute is the descriptor's
    digest all the same. *)
Theorem C5_digest_of_the_fetched_descriptor :
  ∀ (T : Types) (P : Packages) (W : World) (event : cfn.Event) (authenticator : authn.Basic),
    err (create W event authenticator).1 = None →
    ∃ properties descriptor pushed d,
      validate event = inr properties ∧
      puller_Get W (Platform properties) (Source properties) = inr descriptor ∧
      data (create W event authenticator).1 = Some d ∧
      d !! "Digest" = Some (VString (v1.Hash_String (remote_Descriptor_Digest descriptor))) ∧
      last (create W event authenticator).2
        = Some (Net (PusherPush (Target properties) pushed authenticator)) ∧
      (Platform properties = None →
       pushed = TDescriptor descriptor ∧
       d !! "Digest" = Some (VString (v1.Hash_String (Taggable_Digest pushed)))) ∧
      (∀ platform, Platform properties = Some platform →
       ∃ image, descriptor_Image W descriptor = inr image ∧ pushed = TImage image).
Proof.
  intros T P W event auth Hok.
  apply create_succeeded in Hok
    as (properties & descriptor & pushed & Hv & Hget & Hpushed & _ & Hr & Ht).
  destruct (createData_lookup properties descriptor) as (Hd & _ & _).
  exists properties, descriptor, pushed, (createData properties descriptor).
  split; [done|]. split; [done|]. split; [by rewrite Hr|]. split; [exact Hd|].
  split; [|split].
  - rewrite Ht. by destruct (Platform properties).
  - intros Hp. rewrite Hp in Hpushed. simpl in Hpushed. by subst pushed.
  - intros platform Hp. by rewrite Hp in Hpushed.
Qed.

Lemma C5_witness :
  let auth := {| authn.Username := "AWS"; authn.Password := "password" |} in
  ∃ properties descriptor pushed d,
    validate allPlatforms = inr properties ∧
    puller_Get (registriesUp "") (Platform properties) (Source properties) = inr descriptor ∧
    data (create (registriesUp "") allPlatforms auth).1 = Some d ∧
    d !! "Digest" = Some (VString (v1.Hash_String (remote_Descriptor_Digest descriptor))) ∧
    last (create (registriesUp "") allPlatforms auth).2
      = Some (Net (PusherPush (Target properties) pushed auth)) ∧
    (Platform properties = None →
     pushed = TDescriptor descriptor ∧
     d !! "Digest" = Some (VString (v1.Hash_String (Taggable_Digest pushed)))) ∧
    (∀ platform, Platform properties = Some platform →
     ∃ image, descriptor_Image (registriesUp "") descriptor = inr image ∧ pushed = TImage image).
Proof.
  intros auth.
  apply (C5_digest_of_the_fetched_descriptor model.types model.packages (registriesUp "")
           allPlatforms auth).
  vm_compute. reflexivity.
Defined.

(** C5 as stated fails: for the multi-architecture [python:3.9] and the
    default platform the linux/amd64 image is pushed, with digest
    [sha256:2e94...], and the [Digest] attribute is the digest of the index,
    [sha256:3d35...]. *)
Lemma C5_index_digest_for_a_pushed_image :
  let r := Handler (registriesUp "QVdTOnBhc3N3b3Jk") (withTagAndDigest cfn.RequestCreate) in
  err r.1 = None ∧
  (data r.1 ≫= (.!! "Digest"))
  = Some (VString "sha256:3d35a404db586d00a4ee5a65fd1496fe019ed4bdc068d436a67ce5b64b8b9659") ∧
  ∃ target image auth,
    last r.2 = Some (Net (PusherPush target (TImage image) auth)) ∧
    v1.Hash_String (Taggable_Digest (TImage image))
    = "sha256:2e94e493d6d5010d739ea473e44ea40f7c6e168bcb78e0c5a48c64f06aafbf5f".
Proof.
  intros r. split; [by vm_compute|]. split; [by vm_compute|].
  eexists _, _, _. split; vm_compute; reflexivity.
Qed.

(** C8: Create is idempotent. Two Create invocations for the same event, in
    two worlds whose source registry answers alike, that both succeed return
    the same physical resource id and the same attributes, [Digest] and
    [ImageReference] among them. *)
Theorem C8_create_is_idempotent :
  ∀ (T : Types) (P : Packages) (W1 W2 : World) (event : cfn.Event),
    cfn.RequestType event = cfn.RequestCreate →
    (∀ platform ref, puller_Get W1 platform ref = puller_Get W2 platform ref) →
    err (Handler W1 event).1 = None →
    err (Handler W2 event).1 = None →
    (Handler W1 event).1 = (Handler W2 event).1 ∧
    ∃ d digest target,
      data (Handler W1 event).1 = Some d ∧
      d !! "Digest" = Some (VString digest) ∧
      d !! "ImageReference" = Some (VString target).
Proof.
  intros T P W1 W2 event Hr Hsame Hok1 Hok2.
  destruct (Handler_succeeded W1 _ Hok1) as (Hs1 & Ht & auth1 & Ha1).
  destruct (Handler_succeeded W2 _ Hok2) as (Hs2 & _ & auth2 & Ha2).
  destruct (Handler_Create_results W1 _ auth1 Hs1 Ha1 Ht Hr) as [He1 Hd1].
  destruct (Handler_Create_results W2 _ auth2 Hs2 Ha2 Ht Hr) as [He2 Hd2].
  rewrite He1 in Hok1. rewrite He2 in Hok2. rewrite Hd1.
  rewrite (Handler_Create W1 _ auth1 Hs1 Ha1 Ht Hr), (Handler_Create W2 _ auth2 Hs2 Ha2 Ht Hr).
  cbv zeta.
  apply create_succeeded in Hok1 as (p1 & d1 & ? & Hv1 & Hg1 & _ & _ & -> & _).
  apply create_succeeded in Hok2 as (p2 & d2 & ? & Hv2 & Hg2 & _ & _ & -> & _).
  assert (p2 = p1) as -> by congruence.
  rewrite Hsame in Hg1. assert (d2 = d1) as -> by congruence.
  split; [done|].
  destruct (createData_lookup p1 d1) as (Hd & Hi & _).
  exists (createData p1 d1). eexists _, _. by repeat split.
Qed.

Lemma C8_witness :
  let W1 := registriesUp "QVdTOnBhc3N3b3Jk" in
  let W2 := registriesUp "QVdTOnNlY3JldA==" in
  let event := withTagAndDigest cfn.RequestCreate in
  (Handler W1 event).1 = (Handler W2 event).1 ∧
  ∃ d digest target,
    data (Handler W1 event).1 = Some d ∧
    d !! "Digest" = Some (VString digest) ∧
    d !! "ImageReference" = Some (VString target).
Proof.
  intros W1 W2 event.
  apply (C8_create_is_idempotent model.types model.packages W1 W2 event).
  - reflexivity.
  - intros platform ref. reflexivity.
  - vm_compute. reflexivity.
  - vm_compute. reflexivity.
Defined.

(** ** The matcher finds the match there is *)

Module complete_facts.
Import regexp shapes arns go_facts regexp_facts submatch_facts.

Lemma strip_prefix_app p s : strip_prefix p (p ++ s) = Some s.
Proof.
  induction p as [|a p IH]; [done|]. simpl. unfold ascii_eqb. by rewrite Ascii.eqb_refl.
Qed.

Lemma run_unfold r w s c k :
  run r w s c k =
  match r with
  | EmptyMatch => k s c
  | Literal l =>
      match strip_prefix l s with
      | Some s' => k s' c
      | None => None
      end
  | CharClass ranges =>
      match s with
      | a :: s' => if in_class ranges a then k s' c else None
      | [] => None
      end
  | Concat r1 r2 => run r1 w s c (fun s' c' => run r2 w s' c' k)
  | Alternate r1 r2 =>
      match run r1 w s c k with
      | Some res => Some res
      | None => run r2 w s c k
      end
  | Star r1 =>
      (fix loop (n : nat) (s : list ascii) (c : Caps) {struct n} : option Caps :=
         match n with
         | O => k s c
         | S n' =>
             match run r1 w s c
                     (fun s' c' => if (length s' <? length s)%nat then loop n' s' c' else None) with
             | Some res => Some res
             | None => k s c
             end
         end) (length s) s c
  | Capture i r1 => run r1 w s c (fun s' c' => k s' (<[i := consumed s s']> c'))
  | BeginText => if (length s =? length w)%nat then k s c else None
  | EndText => match s with [] => k s c | _ => None end
  end.
Proof. by destruct r. Qed.

(** Whatever the continuation accepts of what [r] matches, the run returns a
    result. *)
Lemma run_complete r : progressive r = true → ∀ w s c k y,
  Match w r (s, c) y → is_Some (k y.1 y.2) → is_Some (run r w s c k).
Proof.
  induction r as [| l | ranges | r1 IH1 r2 IH2 | r1 IH1 r2 IH2 | r1 IH1 | i r1 IH1 | |];
    cbn [progressive]; intros Hp w s c k y; rewrite run_unfold; cbn [Match].
  - by intros <-.
  - intros [Hs Hc]. simpl in Hs, Hc. subst s c. by rewrite strip_prefix_app.
  - intros (a & Hs & Ha & Hc). simpl in Hs, Hc. subst s c. by rewrite Ha.
  - apply andb_prop in Hp as [Hp1 Hp2]. intros ([s1 c1] & M1 & M2) Hk.
    apply (IH1 Hp1 w s c _ (s1, c1) M1). cbn [fst snd]. by apply (IH2 Hp2 w s1 c1 k y).
  - apply andb_prop in Hp as [Hp1 Hp2]. intros [M|M] Hk.
    + destruct (IH1 Hp1 w s c k y M Hk) as [res ->]. done.
    + destruct (run r1 w s c k); [done|]. by apply (IH2 Hp2 w s c k y).
  - apply andb_prop in Hp as [Hn Hp]. intros M Hk.
    assert (Hlen : (length s <= length s)%nat) by lia. revert Hlen.
    generalize (length s) at 2 3. intros n. revert s c M.
    induction n as [|n IHn]; intros s c M Hlen.
    + destruct s; [|simpl in Hlen; lia].
      apply rtc_inv in M as [<-|(z & M1 & _)]; [done|].
      destruct (Match_consumes _ _ _ _ M1) as (t & Ht). simpl in Ht.
      destruct t; [|done]. by destruct (Match_nonempty _ _ Hn _ _ [] M1 Ht).
    + apply rtc_inv in M as [<-|([s1 c1] & M1 & M)].
      { cbn [fst snd] in Hk. by destruct (run r1 w s c _). }
      destruct (Match_consumes _ _ _ _ M1) as (t & Ht). simpl in Ht.
      pose proof (Match_nonempty _ _ Hn _ _ t M1 Ht) as Hne.
      assert (Hlt : (length s1 < length s)%nat).
      { subst s. rewrite length_app. destruct t; [done|]. simpl. lia. }
      match goal with
      | |- is_Some (match ?x with _ => _ end) =>
          assert (Hrun : is_Some x); [|by destruct Hrun as [res ->]]
      end.
      apply (IH1 Hp w s c _ (s1, c1) M1). cbn [fst snd].
      apply Nat.ltb_lt in Hlt as Hlt'. rewrite Hlt'. apply IHn; [done|lia].
  - intros (c' & M & Hy) Hk. apply (IH1 Hp w s c _ (y.1, c') M). cbn [fst snd] in *.
    by rewrite <- Hy.
  - intros [<- Hlen] Hk. simpl in Hlen. apply Nat.eqb_eq in Hlen. by rewrite Hlen.
  - intros [<- Hs] Hk. simpl in Hs. by subst s.
Qed.

Lemma search_unfold re w s :
  search re w s =
  match run re w s (replicate (S (NumSubexp re)) [])
          (fun s' c => Some (<[0 := consumed s s']> c)) with
  | Some c => Some c
  | None =>
      match s with
      | [] => None
      | _ :: s' => search re w s'
      end
  end.
Proof. by destruct s. Qed.

(** A match at the start of the input is a result of the search. *)
Lemma search_complete re w y :
  progressive re = true →
  Match w re (w, replicate (S (NumSubexp re)) []) y →
  is_Some (search re w w).
Proof.
  intros Hp M.
  assert (H : is_Some (run re w w (replicate (S (NumSubexp re)) [])
                         (fun s' c => Some (<[0 := consumed w s']> c)))).
  { by apply (run_complete re Hp w w _ _ y M). }
  destruct H as [res H]. rewrite search_unfold. by rewrite H.
Qed.

(** The characters of a class, one or more. *)
Lemma Match_Plus w ranges t s c :
  t ≠ [] → Forall (fun a => in_class ranges a = true) t →
  Match w (Plus (CharClass ranges)) (t ++ s, c) (s, c).
Proof.
  intros Hne Hall. destruct t as [|a t]; [done|]. clear Hne.
  apply Forall_cons in Hall as [Ha Hall].
  exists (t ++ s, c). split; [by exists a|].
  induction Hall as [|b t Hb _ IH]; [apply rtc_refl|].
  eapply rtc_l; [|exact IH]. by exists b.
Qed.

Lemma split_unique (sep : ascii) l1 : ∀ l2 r1 r2,
  l1 ++ sep :: r1 = l2 ++ sep :: r2 →
  Forall (fun a => a ≠ sep) l1 → Forall (fun a => a ≠ sep) l2 →
  l1 = l2 ∧ r1 = r2.
Proof.
  induction l1 as [|a l1 IH]; intros [|b l2] r1 r2 E H1 H2; simplify_eq/=.
  - done.
  - by inversion H2.
  - by inversion H1.
  - inversion H1; inversion H2; subst. by destruct (IH l2 r1 r2) as [-> ->].
Qed.

End complete_facts.

(** ** Repository ARNs, taken apart and put together *)

Module arn_parts_facts.
Import regexp shapes arns go_facts regexp_facts submatch_facts arn_submatch_facts complete_facts.
Import handler.

(** What the search finds in an ARN. *)
Lemma search_parts arn c :
  search ecrRepositoryArnPattern (chars arn) (chars arn) = Some c →
  ∃ t1 t2 a t3,
    c = [chars arn; t1; t2; a :: t3] ∧
    chars arn = chars "arn:aws:ecr:" ++ t1 ++ chars ":" ++ t2 ++ chars ":repository/" ++ a :: t3 ∧
    partsOk t1 t2 a t3.
Proof.
  intros E.
  apply search_submatches in E as (p & s0 & s' & c' & Hs & M & ->).
  assert (Hp : length s0 = length (chars arn)).
  { revert M. unfold ecrRepositoryArnPattern. cbn [Seq Match]. by intros (z1 & [<- Hlen] & _). }
  assert (p = []) as ->.
  { apply (f_equal length) in Hs. rewrite length_app in Hs. apply length_zero_iff_nil. lia. }
  simpl in Hs. subst s0.
  apply three_groups in M as (t1 & t2 & t3 & u1 & u2 & c1 & c2 & c3 & Harn & [= -> ->]
                              & M1 & M2 & M3); [|done..].
  assert (W1 : within regionChar (Plus (CharClass [az; digit; chr "-"])) = true)
    by by vm_compute.
  assert (W2 : within digitChar (Plus (CharClass [digit])) = true) by by vm_compute.
  destruct (Match_within regionChar _ _ W1 _ _ M1) as (t1' & Ht1 & F1).
  destruct (Match_within digitChar _ _ W2 _ _ M2) as (t2' & Ht2 & F2).
  simpl in Ht1, Ht2. apply app_inv_tail in Ht1, Ht2. subst t1' t2'. clear W1 W2.
  pose proof (Match_nonempty _ (Plus (CharClass [az; digit; chr "-"])) eq_refl _ _ t1 M1 eq_refl)
    as N1.
  pose proof (Match_nonempty _ (Plus (CharClass [digit])) eq_refl _ _ t2 M2 eq_refl) as N2.
  destruct M3 as ([s3 c3'] & (a & Ha & Hin & Hc) & M3). simpl in Ha, Hc. subst t3 c3'.
  apply Match_Plus_CharClass in M3 as (b & t & Hb & Hall & _). simpl in Hb.
  rewrite app_nil_r in Hb. subst s3.
  exists t1, t2, a, (b :: t). split; [by rewrite consumed_all|]. split; [exact Harn|].
  repeat split; try done.
Qed.

(** What the search finds in a well-formed ARN. *)
Lemma search_partsOk t1 t2 a t3 :
  partsOk t1 t2 a t3 →
  let arn := chars "arn:aws:ecr:" ++ t1 ++ chars ":" ++ t2 ++ chars ":repository/" ++ a :: t3 in
  search ecrRepositoryArnPattern arn arn = Some [arn; t1; t2; a :: t3].
Proof.
  intros (N1 & F1 & N2 & F2 & Ha & N3 & F3) arn.
  assert (M : Match arn ecrRepositoryArnPattern (arn, replicate 4 [])
                ([], [[]; t1; t2; a :: t3])).
  { unfold ecrRepositoryArnPattern, lit. cbn [Seq Match].
    eexists (arn, _). split; [done|].
    eexists (_, _). split; [split; done|].
    eexists (_, _). split.
    { eexists. split; [by apply (Match_Plus _ _ t1)|]. cbn [fst snd]. rewrite consumed_app. done. }
    eexists (_, _). split; [split; done|].
    eexists (_, _). split.
    { eexists. split; [by apply (Match_Plus _ _ t2)|]. cbn [fst snd]. rewrite consumed_app. done. }
    eexists (_, _). split; [split; done|].
    eexists (_, _). split; [|done].
    eexists. split.
    - eexists (t3 ++ [], _). split; [exists a; by rewrite app_nil_r|].
      by apply (Match_Plus _ _ t3).
    - cbn [fst snd]. rewrite consumed_all. done. }
  destruct (search_complete ecrRepositoryArnPattern arn _ eq_refl M) as [c E].
  rewrite E. f_equal.
  assert (Harn : arn = chars (str arn)) by by rewrite chars_str.
  rewrite Harn in E. apply search_parts in E as (u1 & u2 & b & u3 & -> & Hu & W).
  rewrite <- Harn in *. unfold arn in Hu.
  apply app_inv_head in Hu.
  destruct W as (_ & G1 & _ & G2 & _).
  apply split_unique in Hu as [-> Hu]; cycle 1.
  { eapply Forall_impl; [exact F1|]. intros x Hx ->. by vm_compute in Hx. }
  { eapply Forall_impl; [exact G1|]. intros x Hx ->. by vm_compute in Hx. }
  apply split_unique in Hu as [-> Hu]; cycle 1.
  { eapply Forall_impl; [exact F2|]. intros x Hx ->. by vm_compute in Hx. }
  { eapply Forall_impl; [exact G2|]. intros x Hx ->. by vm_compute in Hx. }
  apply (app_inv_head (chars "repository/")) in Hu. by rewrite Hu.
Qed.

Lemma forallb_Forall {A} (f : A → bool) l : forallb f l = true ↔ Forall (fun a => f a = true) l.
Proof.
  induction l as [|a l IH]; simpl.
  - split; [constructor|done].
  - rewrite andb_true_iff, IH, Forall_cons. done.
Qed.

Lemma wellFormed_partsOk region accountID repositoryName :
  wellFormed region accountID repositoryName = true ↔
  ∃ a rest, repositoryName = String a rest ∧
            partsOk (chars region) (chars accountID) a (chars rest).
Proof.
  unfold wellFormed, partsOk. rewrite !andb_true_iff, !negb_true_iff, !String.eqb_neq.
  rewrite !forallb_Forall. split.
  - intros ((((N1 & F1) & N2) & F2) & H3).
    destruct repositoryName as [|a [|b rest]]; try done.
    change (lowerChar a && forallb repositoryChar (chars (String b rest)) = true) in H3.
    apply andb_true_iff in H3 as [Ha H3]. apply forallb_Forall in H3.
    exists a, (String b rest). split; [done|].
    split; [by destruct region|]. split; [done|]. split; [by destruct accountID|]. done.
  - intros (a & rest & -> & N1 & F1 & N2 & F2 & Ha & N3 & F3).
    split; [split; [split; [split|]|]|]; try done.
    + intros ->. by apply N1.
    + intros ->. by apply N2.
    + destruct rest as [|b rest]; [done|].
      change (lowerChar a && forallb repositoryChar (chars (String b rest)) = true).
      rewrite Ha. by apply forallb_Forall.
Qed.

Lemma chars_repositoryArn region accountID repositoryName :
  chars (repositoryArn region accountID repositoryName)
  = chars "arn:aws:ecr:" ++ chars region ++ chars ":" ++ chars accountID
    ++ chars ":repository/" ++ chars repositoryName.
Proof. unfold repositoryArn. by rewrite !chars_app. Qed.

Lemma chars_inj s1 s2 : chars s1 = chars s2 → s1 = s2.
Proof. intros H. by rewrite <- (str_chars s1), H, str_chars. Qed.

(** The submatches of an ARN that matches. *)
Lemma FindStringSubmatch_parts arn :
  FindStringSubmatch ecrRepositoryArnPattern arn ≠ [] →
  ∃ region accountID repositoryName,
    FindStringSubmatch ecrRepositoryArnPattern arn = [arn; region; accountID; repositoryName] ∧
    arn = repositoryArn region accountID repositoryName ∧
    wellFormed region accountID repositoryName = true.
Proof.
  unfold FindStringSubmatch.
  destruct (search ecrRepositoryArnPattern (chars arn) (chars arn)) as [c|] eqn:E; [intros _|done].
  apply search_parts in E as (t1 & t2 & a & t3 & -> & Harn & Hok).
  exists (str t1), (str t2), (str (a :: t3)). split; [by cbn; rewrite str_chars|]. split.
  - apply chars_inj. by rewrite chars_repositoryArn, !chars_str.
  - apply wellFormed_partsOk. exists a, (str t3). by rewrite !chars_str.
Qed.

(** The submatches of a well-formed ARN. *)
Lemma FindStringSubmatch_wellFormed region accountID repositoryName :
  wellFormed region accountID repositoryName = true →
  FindStringSubmatch ecrRepositoryArnPattern (repositoryArn region accountID repositoryName)
  = [repositoryArn region accountID repositoryName; region; accountID; repositoryName].
Proof.
  intros H. apply wellFormed_partsOk in H as (a & rest & -> & Hok).
  unfold FindStringSubmatch. rewrite chars_repositoryArn.
  change (chars (String a rest)) with (a :: chars rest).
  rewrite (search_partsOk _ _ _ _ Hok). cbn [map].
  change (a :: chars rest) with (chars (String a rest)).
  rewrite <- chars_repositoryArn. by rewrite !str_chars.
Qed.

End arn_parts_facts.

(** ** The progress report of the first release *)

Module progress_facts.
Import first_release.

Local Open Scope Z_scope.

Lemma int64_id z : - 2 ^ 63 <= z < 2 ^ 63 → int64 z = z.
Proof. intros H. unfold int64. rewrite Z.mod_small; lia. Qed.

(** The percentage of an update whose total is known and does not overflow
    when multiplied by 100. *)
Lemma percentageOf_exact p :
  0 < Total p → Total p * 100 < 2 ^ 63 → 0 <= Complete p <= Total p →
  percentageOf p = Complete p * 100 / Total p ∧ 0 <= percentageOf p <= 100.
Proof.
  intros Ht Hmax Hc. unfold percentageOf, div64, mul64.
  rewrite decide_True by lia. rewrite (int64_id (Complete p * 100)) by lia.
  rewrite Z.quot_div_nonneg by lia.
  assert (0 <= Complete p * 100 / Total p <= 100).
  { split; [apply Z.div_pos; lia|]. apply Z.div_le_upper_bound; lia. }
  rewrite int64_id by lia. done.
Qed.

Lemma percentageOf_mono p q :
  0 < Total p → Total p * 100 < 2 ^ 63 → Total q = Total p →
  0 <= Complete p <= Complete q → Complete q <= Total p →
  percentageOf p <= percentageOf q.
Proof.
  intros Ht Hmax Hq Hc Hle.
  destruct (percentageOf_exact p) as [-> _]; [lia..|].
  destruct (percentageOf_exact q) as [-> _]; [lia..|].
  rewrite Hq. apply Z.div_le_mono; lia.
Qed.

(** Without errors the lines are the percentage lines. *)
Lemma progressLoop_percentages action progress : ∀ previous,
  Forall (fun p => Error p = None) progress →
  progressLoop action previous progress
  = map (percentageLine action) (percentages previous progress).
Proof.
  induction progress as [|p progress IH]; intros previous Hall; [done|].
  apply Forall_cons in Hall as [He Hall]. cbn [progressLoop percentages]. cbv zeta.
  rewrite He. destruct (decide (previous ≠ percentageOf p)); cbn [app map]; by rewrite IH.
Qed.

(** Percentages that never decrease are logged in increasing order. *)
Lemma percentages_increasing progress : ∀ previous,
  Forall (fun p => previous <= percentageOf p) progress →
  nondecreasing (map percentageOf progress) →
  increasing (percentages previous progress) ∧
  Forall (fun z => previous < z) (percentages previous progress) ∧
  Forall (fun z => ∃ p, p ∈ progress ∧ z = percentageOf p) (percentages previous progress).
Proof.
  induction progress as [|p progress IH]; intros previous Hall Hsorted.
  { cbn. repeat constructor. }
  apply Forall_cons in Hall as [Hp Hall]. cbn [map nondecreasing] in Hsorted.
  destruct Hsorted as [Hhd Hsorted]. rewrite Forall_map in Hhd.
  cbn [percentages]. destruct (decide (previous ≠ percentageOf p)) as [Hne|He].
  - destruct (IH (percentageOf p) Hhd Hsorted) as (S1 & S2 & S3).
    split; [|split].
    + by split.
    + constructor; [lia|]. eapply Forall_impl; [exact S2|]. intros; cbn in *; lia.
    + constructor; [exists p; split; [left|done]|].
      eapply Forall_impl; [exact S3|]. intros z (q & Hq & ->). exists q. split; [by right|done].
  - apply dec_stable in He. destruct (IH previous Hall Hsorted) as (S1 & S2 & S3).
    split; [done|]. split; [done|].
    eapply Forall_impl; [exact S3|]. intros z (q & Hq & ->). exists q. split; [by right|done].
Qed.

(** So many integers fit between two bounds. *)
Lemma increasing_length l : ∀ a b,
  increasing l → Forall (fun z => a < z <= b) l → Z.of_nat (length l) <= Z.max 0 (b - a).
Proof.
  induction l as [|x l IH]; intros a b Hs Hall; [cbn; lia|].
  destruct Hs as [Hx Hs]. apply Forall_cons in Hall as [Hax Hall].
  assert (H : Z.of_nat (length l) <= Z.max 0 (b - x)).
  { apply IH; [done|]. apply Forall_forall. intros z Hz.
    rewrite Forall_forall in Hx. rewrite Forall_forall in Hall.
    specialize (Hx z Hz). specialize (Hall z Hz). lia. }
  cbn [length]. lia.
Qed.

(** The percentages of a steady transfer never decrease. *)
Lemma steady_percentages total progress :
  0 < total → total * 100 < 2 ^ 63 → steady total progress →
  Forall (fun p => 0 <= percentageOf p <= 100) progress ∧
  nondecreasing (map percentageOf progress).
Proof.
  intros Ht Hmax [Hall Hsorted]. induction progress as [|p progress IH]; [by split|].
  apply Forall_cons in Hall as [(Htot & Hc & He) Hall].
  cbn [map nondecreasing] in Hsorted. destruct Hsorted as [Hhd Hsorted].
  destruct (IH Hall Hsorted) as [IH1 IH2]. split.
  - constructor; [|done]. apply percentageOf_exact; rewrite ?Htot; lia.
  - cbn [map nondecreasing]. split; [|done]. rewrite Forall_map in Hhd |- *.
    apply Forall_forall. intros q Hq. rewrite Forall_forall in Hhd. rewrite Forall_forall in Hall.
    destruct (Hall q Hq) as (Hqt & Hqc & _). specialize (Hhd q Hq). cbn in Hhd.
    apply percentageOf_mono; rewrite ?Htot; lia.
Qed.

End progress_facts.

(** ** The credentials *)

Module token_facts.
Import handler tokens submatch_facts.

Lemma splitOn_length sep l : length (splitOn sep l) = S (count_occ Ascii.ascii_dec l sep).
Proof.
  induction l as [|a l IH]; [done|]. simpl. unfold ascii_eqb.
  destruct (Ascii.eqb_spec a sep) as [->|Hne].
  - simpl. rewrite IH. by destruct (Ascii.ascii_dec sep sep).
  - destruct (Ascii.ascii_dec a sep); [done|].
    destruct (splitOn sep l); simpl in *; [done|done].
Qed.

Lemma Split_length s : length (Split s ":") = S (colons s).
Proof. unfold Split, colons. by rewrite length_map, splitOn_length. Qed.

Lemma splitOn_one sep l p :
  splitOn sep l = [p] → l = p ∧ count_occ Ascii.ascii_dec p sep = 0.
Proof.
  intros H. pose proof (splitOn_length sep l) as Hl. rewrite H in Hl. simpl in Hl.
  assert (Hc : count_occ Ascii.ascii_dec l sep = 0) by lia. clear Hl.
  assert (l = p) as <-; [|done].
  rewrite (name_facts.splitOn_none sep l) in H.
  - by injection H.
  - apply Forall_forall. intros a Ha ->.
    apply (count_occ_not_In Ascii.ascii_dec) in Hc. by apply Hc, list_elem_of_In.
Qed.

Lemma splitOn_two sep l : ∀ p0 p1,
  splitOn sep l = [p0; p1] →
  l = p0 ++ sep :: p1 ∧
  count_occ Ascii.ascii_dec p0 sep = 0 ∧ count_occ Ascii.ascii_dec p1 sep = 0.
Proof.
  induction l as [|a l IH]; intros p0 p1; [done|]. simpl. unfold ascii_eqb.
  destruct (Ascii.eqb_spec a sep) as [->|Hne].
  - intros [= <- H]. apply splitOn_one in H as [-> H]. done.
  - destruct (splitOn sep l) as [|p ps] eqn:E; [done|]. intros [= <- ->].
    destruct (IH p p1 eq_refl) as (-> & H0 & H1). split; [done|]. split; [|done].
    simpl. by destruct (Ascii.ascii_dec a sep).
Qed.

Lemma splitOn_pair sep p0 p1 :
  count_occ Ascii.ascii_dec p0 sep = 0 → count_occ Ascii.ascii_dec p1 sep = 0 →
  splitOn sep (p0 ++ sep :: p1) = [p0; p1].
Proof.
  intros H0 H1.
  assert (F : ∀ p, count_occ Ascii.ascii_dec p sep = 0 → Forall (fun a => a ≠ sep) p).
  { intros p Hp. apply Forall_forall. intros a Ha ->.
    apply (count_occ_not_In Ascii.ascii_dec) in Hp. by apply Hp, list_elem_of_In. }
  rewrite name_facts.splitOn_app by auto. by rewrite name_facts.splitOn_none by auto.
Qed.

Lemma chars_app_colon u p : chars (u +:+ ":" +:+ p) = chars u ++ ":"%char :: chars p.
Proof. by rewrite go_facts.chars_app. Qed.

End token_facts.

Section credentials.
Import tokens token_facts submatch_facts.
Context {T : Types} {P : Packages}.


(** X1: the credentials of a token. [getAuthentication] returns
    credentials exactly when ECR answers with authorization data whose first
    entry has a token, the token decodes, and the decoded text is a user
    name, one colon and a password, neither of which has a colon; the
    credentials are that user name and that password. Further entries are
    not looked at. *)
Theorem X1_credentials_of_a_token (W : World) (auth : authn.Basic) :
  (getAuthentication W).1 = inr auth ↔
  ∃ response first rest authorizationToken,
    ecr_GetAuthorizationToken W = inr response ∧
    ecr.AuthorizationData_ response = first :: rest ∧
    ecr.AuthorizationToken first = Some authorizationToken ∧
    base64_DecodeString authorizationToken
      = inr (authn.Username auth +:+ ":" +:+ authn.Password auth) ∧
    colons (authn.Username auth) = 0 ∧ colons (authn.Password auth) = 0.
Proof.
  unfold getAuthentication, bindE, bind, ret, effect. cbn [fst snd]. split.
  - destruct (ecr_GetAuthorizationToken W) as [e|response]; cbn [fst snd]; [done|].
    destruct (ecr.AuthorizationData_ response) as [|first rest] eqn:Hd; cbn [fst snd]; [done|].
    destruct (ecr.AuthorizationToken first) as [tok|] eqn:Ht; cbn [fst snd]; [|done].
    destruct (base64_DecodeString tok) as [e|token] eqn:Hdec; cbn [fst snd]; [done|].
    case_decide as Hlen; cbn [fst]; [done|]. intros [= <-].
    unfold Split in *. rewrite length_map in Hlen.
    destruct (splitOn ":" (chars token)) as [|p0 [|p1 [|]]] eqn:Hs; simpl in Hlen; try lia.
    apply splitOn_two in Hs as (Hl & H0 & H1).
    exists response, first, rest, tok. cbn [authn.Username authn.Password at_index].
    split; [done|]. split; [done|]. split; [done|]. split; [|split].
    + rewrite Hdec. f_equal. rewrite <- (str_chars token), Hl, str_app. done.
    + unfold colons. cbn. by rewrite chars_str.
    + unfold colons. cbn. by rewrite chars_str.
  - intros (response & first & rest & tok & -> & Hd & Ht & Hdec & H0 & H1). cbn [fst snd].
    rewrite Hd. rewrite Ht. cbn [fst snd]. rewrite Hdec. cbn [fst snd].
    unfold Split. rewrite chars_app_colon, splitOn_pair by done.
    cbn. rewrite !str_chars. by destruct auth.
Qed.

(** X2: a token that is not of two parts. When the decoded token has no
    colon, or more than one, as when the password has a colon,
    [getAuthentication] returns the error that counts the parts: one more
    than there are colons. *)
Theorem X2_token_of_other_parts (W : World) (response : ecr.GetAuthorizationTokenOutput)
    (first : ecr.AuthorizationData) (rest : list ecr.AuthorizationData)
    (authorizationToken token : string) :
  ecr_GetAuthorizationToken W = inr response →
  ecr.AuthorizationData_ response = first :: rest →
  ecr.AuthorizationToken first = Some authorizationToken →
  base64_DecodeString authorizationToken = inr token →
  colons token ≠ 1 →
  (getAuthentication W).1
  = inl ("token seperated by : contains " +:+ Itoa (S (colons token)) +:+ " elements, not 2").
Proof.
  intros Hr Hd Ht Hdec Hn.
  unfold getAuthentication, bindE, bind, ret, effect. cbn [fst snd].
  rewrite Hr. cbn [fst snd]. rewrite Hd, Ht. cbn [fst snd]. rewrite Hdec. cbn [fst snd].
  rewrite Split_length. rewrite decide_True by lia. done.
Qed.


End credentials.

Lemma X1_witness :
  (getAuthentication (registriesUp "QVdTOnBhc3N3b3Jk")).1
    = inr {| authn.Username := "AWS"; authn.Password := "password" |} ↔
  ∃ response first rest authorizationToken,
    ecr_GetAuthorizationToken (registriesUp "QVdTOnBhc3N3b3Jk") = inr response ∧
    ecr.AuthorizationData_ response = first :: rest ∧
    ecr.AuthorizationToken first = Some authorizationToken ∧
    base64_DecodeString authorizationToken = inr ("AWS" +:+ ":" +:+ "password") ∧
    tokens.colons "AWS" = 0 ∧ tokens.colons "password" = 0.
Proof.
  apply (X1_credentials_of_a_token (registriesUp "QVdTOnBhc3N3b3Jk")
           {| authn.Username := "AWS"; authn.Password := "password" |}).
Defined.

Lemma X2_witness :
  (getAuthentication (registriesUp "QVdTOnBhOnNz")).1
  = inl "token seperated by : contains 3 elements, not 2".
Proof.
  apply (X2_token_of_other_parts (registriesUp "QVdTOnBhOnNz") (tokenOutput "QVdTOnBhOnNz")
           {| ecr.AuthorizationToken := Some "QVdTOnBhOnNz" |} [] "QVdTOnBhOnNz" "AWS:pa:ss").
  - reflexivity.
  - reflexivity.
  - reflexivity.
  - vm_compute. reflexivity.
  - vm_compute. lia.
Defined.

(** ** Further properties of the lifecycle *)

Section lifecycle.
Import traces cases lifecycle_facts.
Context {T : Types} {P : Packages}.

Ltac paths W event :=
  rewrite (Handler_paths W event);
  destruct (session_NewSessionWithOptions W); [|destruct (getAuthentication W).1 as [?|auth]];
  cbv zeta.

Ltac create_cases W event auth :=
  rewrite (create_paths W event auth);
  destruct (validate event) as [?|properties];
  [|destruct (remote_NewPuller W);
    [|destruct (remote_NewPusher W);
      [|destruct (puller_Get W (Platform properties) (Source properties)) as [?|descriptor];
        [|destruct (Platform properties);
          [destruct (descriptor_Image W descriptor) as [?|image];
            [|destruct (pusher_Push W (Target properties) (TImage image) auth) eqn:?]
          |destruct (pusher_Push W (Target properties) (TDescriptor descriptor) auth) eqn:?]]]]];
  cbv zeta.

(** X3: an invocation that is not a Delete has pushed to the target
    registry, and the registry has accepted the push, exactly when it returns
    no error: a Create or an Update that fails has pushed nothing, and one
    that succeeds has pushed. *)
Theorem X3_push_accepted_iff_no_error (W : World) (event : cfn.Event) :
  cfn.RequestType event ≠ cfn.RequestDelete →
  Exists (accepted W) (calls (Handler W event).2) ↔ err (Handler W event).1 = None.
Proof.
  intros Hnd.
  assert (Hc : ∀ auth, Exists (accepted W) (calls (create W event auth).2)
                       ↔ err (create W event auth).1 = None).
  { intros auth. create_cases W event auth; cbn [fst snd err failed];
      rewrite ?calls_Net, ?calls_nil, ?Exists_cons, ?Exists_nil; cbn [accepted];
      intuition congruence. }
  paths W event; cbn [fst snd err failed];
    rewrite ?calls_Net, ?calls_nil, ?Exists_cons, ?Exists_nil; cbn [accepted];
    [intuition congruence..|].
  repeat (case_decide; cbn [fst snd err failed]);
    rewrite ?calls_Net, ?calls_nil, ?Exists_cons, ?Exists_nil; cbn [accepted];
    try (specialize (Hc auth)); try (intuition congruence).
Qed.

(** X4: the calls of an invocation, whatever the request and whatever the
    world answers. The authorization token is requested first and once. A
    push or a deletion is the last call; a push comes after a fetch of the
    source. A Delete request only deletes, and no other request deletes. *)
Theorem X4_call_discipline (W : World) (event : cfn.Event) :
  let cs := calls (Handler W event).2 in
  (cs = [] ∨ ∃ rest, cs = GetAuthorizationToken :: rest ∧ Forall (fun c => isToken c = false) rest) ∧
  (∀ pre c post, cs = pre ++ c :: post → isPush c = true ∨ isDelete c = true → post = []) ∧
  (∀ pre c post, cs = pre ++ c :: post → isPush c = true →
                 Exists (fun c' => isFetch c' = true) pre) ∧
  (cfn.RequestType event = cfn.RequestDelete →
   Forall (fun c => isToken c = true ∨ isDelete c = true) cs) ∧
  (cfn.RequestType event ≠ cfn.RequestDelete → Forall (fun c => isDelete c = false) cs).
Proof.
  assert (Hc : ∀ auth,
    let cs := calls (create W event auth).2 in
    Forall (fun c => isToken c = false ∧ isDelete c = false) cs ∧
    (∀ pre c post, cs = pre ++ c :: post → isPush c = true →
                   post = [] ∧ Exists (fun c' => isFetch c' = true) pre)).
  { intros auth. create_cases W event auth; cbn [fst snd];
      rewrite ?calls_Net, ?calls_nil; (split; [repeat constructor|]);
      intros [|c1 [|c2 [|c3 [|c4 pre]]]] c post [=] Hp; simplify_eq/=; try done;
      split; try done; repeat first [by apply Exists_cons_hd | apply Exists_cons_tl]. }
  assert (Hd : ∀ auth,
    let cs := calls (delete W event auth).2 in
    Forall (fun c => isToken c = false ∧ isDelete c = true) cs ∧
    (∀ pre c post, cs = pre ++ c :: post → post = [])).
  { intros auth. rewrite handler_facts.delete_effects.
    destruct (name_ParseReference _) as [?|ref]; [|destruct (remote_Delete W ref auth)];
      rewrite ?calls_Net, ?calls_Log, ?calls_nil; (split; [repeat constructor|]);
      intros [|c1 [|c2 pre]] c post [=]; simplify_eq/=; done. }
  cbv zeta. paths W event; cbn [fst snd]; rewrite ?calls_Net, ?calls_nil.
  - split; [by left|]. split; [by intros [|??] ?? [=]|]. split; [by intros [|??] ?? [=]|].
    split; intros; constructor.
  - split; [right; by eexists|]. split; [by intros [|?[|??]] ?? [=] [?|?]; simplify_eq/=|].
    split; [by intros [|?[|??]] ?? [=] ?; simplify_eq/=|].
    split; intros; repeat constructor.
  - specialize (Hc auth). specialize (Hd auth). cbv zeta in Hc, Hd.
    assert (Hcreate : ∀ created,
      Forall (fun c => isToken c = false ∧ isDelete c = false) created →
      (∀ pre c post, created = pre ++ c :: post → isPush c = true →
                     post = [] ∧ Exists (fun c' => isFetch c' = true) pre) →
      cfn.RequestType event ≠ cfn.RequestDelete →
      let cs := GetAuthorizationToken :: created in
      (cs = [] ∨ ∃ rest, cs = GetAuthorizationToken :: rest
                         ∧ Forall (fun c => isToken c = false) rest) ∧
      (∀ pre c post, cs = pre ++ c :: post → isPush c = true ∨ isDelete c = true → post = []) ∧
      (∀ pre c post, cs = pre ++ c :: post → isPush c = true →
                     Exists (fun c' => isFetch c' = true) pre) ∧
      (cfn.RequestType event = cfn.RequestDelete →
       Forall (fun c => isToken c = true ∨ isDelete c = true) cs) ∧
      (cfn.RequestType event ≠ cfn.RequestDelete → Forall (fun c => isDelete c = false) cs)).
    { clear Hc Hd. intros created Hc1 Hc2 Hnd. cbv zeta. split; [|split; [|split; [|split]]].
      - right. eexists. split; [done|]. eapply Forall_impl; [exact Hc1|]. by intros ? [? ?].
      - intros [|c0 pre] c post Heq Hk; injection Heq as <- Heq.
        + destruct Hk; done.
        + destruct Hk as [Hk|Hk]; [by apply (Hc2 pre c post)|].
          rewrite Heq in Hc1. apply Forall_app in Hc1 as [_ Hc1].
          apply Forall_cons in Hc1 as [[_ Hc1] _]. congruence.
      - intros [|c0 pre] c post Heq Hk; injection Heq as <- Heq; [done|].
        apply Exists_cons_tl. by apply (Hc2 pre c post).
      - done.
      - intros _. constructor; [done|]. eapply Forall_impl; [exact Hc1|]. by intros ? [? ?]. }
    assert (Hdelete : ∀ deleted,
      Forall (fun c => isToken c = false ∧ isDelete c = true) deleted →
      (∀ pre c post, deleted = pre ++ c :: post → post = []) →
      cfn.RequestType event = cfn.RequestDelete →
      let cs := GetAuthorizationToken :: deleted in
      (cs = [] ∨ ∃ rest, cs = GetAuthorizationToken :: rest
                         ∧ Forall (fun c => isToken c = false) rest) ∧
      (∀ pre c post, cs = pre ++ c :: post → isPush c = true ∨ isDelete c = true → post = []) ∧
      (∀ pre c post, cs = pre ++ c :: post → isPush c = true →
                     Exists (fun c' => isFetch c' = true) pre) ∧
      (cfn.RequestType event = cfn.RequestDelete →
       Forall (fun c => isToken c = true ∨ isDelete c = true) cs) ∧
      (cfn.RequestType event ≠ cfn.RequestDelete → Forall (fun c => isDelete c = false) cs)).
    { clear Hc Hd Hcreate. intros deleted Hd1 Hd2 Hr. cbv zeta. split; [|split; [|split; [|split]]].
      - right. eexists. split; [done|]. eapply Forall_impl; [exact Hd1|]. by intros ? [? ?].
      - intros [|c0 pre] c post Heq Hk; injection Heq as <- Heq.
        + destruct Hk; done.
        + by apply (Hd2 pre c post).
      - intros [|c0 pre] c post Heq Hk; injection Heq as <- Heq; [done|].
        rewrite Heq in Hd1. apply Forall_app in Hd1 as [_ Hd1].
        apply Forall_cons in Hd1 as [[_ Hd1] _]. by destruct c.
      - intros _. constructor; [by left|]. eapply Forall_impl; [exact Hd1|].
        intros ? [? ?]. by right.
      - done. }
    destruct (decide (cfn.ResourceType event = _)); cbn [fst snd]; rewrite ?calls_Net, ?calls_nil;
      cycle 1.
    { split; [right; by eexists|]. split; [by intros [|?[|??]] ?? [=] [?|?]; simplify_eq/=|].
      split; [by intros [|?[|??]] ?? [=] ?; simplify_eq/=|].
      split; intros; repeat constructor. }
    destruct (decide (cfn.RequestType event = cfn.RequestCreate)) as [Hr|];
      cbn [fst snd]; rewrite ?calls_Net;
      [apply Hcreate; [apply Hc|apply Hc|by rewrite Hr]|].
    destruct (decide (cfn.RequestType event = cfn.RequestUpdate)) as [Hr|];
      cbn [fst snd]; rewrite ?calls_Net;
      [apply Hcreate; [apply Hc|apply Hc|by rewrite Hr]|].
    destruct (decide (cfn.RequestType event = cfn.RequestDelete)) as [Hr|];
      cbn [fst snd]; rewrite ?calls_Net, ?calls_nil;
      [apply Hdelete; [apply Hd|apply Hd|done]|].
    split; [right; by eexists|]. split; [by intros [|?[|??]] ?? [=] [?|?]; simplify_eq/=|].
    split; [by intros [|?[|??]] ?? [=] ?; simplify_eq/=|].
    split; intros; repeat constructor.
Qed.

(** X5: with the session and the credentials in place, a request
    for another resource type is refused with [unsupported resource type],
    whatever its request type, and a request for [Custom::ContainerImage]
    whose request type is none of Create, Update and Delete is refused with
    [unsupported request type]. Both come with an empty physical resource
    id and without a call to a registry. *)
Theorem X5_unsupported_requests (W : World) (event : cfn.Event) (basicAuthentication : authn.Basic) :
  session_NewSessionWithOptions W = None →
  (getAuthentication W).1 = inr basicAuthentication →
  (cfn.ResourceType event ≠ "Custom::ContainerImage" →
   Handler W event
   = (failed ("unsupported resource type: " +:+ cfn.ResourceType event),
      [Net GetAuthorizationToken])) ∧
  (cfn.ResourceType event = "Custom::ContainerImage" →
   cfn.RequestType event ≠ cfn.RequestCreate →
   cfn.RequestType event ≠ cfn.RequestUpdate →
   cfn.RequestType event ≠ cfn.RequestDelete →
   Handler W event
   = (failed ("unsupported request type: " +:+ cfn.RequestType event),
      [Net GetAuthorizationToken])).
Proof.
  intros Hs Ha. rewrite (Handler_paths W event), Hs, Ha. cbv zeta. split.
  - intros Ht. by rewrite decide_False.
  - intros Ht Hc Hu Hd. rewrite decide_True by done. by rewrite !decide_False.
Qed.

(** X6: what fails before the request is looked at. Without a session
    nothing is called and the error of the session is returned; without
    credentials the one call is the request for the authorization token and
    its error is returned. In both cases the physical resource id is empty,
    for a Create too. *)
Theorem X6_failures_before_dispatch (W : World) (event : cfn.Event) :
  (∀ e, session_NewSessionWithOptions W = Some e → Handler W event = (failed e, [])) ∧
  (∀ e, session_NewSessionWithOptions W = None → (getAuthentication W).1 = inl e →
        Handler W event = (failed e, [Net GetAuthorizationToken])).
Proof.
  split; intros e.
  - intros Hs. by rewrite (Handler_paths W event), Hs.
  - intros Hs Ha. by rewrite (Handler_paths W event), Hs, Ha.
Qed.

(** X7: an Update is a Create but for the sentinel. The two requests
    for the same resource make the same calls and write the same log lines,
    and return the same error and the same data; they return the same
    physical resource id whenever the Update returns one. *)
Theorem X7_update_is_create (W : World) (event : cfn.Event) :
  let update := Handler W (withRequestType event cfn.RequestUpdate) in
  let create := Handler W (withRequestType event cfn.RequestCreate) in
  update.2 = create.2 ∧
  err update.1 = err create.1 ∧
  data update.1 = data create.1 ∧
  (physicalResourceID update.1 ≠ "" → update.1 = create.1) ∧
  (physicalResourceID update.1 = "" →
   physicalResourceID create.1 = "" ∨ physicalResourceID create.1 = "create-failed").
Proof.
  cbv zeta. rewrite !Handler_paths.
  destruct (session_NewSessionWithOptions W); [cbn; by intuition|].
  destruct (getAuthentication W).1 as [e|auth]; [cbn; by intuition|]. cbv zeta.
  cbn [withRequestType cfn.ResourceType cfn.RequestType].
  destruct (decide (cfn.ResourceType event = _)); [|cbn; by intuition].
  rewrite (decide_False (P:=cfn.RequestUpdate = cfn.RequestCreate)) by done.
  rewrite !decide_True by done. cbn [fst snd].
  assert (Hsame : create W (withRequestType event cfn.RequestUpdate) auth
                  = create W (withRequestType event cfn.RequestCreate) auth) by done.
  rewrite Hsame. generalize (create W (withRequestType event cfn.RequestCreate) auth).
  intros [r t]. cbn [fst snd]. destruct (decide (physicalResourceID r = "")); cbn;
    (split; [done|]); (split; [done|]); (split; [done|]); split; intros; auto; done.
Qed.

(** X8: the data of a successful [create] has the three attributes
    [Digest], [ImageReference] and [Platforms] and no other, and the
    [ImageReference] attribute is the physical resource id it returns. *)
Theorem X8_attributes_of_create (W : World) (event : cfn.Event) (authenticator : authn.Basic) :
  err (create W event authenticator).1 = None →
  ∃ d : gmap string Value,
    data (create W event authenticator).1 = Some d ∧
    dom d = ({["Digest"; "ImageReference"; "Platforms"]} : gset string) ∧
    d !! "ImageReference"
    = Some (VString (physicalResourceID (create W event authenticator).1)).
Proof.
  intros Hok.
  apply handler_facts.create_succeeded in Hok
    as (properties & descriptor & pushed & _ & _ & _ & _ & -> & _).
  exists (createData properties descriptor). split; [done|]. split.
  - unfold createData. rewrite !dom_insert_L, dom_empty_L. set_solver.
  - by destruct (handler_facts.createData_lookup properties descriptor) as (_ & -> & _).
Qed.

(** X9: every platform of a source that is not an index. When the platform
    is [all] and the fetched descriptor does not read as an index, or its
    index manifest does not parse, a [create] whose push is accepted pushes
    the descriptor as it is and returns an empty list of platforms. *)
Theorem X9_all_platforms_of_an_image (W : World) (event : cfn.Event) (authenticator : authn.Basic)
    (properties : resourceProperties) (descriptor : remote_Descriptor) :
  validate event = inr properties →
  Platform properties = None →
  puller_Get W None (Source properties) = inr descriptor →
  (∀ index, remote_Descriptor_ImageIndex descriptor = inr index →
            ∃ e, v1_IndexManifest index = inl e) →
  err (create W event authenticator).1 = None →
  (∃ d, data (create W event authenticator).1 = Some d ∧ d !! "Platforms" = Some (VStrings [])) ∧
  (create W event authenticator).2
  = [Net (PullerGet None (Source properties));
     Net (PusherPush (Target properties) (TDescriptor descriptor) authenticator)].
Proof.
  intros Hv Hp Hget Hidx. rewrite (create_paths W event authenticator), Hv.
  destruct (remote_NewPuller W); [done|]. destruct (remote_NewPusher W); [done|].
  cbv zeta. rewrite Hp, Hget.
  destruct (pusher_Push W _ _ _); [done|]. intros _. cbn [fst snd data]. split; [|done].
  eexists. split; [done|].
  destruct (handler_facts.createData_lookup properties descriptor) as (_ & _ & ->).
  rewrite Hp. unfold getPlatforms.
  destruct (remote_Descriptor_ImageIndex descriptor) as [e|index]; [done|].
  by destruct (Hidx index eq_refl) as [e ->].
Qed.

(** X10: a source that cannot be fetched. With the session and the
    credentials in place, when the properties are valid, the puller and the
    pusher are set up and the fetch of the source fails, a Create and an
    Update of a [Custom::ContainerImage] return the error of the registry
    behind [failed to get descriptor for repository: ], without data; the
    fetch is the only call to a registry. *)
Theorem X10_source_not_fetched (W : World) (event : cfn.Event) (basicAuthentication : authn.Basic)
    (properties : resourceProperties) (e : error) :
  session_NewSessionWithOptions W = None →
  (getAuthentication W).1 = inr basicAuthentication →
  cfn.ResourceType event = "Custom::ContainerImage" →
  cfn.RequestType event = cfn.RequestCreate ∨ cfn.RequestType event = cfn.RequestUpdate →
  validate event = inr properties →
  remote_NewPuller W = None → remote_NewPusher W = None →
  puller_Get W (Platform properties) (Source properties) = inl e →
  err (Handler W event).1 = Some ("failed to get descriptor for repository: " +:+ e) ∧
  data (Handler W event).1 = None ∧
  (Handler W event).2
  = [Net GetAuthorizationToken; Net (PullerGet (Platform properties) (Source properties))].
Proof.
  intros Hs Ha Ht Hr Hv Hpull Hpush Hget.
  rewrite (Handler_paths W event), Hs, Ha. cbv zeta. rewrite decide_True by done.
  rewrite (create_paths W event basicAuthentication), Hv, Hpull, Hpush. cbv zeta. rewrite Hget.
  destruct Hr as [Hr|Hr]; rewrite Hr.
  - by rewrite decide_True.
  - rewrite decide_False by done. by rewrite decide_True.
Qed.

End lifecycle.

Lemma X3_witness :
  Exists (traces.accepted (registriesUp "QVdTOnBhc3N3b3Jk"))
    (traces.calls (Handler (registriesUp "QVdTOnBhc3N3b3Jk") (withTagAndDigest cfn.RequestCreate)).2)
  ↔ err (Handler (registriesUp "QVdTOnBhc3N3b3Jk") (withTagAndDigest cfn.RequestCreate)).1 = None.
Proof.
  apply (X3_push_accepted_iff_no_error (registriesUp "QVdTOnBhc3N3b3Jk")
           (withTagAndDigest cfn.RequestCreate)).
  intros H. vm_compute in H. discriminate H.
Defined.

Lemma X5_witness :
  (cfn.ResourceType cases.otherResource ≠ "Custom::ContainerImage" →
   Handler (registriesUp "QVdTOnBhc3N3b3Jk") cases.otherResource
   = (failed "unsupported resource type: Custom::Secret", [Net GetAuthorizationToken])) ∧
  (cfn.ResourceType cases.otherResource = "Custom::ContainerImage" →
   cfn.RequestType cases.otherResource ≠ cfn.RequestCreate →
   cfn.RequestType cases.otherResource ≠ cfn.RequestUpdate →
   cfn.RequestType cases.otherResource ≠ cfn.RequestDelete →
   Handler (registriesUp "QVdTOnBhc3N3b3Jk") cases.otherResource
   = (failed "unsupported request type: Create", [Net GetAuthorizationToken])).
Proof.
  apply (X5_unsupported_requests (registriesUp "QVdTOnBhc3N3b3Jk") cases.otherResource
           cases.awsPassword).
  - reflexivity.
  - vm_compute. reflexivity.
Defined.

Lemma X8_witness :
  ∃ d : gmap string Value,
    data (create (registriesUp "") allPlatforms cases.awsPassword).1 = Some d ∧
    dom d = ({["Digest"; "ImageReference"; "Platforms"]} : gset string) ∧
    d !! "ImageReference"
    = Some (VString (physicalResourceID (create (registriesUp "") allPlatforms
                                           cases.awsPassword).1)).
Proof.
  apply (X8_attributes_of_create (registriesUp "") allPlatforms cases.awsPassword).
  vm_compute. reflexivity.
Defined.

Lemma X9_witness :
  ∃ d, data (create singleImage allPlatforms cases.awsPassword).1 = Some d ∧
       d !! "Platforms" = Some (VStrings []).
Proof.
  assert (∃ properties, validate allPlatforms = inr properties ∧ Platform properties = None)
    as (properties & Hv & Hp).
  { eexists. split; vm_compute; reflexivity. }
  apply (X9_all_platforms_of_an_image singleImage allPlatforms cases.awsPassword
           properties python37Image Hv Hp).
  - reflexivity.
  - intros index H. vm_compute in H. discriminate H.
  - vm_compute. reflexivity.
Defined.

Lemma X10_witness :
  err (Handler cases.sourceDown (withTagAndDigest cfn.RequestUpdate)).1
  = Some "failed to get descriptor for repository: MANIFEST_UNKNOWN: manifest unknown" ∧
  data (Handler cases.sourceDown (withTagAndDigest cfn.RequestUpdate)).1 = None ∧
  length (Handler cases.sourceDown (withTagAndDigest cfn.RequestUpdate)).2 = 2.
Proof.
  assert (∃ properties, validate (withTagAndDigest cfn.RequestUpdate) = inr properties)
    as (properties & Hv).
  { eexists. vm_compute. reflexivity. }
  destruct (X10_source_not_fetched cases.sourceDown (withTagAndDigest cfn.RequestUpdate)
              cases.awsPassword properties "MANIFEST_UNKNOWN: manifest unknown")
    as (He & Hd & Ht).
  - reflexivity.
  - vm_compute. reflexivity.
  - reflexivity.
  - right. reflexivity.
  - exact Hv.
  - reflexivity.
  - reflexivity.
  - reflexivity.
  - rewrite He, Hd, Ht. repeat split.
Defined.

(** ** Further properties of [validate] *)

Section validation.
Import arns arn_parts_facts.
Context {T : Types} {P : Packages}.

(** X11: [validate] reads the properties [ImageReference],
    [RepositoryArn] and [Platform] and nothing else of the event: two events
    that agree on the three have the same result. *)
Theorem X11_validate_reads_three_properties (event event' : cfn.Event) :
  cfn.ResourceProperties event !! "ImageReference"
    = cfn.ResourceProperties event' !! "ImageReference" →
  cfn.ResourceProperties event !! "RepositoryArn"
    = cfn.ResourceProperties event' !! "RepositoryArn" →
  cfn.ResourceProperties event !! "Platform" = cfn.ResourceProperties event' !! "Platform" →
  validate event = validate event'.
Proof.
  intros Hi Ha Hp. rewrite !validate_halves. unfold resolveSource, resolveTarget.
  by rewrite Hi, Ha, Hp.
Qed.

(** X12: valid properties name a tag or a digest, so that the target is
    never the bare repository: it is parsed from
    [account.dkr.ecr.region.amazonaws.com/repository] followed by a colon and
    the tag when there is a tag, and by an at sign and a digest that is not
    empty otherwise. *)
Theorem X12_tag_or_digest (event : cfn.Event) (properties : resourceProperties) :
  validate event = inr properties →
  let repository := AccountID properties +:+ ".dkr.ecr." +:+ Region properties
                    +:+ ".amazonaws.com/" +:+ RepositoryName properties in
  (SourceTag properties ≠ "" ∧
   name_ParseReference (repository +:+ ":" +:+ SourceTag properties) = inr (Target properties)) ∨
  (SourceTag properties = "" ∧ SourceDigest properties ≠ "" ∧
   name_ParseReference (repository +:+ "@" +:+ SourceDigest properties) = inr (Target properties)).
Proof.
  intros Hok. apply validate_inr in Hok as (ref & imageReference & arn & _ & _ & Hrest).
  cbv zeta in Hrest. destruct Hrest as (_ & Hd & Ht & _ & _ & _ & _ & _ & Htarget & _).
  cbv zeta. unfold targetReference in Htarget.
  destruct (decide (SourceTag properties ≠ "")) as [Hne|He].
  - left. split; [done|]. by rewrite <- Htarget, !append_assoc.
  - right. apply dec_stable in He. split; [done|]. split.
    + intros Hd0. rewrite Ht in He. rewrite Hd in Hd0. by case_decide; [|tauto].
    + by rewrite <- Htarget, !append_assoc.
Qed.

(** X13: the repository ARN of valid properties is
    [arn:aws:ecr:REGION:ACCOUNT:repository/NAME] for the region, the account
    and the repository name that [validate] returns, and the three are as
    the pattern wants them: a region of lowercase letters, digits and
    hyphens, an account of digits, both not empty, and a name of a lowercase
    letter followed by one character or more among lowercase letters,
    digits, hyphens, underscores, slashes and periods. *)
Theorem X13_arn_taken_apart (event : cfn.Event) (properties : resourceProperties) :
  validate event = inr properties →
  as_string (cfn.ResourceProperties event !! "RepositoryArn")
  = Some (repositoryArn (Region properties) (AccountID properties) (RepositoryName properties)) ∧
  wellFormed (Region properties) (AccountID properties) (RepositoryName properties) = true.
Proof.
  intros Hok. apply validate_inr in Hok as (ref & imageReference & arn & _ & _ & Hrest).
  cbv zeta in Hrest. destruct Hrest as (_ & _ & _ & Harn & Hlen & Hr & Ha & Hn & _).
  destruct (FindStringSubmatch_parts arn) as (r & a & n & Hm & -> & Hwf).
  { intros Hnil. by rewrite Hnil in Hlen. }
  rewrite Hm in Hr, Ha, Hn. cbn in Hr, Ha, Hn. by rewrite Hr, Ha, Hn.
Qed.

(** X14: valid properties copy every platform only on request: the
    platform is absent exactly when the [Platform] property is a string that
    reads [all] once it is put in lower case and trimmed. *)
Theorem X14_every_platform_on_request (event : cfn.Event) (properties : resourceProperties) :
  validate event = inr properties →
  Platform properties = None ↔
  ∃ s, as_string (cfn.ResourceProperties event !! "Platform") = Some s ∧
       strings_TrimSpace (strings_ToLower s) = "all".
Proof.
  intros Hok. apply validate_inr in Hok as (ref & imageReference & arn & _ & _ & Hrest).
  cbv zeta in Hrest. destruct Hrest as (_ & _ & _ & _ & _ & _ & _ & _ & _ & Hsel).
  unfold selectedPlatform in Hsel.
  destruct (as_string (cfn.ResourceProperties event !! "Platform")) as [s|].
  - destruct (decide (strings_TrimSpace (strings_ToLower s) = "all")) as [Hall|Hall].
    + injection Hsel as <-. split; [|done]. intros _. by exists s.
    + destruct (v1_ParsePlatform s); [done|]. injection Hsel as <-.
      split; [done|]. intros (s' & [= <-] & H). done.
  - injection Hsel as <-. split; [done|]. by intros (s' & ? & _).
Qed.

(** X15: the two required properties. Without [ImageReference], or
    with one that is not a string, [validate] returns the error of the
    missing image reference, whatever the other properties; an event that is
    valid returns the error of the missing repository ARN once its
    [RepositoryArn] is taken away or is not a string. *)
Theorem X15_required_properties (event : cfn.Event) :
  validate (withoutProperty event "ImageReference")
    = inl "ImageReference is missing or not a string" ∧
  (∀ v, as_string (Some v) = None →
        validate (withProperty event "ImageReference" v)
        = inl "ImageReference is missing or not a string") ∧
  (∀ properties, validate event = inr properties →
     validate (withoutProperty event "RepositoryArn")
       = inl "RepositoryArn is missing or not a string" ∧
     ∀ v, as_string (Some v) = None →
          validate (withProperty event "RepositoryArn" v)
          = inl "RepositoryArn is missing or not a string").
Proof.
  split; [|split].
  - rewrite validate_halves. unfold resolveSource, withoutProperty. cbn [cfn.ResourceProperties].
    by rewrite lookup_delete_eq.
  - intros v Hv. rewrite validate_halves. unfold resolveSource, withProperty.
    cbn [cfn.ResourceProperties]. by rewrite lookup_insert_eq, Hv.
  - intros properties Hok. rewrite validate_halves in Hok.
    destruct (resolveSource event) as [e|src] eqn:Hsrc; [done|]. clear Hok.
    assert (Hwithout : resolveSource (withoutProperty event "RepositoryArn") = inr src).
    { rewrite <- Hsrc. unfold resolveSource, withoutProperty. cbn [cfn.ResourceProperties].
      by rewrite lookup_delete_ne. }
    split.
    + rewrite validate_halves, Hwithout. cbn [bindR]. unfold resolveTarget, withoutProperty.
      cbn [cfn.ResourceProperties]. destruct src as [[[? ?] ?] ?]. by rewrite lookup_delete_eq.
    + intros v Hv. rewrite validate_halves, resolveSource_withProperty, Hsrc by done.
      cbn [bindR]. unfold resolveTarget, withProperty.
      cbn [cfn.ResourceProperties]. destruct src as [[[? ?] ?] ?].
      by rewrite lookup_insert_eq, Hv.
Qed.

(** X16: the platform is validated last and on its own. Of an event that
    is valid, another [Platform] string changes the platform and nothing
    else: [all] selects every platform, a string that parses selects what it
    parses to, and a string that does not parse is the one reason to fail,
    with the error of the parser behind [invalid Platform format, ]. *)
Theorem X16_platform_on_its_own (event : cfn.Event) (properties : resourceProperties) (s : string) :
  validate event = inr properties →
  let selected (platform : option v1.Platform) : result resourceProperties :=
    inr {| Source := Source properties; SourceTag := SourceTag properties;
           SourceDigest := SourceDigest properties; SourceName := SourceName properties;
           Platform := platform; Target := Target properties;
           Region := Region properties; AccountID := AccountID properties;
           RepositoryName := RepositoryName properties |} in
  validate (withProperty event "Platform" (VString s))
  = if decide (strings_TrimSpace (strings_ToLower s) = "all") then selected None
    else match v1_ParsePlatform s with
         | inr platform => selected (Some platform)
         | inl e => inl ("invalid Platform format, " +:+ e)
         end.
Proof.
  intros Hok. cbv zeta. rewrite validate_halves in Hok |- *.
  rewrite resolveSource_withProperty by done.
  destruct (resolveSource event) as [e|[[[source tag] digest] name]]; [done|].
  cbn [bindR] in *. unfold resolveTarget, withProperty in *. cbn [cfn.ResourceProperties] in *.
  rewrite lookup_insert_eq. rewrite lookup_insert_ne by done.
  destruct (as_string (cfn.ResourceProperties event !! "RepositoryArn")) as [arn|]; [|done].
  cbn [bindR] in *. cbv zeta in *.
  destruct (decide (length (FindStringSubmatch ecrRepositoryArnPattern arn) ≠ 4)); [done|].
  destruct (name_ParseReference _) as [e|target]; [done|]. cbn [bindR as_string] in *.
  destruct (match as_string (cfn.ResourceProperties event !! "Platform") with
            | Some platform => _ | None => _ end) as [e|platform]; [done|].
  cbn [bindR] in Hok. injection Hok as <-. cbn.
  destruct (decide (strings_TrimSpace (strings_ToLower s) = "all")); [done|].
  by destruct (v1_ParsePlatform s).
Qed.

End validation.

Section pattern.
Import arns arn_parts_facts.

(** X17: the ARNs the pattern accepts. An ARN has submatches exactly
    when it is [arn:aws:ecr:REGION:ACCOUNT:repository/NAME] with a region of
    lowercase letters, digits and hyphens, an account of digits, both not
    empty, and a name of a lowercase letter followed by one character or
    more among lowercase letters, digits, hyphens, underscores, slashes and
    periods; the submatches are then the ARN, the region, the account and
    the name. *)
Theorem X17_accepted_arns :
  (∀ region accountID repositoryName,
     wellFormed region accountID repositoryName = true →
     FindStringSubmatch ecrRepositoryArnPattern (repositoryArn region accountID repositoryName)
     = [repositoryArn region accountID repositoryName; region; accountID; repositoryName]) ∧
  (∀ arn,
     FindStringSubmatch ecrRepositoryArnPattern arn ≠ [] →
     ∃ region accountID repositoryName,
       arn = repositoryArn region accountID repositoryName ∧
       wellFormed region accountID repositoryName = true).
Proof.
  split.
  - apply FindStringSubmatch_wellFormed.
  - intros arn Hm. destruct (FindStringSubmatch_parts arn Hm) as (r & a & n & _ & ? & ?).
    by exists r, a, n.
Qed.

End pattern.

Lemma X11_witness :
  validate (withTagAndDigest cfn.RequestCreate)
  = validate (withProperty (withTagAndDigest cfn.RequestDelete) "ServiceToken" (VString "arn")).
Proof.
  apply (X11_validate_reads_three_properties (withTagAndDigest cfn.RequestCreate)
           (withProperty (withTagAndDigest cfn.RequestDelete) "ServiceToken" (VString "arn"))).
  - vm_compute. reflexivity.
  - vm_compute. reflexivity.
  - vm_compute. reflexivity.
Defined.
Lemma X12_witness :
  ∃ properties,
    validate (pull ("python@" +:+ python39Digest)) = inr properties ∧
    SourceTag properties = "" ∧ SourceDigest properties ≠ "" ∧
    name_ParseReference
      ("444093529715.dkr.ecr.eu-central-1.amazonaws.com/cfn-container-image-provider-demo"
       +:+ "@" +:+ SourceDigest properties)
    = inr (Target properties).
Proof.
  assert (∃ properties,
            validate (pull ("python@" +:+ python39Digest)) = inr properties ∧
            SourceTag properties = "" ∧
            AccountID properties +:+ ".dkr.ecr." +:+ Region properties +:+ ".amazonaws.com/"
              +:+ RepositoryName properties
            = "444093529715.dkr.ecr.eu-central-1.amazonaws.com/cfn-container-image-provider-demo")
    as (properties & Hv & Ht & Hr).
  { eexists. split; [vm_compute; reflexivity|]. split; vm_compute; reflexivity. }
  exists properties. split; [exact Hv|].
  destruct (X12_tag_or_digest (pull ("python@" +:+ python39Digest)) properties Hv)
    as [[Hne _]|(_ & Hd & Hp)].
  - destruct (Hne Ht).
  - rewrite Hr in Hp. repeat split; [exact Ht|exact Hd|exact Hp].
Defined.
Lemma X13_witness :
  ∃ properties,
    validate (withTagAndDigest cfn.RequestCreate) = inr properties ∧
    as_string (cfn.ResourceProperties (withTagAndDigest cfn.RequestCreate) !! "RepositoryArn")
    = Some (arns.repositoryArn (Region properties) (AccountID properties)
              (RepositoryName properties)) ∧
    arns.wellFormed (Region properties) (AccountID properties) (RepositoryName properties) = true.
Proof.
  assert (∃ properties, validate (withTagAndDigest cfn.RequestCreate) = inr properties)
    as (properties & Hv).
  { eexists. vm_compute. reflexivity. }
  exists properties. split; [exact Hv|].
  apply (X13_arn_taken_apart (withTagAndDigest cfn.RequestCreate) properties Hv).
Defined.
Lemma X14_witness :
  ∃ properties,
    validate allPlatforms = inr properties ∧
    (Platform properties = None ↔
     ∃ s, as_string (cfn.ResourceProperties allPlatforms !! "Platform") = Some s ∧
          strings_TrimSpace (strings_ToLower s) = "all").
Proof.
  assert (∃ properties, validate allPlatforms = inr properties) as (properties & Hv).
  { eexists. vm_compute. reflexivity. }
  exists properties. split; [exact Hv|].
  apply (X14_every_platform_on_request allPlatforms properties Hv).
Defined.
Lemma X16_witness :
  validate (withProperty (pull "python") "Platform" (VString "linux/arm/v7/softfp"))
  = inl "invalid Platform format, too many slashes in platform spec: linux/arm/v7/softfp".
Proof.
  assert (∃ properties, validate (pull "python") = inr properties) as (properties & Hv).
  { eexists. vm_compute. reflexivity. }
  rewrite (X16_platform_on_its_own (pull "python") properties "linux/arm/v7/softfp" Hv).
  vm_compute. reflexivity.
Defined.

(** ** Properties of the progress report *)

Section progress.
Import first_release progress_facts.

(** X18: the report of a transfer that goes forward. When every update
    has the same total, positive and small enough for a hundred times the
    total to fit an [int64], and the completed bytes never decrease, stay
    within the total and come without error, the lines are percentage lines
    of percentages that increase from line to line and lie between 1 and
    100: at most a hundred lines, however many updates there are. *)
Theorem X18_report_of_a_steady_transfer (action : string) (total : Z) (progress : list Update) :
  (0 < total)%Z → (total * 100 < 2 ^ 63)%Z → steady total progress →
  reportProgress action progress = map (percentageLine action) (percentages 0 progress) ∧
  increasing (percentages 0 progress) ∧
  Forall (fun z => (1 <= z <= 100)%Z) (percentages 0 progress) ∧
  length (reportProgress action progress) <= 100.
Proof.
  intros Ht Hmax Hsteady.
  destruct (steady_percentages total progress Ht Hmax Hsteady) as [Hrange Hsorted].
  destruct (percentages_increasing progress 0) as (S1 & S2 & S3); [|done|].
  { eapply Forall_impl; [exact Hrange|]. intros p Hp. cbn in Hp. lia. }
  assert (Hbounds : Forall (fun z => (1 <= z <= 100)%Z) (percentages 0 progress)).
  { apply Forall_forall. intros z Hz.
    rewrite Forall_forall in S2. rewrite Forall_forall in S3. rewrite Forall_forall in Hrange.
    destruct (S3 z Hz) as (p & Hp & ->). specialize (S2 _ Hz). specialize (Hrange p Hp).
    cbn in *. lia. }
  assert (Hlen : reportProgress action progress
                 = map (percentageLine action) (percentages 0 progress)).
  { apply progressLoop_percentages. destruct Hsteady as [Hall _].
    eapply Forall_impl; [exact Hall|]. by intros p (_ & _ & ?). }
  split; [done|]. split; [done|]. split; [done|].
  rewrite Hlen, length_map.
  pose proof (increasing_length (percentages 0 progress) 0 100 S1) as H.
  assert (Z.of_nat (length (percentages 0 progress)) <= Z.max 0 (100 - 0))%Z; [|lia].
  apply H. eapply Forall_impl; [exact Hbounds|]. intros; cbn in *; lia.
Qed.

(** X19: every error of an update is logged, in the order of the
    updates, whatever the percentages; and when no update knows its total,
    nothing is divided and the lines of the errors are the only lines. *)
Theorem X19_errors_are_reported (action : string) (progress : list Update) :
  sublist (map (failedLine action) (omap Error progress)) (reportProgress action progress) ∧
  (Forall (fun p => Total p = 0%Z) progress →
   reportProgress action progress = map (failedLine action) (omap Error progress)).
Proof.
  unfold reportProgress. split.
  - generalize 0%Z. induction progress as [|p progress IH]; intros previous; [constructor|].
    cbn [progressLoop omap list_omap]. cbv zeta.
    destruct (Error p) as [e|]; cbn [app map];
      destruct (decide (previous ≠ percentageOf p)); cbn [app];
      repeat first [apply IH | apply sublist_skip | apply sublist_cons].
  - induction 1 as [|p progress Hp _ IH]; [done|].
    cbn [progressLoop omap list_omap]. cbv zeta.
    assert (Hzero : percentageOf p = 0%Z).
    { unfold percentageOf. destruct (decide (Total p ≠ 0%Z)) as [Hne|_]; [by destruct Hne|done]. }
    rewrite Hzero. destruct (decide (0%Z ≠ 0%Z)) as [Hne|_]; [by destruct Hne|].
    cbn [app]. destruct (Error p); cbn [app map]; by rewrite IH.
Qed.

End progress.

Lemma X18_witness :
  first_release.reportProgress "Pull" first_release.transfer
  = map (first_release.percentageLine "Pull")
      (first_release.percentages 0 first_release.transfer) ∧
  first_release.increasing (first_release.percentages 0 first_release.transfer) ∧
  Forall (fun z => (1 <= z <= 100)%Z) (first_release.percentages 0 first_release.transfer) ∧
  length (first_release.reportProgress "Pull" first_release.transfer) <= 100.
Proof.
  apply (X18_report_of_a_steady_transfer "Pull" 200 first_release.transfer).
  - lia.
  - lia.
  - split.
    + repeat constructor; cbn; lia.
    + cbn. repeat constructor; lia.
Defined.

Example reportProgress_transfer :
  first_release.reportProgress "Pull" first_release.transfer
  = ["Pull: 25%" +:+ first_release.newline; "Pull: 100%" +:+ first_release.newline].
Proof. vm_compute. reflexivity. Qed.

(** ** From Create to Delete, with the packages of the model *)

Section create_then_delete.
Import traces cases lifecycle_facts.

(** X20: what a Create has pushed, the Delete deletes. With the
    reference parser of the model, when a Create or an Update with a tag
    succeeds, the physical resource id it returns parses back to the target
    it has pushed to, and the Delete request that carries this id, once its
    session and its credentials are in place, calls the registry once, to
    delete that target, after the request for the authorization token. *)
Theorem X20_delete_what_was_pushed (W W' : World) (event : cfn.Event)
    (properties : resourceProperties) (basicAuthentication : authn.Basic) :
  cfn.RequestType event = cfn.RequestCreate ∨ cfn.RequestType event = cfn.RequestUpdate →
  err (Handler W event).1 = None →
  validate event = inr properties →
  SourceTag properties ≠ "" →
  session_NewSessionWithOptions W' = None →
  (getAuthentication W').1 = inr basicAuthentication →
  name.ParseReference (physicalResourceID (Handler W event).1) = inr (Target properties) ∧
  calls (Handler W' (deletionOf event (physicalResourceID (Handler W event).1))).2
  = [GetAuthorizationToken; RemoteDelete (Target properties) basicAuthentication].
Proof.
  intros Hr Hok Hv Htag Hs' Ha'.
  destruct (Handler_succeeded W _ Hok) as (_ & Ht & _).
  destruct (Handler_tagged W event Hr Hok) as (properties' & Hv' & Hid).
  assert (properties' = properties) as -> by congruence.
  rewrite (Hid Htag).
  assert (Hparse : name.ParseReference
                     (AccountID properties +:+ ".dkr.ecr." +:+ Region properties
                      +:+ ".amazonaws.com/" +:+ RepositoryName properties +:+ ":"
                      +:+ SourceTag properties) = inr (Target properties)).
  { apply validate_inr in Hv as (? & ? & ? & _ & _ & Hrest).
    cbv zeta in Hrest. destruct Hrest as (_ & _ & _ & _ & _ & _ & _ & _ & Htarget & _).
    unfold targetReference in Htarget. by rewrite decide_True in Htarget. }
  split; [exact Hparse|].
  rewrite (Handler_paths W'), Hs', Ha'. cbv zeta.
  cbn [deletionOf cfn.ResourceType cfn.RequestType].
  rewrite decide_True by done.
  rewrite (decide_False (P:=cfn.RequestDelete = cfn.RequestCreate)) by done.
  rewrite (decide_False (P:=cfn.RequestDelete = cfn.RequestUpdate)) by done.
  rewrite decide_True by done. cbn [snd].
  rewrite handler_facts.delete_effects. unfold deletionOf. cbn [cfn.PhysicalResourceID].
  match goal with
  | |- context [name_ParseReference ?s] => change (name_ParseReference s) with (name.ParseReference s)
  end.
  rewrite Hparse. by destruct (remote_Delete W' (Target properties) basicAuthentication).
Qed.


End create_then_delete.

Lemma X20_witness :
  ∃ properties,
    validate (withTagAndDigest cfn.RequestCreate) = inr properties ∧
    name.ParseReference
      (physicalResourceID (Handler (registriesUp "QVdTOnBhc3N3b3Jk")
                             (withTagAndDigest cfn.RequestCreate)).1)
    = inr (Target properties) ∧
    traces.calls
      (Handler pushDenied
         (cases.deletionOf (withTagAndDigest cfn.RequestCreate)
            (physicalResourceID (Handler (registriesUp "QVdTOnBhc3N3b3Jk")
                                   (withTagAndDigest cfn.RequestCreate)).1))).2
    = [GetAuthorizationToken; RemoteDelete (Target properties) cases.awsPassword].
Proof.
  assert (∃ properties, validate (withTagAndDigest cfn.RequestCreate) = inr properties
                        ∧ SourceTag properties = "3.9") as (properties & Hv & Ht).
  { eexists. split; vm_compute; reflexivity. }
  exists properties. split; [exact Hv|].
  apply (X20_delete_what_was_pushed (registriesUp "QVdTOnBhc3N3b3Jk") pushDenied
           (withTagAndDigest cfn.RequestCreate) properties cases.awsPassword).
  - left. reflexivity.
  - vm_compute. reflexivity.
  - exact Hv.
  - rewrite Ht. discriminate.
  - reflexivity.
  - vm_compute. reflexivity.
Defined.

